(** * The timing CPU pipeline and the cache stage

    A shallow embedding of [src/cpu/simple/timing.cc] and of
    [src/mem/cache/cache_impl.hh].  The C++ code is stateful and calls
    into collaborators whose code lives in other files (the packet
    class, the thread context and ISA, the tag store, the miss queue,
    the coherence policy, the peer of each port).  The embedding keeps
    the control flow of every modelled member function and threads an
    explicit world through it; each collaborator is an interface (a type
    class) whose operations are parameters of the development, in the
    way the cache itself is a template over [TagStore], [Buffering] and
    [Coherence]. *)

From Stdlib Require Import ZArith List String Lia Bool.
From stdpp Require Import base option gmap.

Local Open Scope Z_scope.

(** ** Outcomes and the state-and-abort monad

    A member function either returns, or the simulator stops on a failed
    [assert], a [panic], or a dereference of a null or freed pointer.
    [OutOfFuel] is the answer of the fuel-indexed functions when the
    recursion between [fetch] and [advanceInst] is cut. *)

Inductive Failure : Type :=
| AssertFailed (what : string)
| Panic (msg : string)
| NullDeref
| OutOfFuel.

Inductive Outcome (W A : Type) : Type :=
| Done (a : A) (w : W)
| Abort (f : Failure) (w : W).

Arguments Done {W A} a w.
Arguments Abort {W A} f w.

Definition M (W A : Type) : Type := W -> Outcome W A.

#[global] Instance M_ret (W : Type) : MRet (M W) :=
  fun A a w => Done a w.

#[global] Instance M_bind (W : Type) : MBind (M W) :=
  fun A B k m w =>
    match m w with
    | Done a w' => k a w'
    | Abort f w' => Abort f w'
    end.

(** The world a run ends in, whether it returned or stopped. *)
Definition final {W A : Type} (o : Outcome W A) : W :=
  match o with
  | Done _ w => w
  | Abort _ w => w
  end.

Definition gets {W A : Type} (f : W -> A) : M W A := fun w => Done (f w) w.

Definition modify {W : Type} (f : W -> W) : M W unit := fun w => Done tt (f w).

Definition abort {W A : Type} (f : Failure) : M W A := fun w => Abort f w.

(** C [assert(b)]. *)
Definition assert {W : Type} (b : bool) (what : string) : M W unit :=
  if b then mret tt else abort (AssertFailed what).

(** [if (b) body] with no else branch. *)
Definition when {W : Type} (b : bool) (body : M W unit) : M W unit :=
  if b then body else mret tt.

(** Dereference of a pointer that may be null or dangling. *)
Definition deref {W A : Type} (o : option A) : M W A :=
  match o with
  | Some a => mret a
  | None => abort NullDeref
  end.

(** A [for] loop over a container, in order. *)
Fixpoint forEach {W A : Type} (l : list A) (body : A -> M W unit) : M W unit :=
  match l with
  | [] => mret tt
  | x :: rest => body x ;; forEach rest body
  end.

(** ** Packets and requests ([mem/packet.hh], [mem/request.hh])

    Only the members the two source files touch are kept.  The command
    enumeration lists the commands the sources name; [OtherCmd] stands
    for the rest of the enumeration. *)

Module Packet.

Inductive Command : Type :=
| ReadReq
| WriteReq
| Writeback
| HardPFReq
| InvalidateReq
| WriteInvalidateReq
| UpgradeReq
| OtherCmd (code : Z).

Inductive Result : Type := Success | BadAddress | Nacked | Unknown.

Inductive Dest : Type := Broadcast | ToPort (id : Z).

End Packet.

#[global] Instance Command_eq_dec : EqDecision Packet.Command.
Proof. solve_decision. Defined.

#[global] Instance Result_eq_dec : EqDecision Packet.Result.
Proof. solve_decision. Defined.

Inductive Fault : Type := NoFault | FaultCode (code : Z).

#[global] Instance Fault_eq_dec : EqDecision Fault.
Proof. solve_decision. Defined.

Record Request : Type := mkRequest {
  req_asid : Z;
  getVaddr : Z;
  req_size : Z;
  req_flags : Z;
  req_pc : Z;
  req_cpu : Z;
  req_thread : Z;
  getTime : Z;
}.

(** Pointers are addresses in a store; [None] is [NULL]. *)
Abbreviation PacketPtr := nat.
Abbreviation MSHRPtr := nat.

Record PacketObj : Type := mkPacket {
  cmd : Packet.Command;
  req : Request;
  dest : Packet.Dest;
  getAddr : Z;
  getSize : Z;
  flags : Z;
  result : Packet.Result;
  getPtr : list Z;
  senderState : option MSHRPtr;
  time : Z;
}.

Definition set_flags (f : Z) (p : PacketObj) : PacketObj :=
  mkPacket (cmd p) (req p) (dest p) (getAddr p) (getSize p) f
           (result p) (getPtr p) (senderState p) (time p).

Definition set_result (r : Packet.Result) (p : PacketObj) : PacketObj :=
  mkPacket (cmd p) (req p) (dest p) (getAddr p) (getSize p) (flags p)
           r (getPtr p) (senderState p) (time p).

Definition set_data (d : list Z) (p : PacketObj) : PacketObj :=
  mkPacket (cmd p) (req p) (dest p) (getAddr p) (getSize p) (flags p)
           (result p) d (senderState p) (time p).

Definition set_req (r : Request) (p : PacketObj) : PacketObj :=
  mkPacket (cmd p) r (dest p) (getAddr p) (getSize p) (flags p)
           (result p) (getPtr p) (senderState p) (time p).

Definition addrOverride (a : Z) (p : PacketObj) : PacketObj :=
  mkPacket (cmd p) (req p) (dest p) a (getSize p) (flags p)
           (result p) (getPtr p) (senderState p) (time p).

Definition set_senderState (m : option MSHRPtr) (p : PacketObj) : PacketObj :=
  mkPacket (cmd p) (req p) (dest p) (getAddr p) (getSize p) (flags p)
           (result p) (getPtr p) m (time p).

Definition set_time (t : Z) (p : PacketObj) : PacketObj :=
  mkPacket (cmd p) (req p) (dest p) (getAddr p) (getSize p) (flags p)
           (result p) (getPtr p) (senderState p) t.

(** The attribute tests of a packet and of a request, the two setters
    of a request that the cache calls, and the flag masks, are declared
    in headers outside the two source files: they are the operations of
    this interface. *)
Class PacketIface : Type := {
  isRead : PacketObj -> bool;
  isWrite : PacketObj -> bool;
  isInvalidate : PacketObj -> bool;
  isResponse : PacketObj -> bool;
  needsResponse : PacketObj -> bool;
  isCacheFill : PacketObj -> bool;
  isNoAllocate : PacketObj -> bool;
  intersect : PacketObj -> PacketObj -> bool;
  isUncacheable : Request -> bool;
  isLocked : Request -> bool;
  (* [req->setThreadContext(cpu_num, thread_num)] *)
  setThreadContext : Z -> Z -> Request -> Request;
  (* [req->setScResult(result)] *)
  setScResult : Z -> Request -> Request;
  SATISFIED : Z;
  NACKED_LINE : Z;
  SHARED_LINE : Z;
  SNOOP_COMMIT : Z;
}.

(** [pkt->flags & mask] read as a C condition. *)
Definition flagSet (mask : Z) (p : PacketObj) : bool :=
  negb (Z.land (flags p) mask =? 0).

(** [pkt->flags |= mask]. *)
Definition orFlag (mask : Z) (p : PacketObj) : PacketObj :=
  set_flags (Z.lor (flags p) mask) p.

Abbreviation Heap := (gmap nat PacketObj).

(** [new Packet(...)]: the object is placed at an address not in use. *)
Definition newAddr (h : Heap) : PacketPtr := fresh (dom h).

(** ** The timing CPU ([cpu/simple/timing.cc]) *)

Module TimingCPU.

Inductive Status : Type :=
| Idle
| Running
| IcacheRetry
| IcacheWaitResponse
| DcacheRetry
| DcacheWaitResponse
| SwitchedOut.

#[global] Instance Status_eq_dec : EqDecision Status.
Proof. solve_decision. Defined.

Module SimObject.

Inductive State : Type := Running | Draining | Drained.

End SimObject.

#[global] Instance SimState_eq_dec : EqDecision SimObject.State.
Proof. solve_decision. Defined.

Inductive PortName : Type := icachePort | dcachePort.

(** What a tick event of a port runs when it fires. *)
Inductive Callback : Type :=
| CompleteIfetch (pkt : PacketPtr)
| CompleteDataAccess (pkt : PacketPtr).

(** The memory access an instruction starts from [initiateAcc]: a call
    of [read], a call of [write], or no call at all. *)
Inductive MemAccess : Type :=
| AccRead (addr sizeofT flags : Z)
| AccWrite (data : list Z) (addr sizeofT flags : Z)
| AccNone (fault : Fault).

(** The thread context, the ISA and the decoded instruction: all the
    code the CPU calls that is not in [timing.cc].  [Arch] is their
    combined state. *)
Class CpuEnv (Arch : Type) : Type := {
  Inst : Type;
  readPC : Arch -> Z;
  traceSetAddr : Z -> Arch -> Arch;
  translateDataReadReq : Request -> Arch -> Fault * Request * Arch;
  translateDataWriteReq : Request -> Arch -> Fault * Request * Arch;
  handleLockedWrite : Request -> Arch -> bool * Request * Arch;
  handleLockedRead : Request -> Arch -> Arch;
  curStaticInst : Arch -> option Inst;
  isDelayedCommit : Inst -> bool;
  isMemRef : Inst -> bool;
  isDataPrefetch : Inst -> bool;
  checkForInterrupts : Arch -> Arch;
  setupFetchRequest : Request -> Arch -> Fault * Request * Arch;
  advancePC : Fault -> Arch -> Arch;
  preExecute : Arch -> Arch;
  postExecute : Arch -> Arch;
  initiateAcc : Inst -> Arch -> MemAccess * Arch;
  completeAcc : Inst -> PacketObj -> Arch -> Fault * Arch;
  execute : Inst -> Arch -> Fault * Arch;
  nextCycle : Z -> Z;
}.

(** The peer of the two ports.  [peer_recvTiming] is what
    [sendTiming] reaches: it answers whether the packet was accepted
    and may touch the packets it was given. *)
Class Link (Peer : Type) : Type := {
  peer_recvTiming :
    PortName -> PacketPtr -> Peer * Heap -> bool * (Peer * Heap);
}.

Abbreviation EventPtr := nat.

Record World (Arch Peer : Type) : Type := mkWorld {
  _status : Status;
  ifetch_pkt : option PacketPtr;
  dcache_pkt : option PacketPtr;
  drainEvent : option EventPtr;
  previousTick : Z;
  numCycles : Z;
  cpu_id : Z;
  getState : SimObject.State;
  thread : Arch;
  curTick : Z;
  heap : Heap;
  peer : Peer;
  (* packets offered on a Link, oldest first, with the answer *)
  offered : list (PortName * PacketPtr * bool);
  (* tick events scheduled, oldest first *)
  scheduled : list (Z * Callback);
  (* drain events whose process() ran, oldest first *)
  processed : list EventPtr;
  recorded : list string;
}.

Arguments mkWorld {Arch Peer}.
Arguments _status {Arch Peer}.
Arguments ifetch_pkt {Arch Peer}.
Arguments dcache_pkt {Arch Peer}.
Arguments drainEvent {Arch Peer}.
Arguments previousTick {Arch Peer}.
Arguments numCycles {Arch Peer}.
Arguments cpu_id {Arch Peer}.
Arguments getState {Arch Peer}.
Arguments thread {Arch Peer}.
Arguments curTick {Arch Peer}.
Arguments heap {Arch Peer}.
Arguments peer {Arch Peer}.
Arguments offered {Arch Peer}.
Arguments scheduled {Arch Peer}.
Arguments processed {Arch Peer}.
Arguments recorded {Arch Peer}.

Section TimingSimpleCPU.

Context `{PI : PacketIface} {Arch Peer : Type}.
Context `{ENV : !CpuEnv Arch} `{LINK : !Link Peer}.

#[local] Abbreviation World := (World Arch Peer).
#[local] Abbreviation CPU := (M World).

Definition set_status (s : Status) (w : World) : World :=
  mkWorld s (ifetch_pkt w) (dcache_pkt w) (drainEvent w) (previousTick w)
    (numCycles w) (cpu_id w) (getState w) (thread w) (curTick w) (heap w)
    (peer w) (offered w) (scheduled w) (processed w) (recorded w).

Definition set_ifetch_pkt (p : option PacketPtr) (w : World) : World :=
  mkWorld (_status w) p (dcache_pkt w) (drainEvent w) (previousTick w)
    (numCycles w) (cpu_id w) (getState w) (thread w) (curTick w) (heap w)
    (peer w) (offered w) (scheduled w) (processed w) (recorded w).

Definition set_dcache_pkt (p : option PacketPtr) (w : World) : World :=
  mkWorld (_status w) (ifetch_pkt w) p (drainEvent w) (previousTick w)
    (numCycles w) (cpu_id w) (getState w) (thread w) (curTick w) (heap w)
    (peer w) (offered w) (scheduled w) (processed w) (recorded w).

Definition set_drainEvent (e : option EventPtr) (w : World) : World :=
  mkWorld (_status w) (ifetch_pkt w) (dcache_pkt w) e (previousTick w)
    (numCycles w) (cpu_id w) (getState w) (thread w) (curTick w) (heap w)
    (peer w) (offered w) (scheduled w) (processed w) (recorded w).

(** [numCycles += curTick - previousTick; previousTick = curTick]. *)
Definition countCycles (w : World) : World :=
  mkWorld (_status w) (ifetch_pkt w) (dcache_pkt w) (drainEvent w) (curTick w)
    (numCycles w + (curTick w - previousTick w)) (cpu_id w) (getState w)
    (thread w) (curTick w) (heap w)
    (peer w) (offered w) (scheduled w) (processed w) (recorded w).

(** [SimObject::changeState]. *)
Definition changeState (s : SimObject.State) (w : World) : World :=
  mkWorld (_status w) (ifetch_pkt w) (dcache_pkt w) (drainEvent w)
    (previousTick w) (numCycles w) (cpu_id w) s (thread w) (curTick w)
    (heap w) (peer w) (offered w) (scheduled w) (processed w) (recorded w).

Definition set_thread (a : Arch) (w : World) : World :=
  mkWorld (_status w) (ifetch_pkt w) (dcache_pkt w) (drainEvent w)
    (previousTick w) (numCycles w) (cpu_id w) (getState w) a (curTick w)
    (heap w) (peer w) (offered w) (scheduled w) (processed w) (recorded w).

Definition set_heap (h : Heap) (w : World) : World :=
  mkWorld (_status w) (ifetch_pkt w) (dcache_pkt w) (drainEvent w)
    (previousTick w) (numCycles w) (cpu_id w) (getState w) (thread w)
    (curTick w) h (peer w) (offered w) (scheduled w) (processed w)
    (recorded w).

Definition set_peer (m : Peer) (w : World) : World :=
  mkWorld (_status w) (ifetch_pkt w) (dcache_pkt w) (drainEvent w)
    (previousTick w) (numCycles w) (cpu_id w) (getState w) (thread w)
    (curTick w) (heap w) m (offered w) (scheduled w) (processed w)
    (recorded w).

Definition log_offer (o : PortName * PacketPtr * bool) (w : World) : World :=
  mkWorld (_status w) (ifetch_pkt w) (dcache_pkt w) (drainEvent w)
    (previousTick w) (numCycles w) (cpu_id w) (getState w) (thread w)
    (curTick w) (heap w) (peer w) (offered w ++ [o]) (scheduled w)
    (processed w) (recorded w).

(** [tickEvent.schedule(pkt, t)]. *)
Definition schedule (t : Z) (cb : Callback) (w : World) : World :=
  mkWorld (_status w) (ifetch_pkt w) (dcache_pkt w) (drainEvent w)
    (previousTick w) (numCycles w) (cpu_id w) (getState w) (thread w)
    (curTick w) (heap w) (peer w) (offered w) (scheduled w ++ [(t, cb)])
    (processed w) (recorded w).

(** [drainEvent->process()]. *)
Definition process (e : EventPtr) (w : World) : World :=
  mkWorld (_status w) (ifetch_pkt w) (dcache_pkt w) (drainEvent w)
    (previousTick w) (numCycles w) (cpu_id w) (getState w) (thread w)
    (curTick w) (heap w) (peer w) (offered w) (scheduled w)
    (processed w ++ [e]) (recorded w).

Definition recordEvent (s : string) (w : World) : World :=
  mkWorld (_status w) (ifetch_pkt w) (dcache_pkt w) (drainEvent w)
    (previousTick w) (numCycles w) (cpu_id w) (getState w) (thread w)
    (curTick w) (heap w) (peer w) (offered w) (scheduled w)
    (processed w) (recorded w ++ [s]).

(** A call into the thread context or ISA that returns a value. *)
Definition callThread {A : Type} (f : Arch -> A * Arch) : CPU A :=
  fun w => Done (f (thread w)).1 (set_thread (f (thread w)).2 w).

(** A call into the thread context or ISA that returns nothing. *)
Definition runThread (f : Arch -> Arch) : CPU unit :=
  modify (fun w => set_thread (f (thread w)) w).

(** [new Packet(req, cmd, dest)]. *)
Definition newPacket (r : Request) (c : Packet.Command) (d : Packet.Dest) :
  CPU PacketPtr :=
  fun w =>
    let p := newAddr (heap w) in
    let obj := mkPacket c r d (getVaddr r) (req_size r) 0 Packet.Unknown []
                 None (curTick w) in
    Done p (set_heap (<[p := obj]> (heap w)) w).

(** [pkt->member]: read the object a pointer names. *)
Definition load (p : PacketPtr) : CPU PacketObj :=
  h ← gets heap; deref (h !! p).

(** Change the object a pointer names. *)
Definition store (p : PacketPtr) (f : PacketObj -> PacketObj) : CPU unit :=
  obj ← load p; modify (fun w => set_heap (<[p := f obj]> (heap w)) w).

(** [delete pkt->req; delete pkt]. *)
Definition deletePacket (p : PacketPtr) : CPU unit :=
  modify (fun w => set_heap (delete p (heap w)) w).

(** [port.sendTiming(pkt)]: the packet is offered to the peer of the
    port, which accepts it or not. *)
Definition sendTiming (port : PortName) (p : PacketPtr) : CPU bool :=
  fun w =>
    let r := peer_recvTiming port p (peer w, heap w) in
    Done r.1 (log_offer (port, p, r.1) (set_heap r.2.2 (set_peer r.2.1 w))).

(** [TimingSimpleCPU::drain]. *)
Definition drain (drain_event : EventPtr) : CPU Z :=
  st ← gets _status;
  if bool_decide (st = Idle) || bool_decide (st = Running)
     || bool_decide (st = SwitchedOut)
  then
    modify (changeState SimObject.Drained);;
    mret 0
  else
    modify (changeState SimObject.Draining);;
    modify (set_drainEvent (Some drain_event));;
    mret 1.

(** [TimingSimpleCPU::read<T>], with [sizeofT = sizeof(T)]. *)
Definition read (addr sizeofT rflags : Z) : CPU Fault :=
  pc ← gets (fun w => readPC (thread w));
  id ← gets cpu_id;
  now ← gets curTick;
  let req0 := mkRequest 0 addr sizeofT rflags pc id 0 now in
  runThread (traceSetAddr (getVaddr req0));;
  '(fault, req1) ← callThread (translateDataReadReq req0);
  when (bool_decide (fault = NoFault))
    (pkt ← newPacket req1 Packet.ReadReq Packet.Broadcast;
     store pkt (set_data (replicate (Z.to_nat sizeofT) 0));;
     ok ← sendTiming dcachePort pkt;
     if negb ok then
       modify (set_status DcacheRetry);;
       modify (set_dcache_pkt (Some pkt))
     else
       modify (set_status DcacheWaitResponse);;
       modify (set_dcache_pkt None));;
  when (isUncacheable req1) (modify (recordEvent "Uncached Read"));;
  mret fault.

(** [TimingSimpleCPU::write<T>]; [data] is the bytes of the value. *)
Definition write (data : list Z) (addr sizeofT wflags : Z) : CPU Fault :=
  pc ← gets (fun w => readPC (thread w));
  id ← gets cpu_id;
  now ← gets curTick;
  let req0 := mkRequest 0 addr sizeofT wflags pc id 0 now in
  '(fault, req1) ← callThread (translateDataWriteReq req0);
  req2 ←
    (if bool_decide (fault = NoFault) then
       old ← gets dcache_pkt;
       assert (bool_decide (old = None)) "dcache_pkt == NULL";;
       pkt ← newPacket req1 Packet.WriteReq Packet.Broadcast;
       modify (set_dcache_pkt (Some pkt));;
       store pkt (set_data (replicate (Z.to_nat sizeofT) 0));;
       store pkt (set_data data);;
       '(do_access, req2) ←
         (if isLocked req1 then
            '(ok, r) ← callThread (handleLockedWrite req1);
            store pkt (set_req r);;
            mret (ok, r)
          else mret (true, req1));
       when do_access
         (cur ← gets dcache_pkt;
          tmp ← deref cur;
          ok ← sendTiming dcachePort tmp;
          if negb ok then
            modify (set_status DcacheRetry)
          else
            modify (set_status DcacheWaitResponse);;
            modify (set_dcache_pkt None));;
       mret req2
     else mret req1);
  when (isUncacheable req2) (modify (recordEvent "Uncached Write"));;
  mret fault.

(** [TimingSimpleCPU::advanceInst], over the [fetch] it calls. *)
Definition advanceInst (fetch : CPU unit) (fault : Fault) : CPU unit :=
  runThread (advancePC fault);;
  st ← gets _status;
  when (bool_decide (st = Running)) fetch.

(** [TimingSimpleCPU::fetch].  [fetch] and [advanceInst] call each
    other for as long as fetches fault, so the recursion is on fuel. *)
Fixpoint fetch (fuel : nat) : CPU unit :=
  match fuel with
  | O => abort OutOfFuel
  | S n =>
    ci ← gets (fun w => curStaticInst (thread w));
    when (match ci with
          | None => true
          | Some i => negb (isDelayedCommit i)
          end)
      (runThread checkForInterrupts);;
    id ← gets cpu_id;
    now ← gets curTick;
    let ifetch_req := mkRequest 0 0 0 0 0 id 0 now in
    '(fault, ifetch_req') ← callThread (setupFetchRequest ifetch_req);
    pkt ← newPacket ifetch_req' Packet.ReadReq Packet.Broadcast;
    modify (set_ifetch_pkt (Some pkt));;
    (if bool_decide (fault = NoFault) then
       cur ← gets ifetch_pkt;
       tmp ← deref cur;
       ok ← sendTiming icachePort tmp;
       if negb ok then
         modify (set_status IcacheRetry)
       else
         modify (set_status IcacheWaitResponse);;
         modify (set_ifetch_pkt None)
     else
       advanceInst (fetch n) fault);;
    modify countCycles
  end.

(** [TimingSimpleCPU::completeDrain]. *)
Definition completeDrain : CPU unit :=
  modify (changeState SimObject.Drained);;
  ev ← gets drainEvent;
  e ← deref ev;
  modify (process e).

(** [curStaticInst->initiateAcc(this, traceData)]: the instruction
    computes its access and calls back [read] or [write]; the fault it
    returns is the one of that call. *)
Definition doInitiateAcc (i : Inst) : CPU Fault :=
  acc ← callThread (initiateAcc i);
  match acc with
  | AccRead a s f => read a s f
  | AccWrite d a s f => write d a s f
  | AccNone flt => mret flt
  end.

(** [TimingSimpleCPU::completeIfetch]. *)
Definition completeIfetch (fuel : nat) (pkt : PacketPtr) : CPU unit :=
  obj ← load pkt;
  assert (bool_decide (result obj = Packet.Success))
    "pkt->result == Packet::Success";;
  st ← gets _status;
  assert (bool_decide (st = IcacheWaitResponse))
    "_status == IcacheWaitResponse";;
  modify (set_status Running);;
  deletePacket pkt;;
  modify countCycles;;
  state ← gets getState;
  if bool_decide (state = SimObject.Draining) then
    completeDrain
  else
    runThread preExecute;;
    ci ← gets (fun w => curStaticInst (thread w));
    i ← deref ci;
    if isMemRef i && negb (isDataPrefetch i) then
      fault ← doInitiateAcc i;
      st' ← gets _status;
      if negb (bool_decide (st' = Running)) then
        assert (bool_decide (st' = DcacheWaitResponse)
                || bool_decide (st' = DcacheRetry))
          "_status == DcacheWaitResponse || _status == DcacheRetry";;
        assert (bool_decide (fault = NoFault)) "fault == NoFault"
      else
        fault' ←
          (if bool_decide (fault = NoFault) then
             cur ← gets dcache_pkt;
             assert (negb (bool_decide (cur = None))) "dcache_pkt != NULL";;
             dp ← deref cur;
             dobj ← load dp;
             f ← callThread (completeAcc i dobj);
             deletePacket dp;;
             modify (set_dcache_pkt None);;
             mret f
           else mret fault);
        runThread postExecute;;
        advanceInst (fetch fuel) fault'
    else
      fault ← callThread (execute i);
      runThread postExecute;;
      advanceInst (fetch fuel) fault.

(** [TimingSimpleCPU::completeDataAccess]. *)
Definition completeDataAccess (fuel : nat) (pkt : PacketPtr) : CPU unit :=
  obj ← load pkt;
  assert (bool_decide (result obj = Packet.Success))
    "pkt->result == Packet::Success";;
  st ← gets _status;
  assert (bool_decide (st = DcacheWaitResponse))
    "_status == DcacheWaitResponse";;
  modify (set_status Running);;
  modify countCycles;;
  ci ← gets (fun w => curStaticInst (thread w));
  i ← deref ci;
  fault ← callThread (completeAcc i obj);
  obj' ← load pkt;
  when (isRead obj' && isLocked (req obj'))
    (runThread (handleLockedRead (req obj')));;
  deletePacket pkt;;
  runThread postExecute;;
  state ← gets getState;
  if bool_decide (state = SimObject.Draining) then
    runThread (advancePC fault);;
    completeDrain
  else
    advanceInst (fetch fuel) fault.

(** [TimingSimpleCPU::IcachePort::recvTiming]. *)
Definition IcachePort_recvTiming (fuel : nat) (pkt : PacketPtr) : CPU bool :=
  obj ← load pkt;
  if isResponse obj then
    let mem_time := getTime (req obj) in
    let next_tick := nextCycle mem_time in
    now ← gets curTick;
    (if bool_decide (next_tick = now) then
       completeIfetch fuel pkt
     else
       modify (schedule next_tick (CompleteIfetch pkt)));;
    mret true
  else
    mret true.

(** [TimingSimpleCPU::IcachePort::recvRetry]. *)
Definition IcachePort_recvRetry : CPU unit :=
  held ← gets ifetch_pkt;
  assert (negb (bool_decide (held = None))) "cpu->ifetch_pkt != NULL";;
  st ← gets _status;
  assert (bool_decide (st = IcacheRetry)) "cpu->_status == IcacheRetry";;
  tmp ← deref held;
  ok ← sendTiming icachePort tmp;
  when ok
    (modify (set_status IcacheWaitResponse);;
     modify (set_ifetch_pkt None)).

(** [TimingSimpleCPU::DcachePort::recvTiming]. *)
Definition DcachePort_recvTiming (fuel : nat) (pkt : PacketPtr) : CPU bool :=
  obj ← load pkt;
  if isResponse obj then
    let mem_time := getTime (req obj) in
    let next_tick := nextCycle mem_time in
    now ← gets curTick;
    (if bool_decide (next_tick = now) then
       completeDataAccess fuel pkt
     else
       modify (schedule next_tick (CompleteDataAccess pkt)));;
    mret true
  else
    mret true.

(** [TimingSimpleCPU::DcachePort::recvRetry]. *)
Definition DcachePort_recvRetry : CPU unit :=
  held ← gets dcache_pkt;
  assert (negb (bool_decide (held = None))) "cpu->dcache_pkt != NULL";;
  st ← gets _status;
  assert (bool_decide (st = DcacheRetry)) "cpu->_status == DcacheRetry";;
  tmp ← deref held;
  ok ← sendTiming dcachePort tmp;
  when ok
    (modify (set_status DcacheWaitResponse);;
     modify (set_dcache_pkt None)).

(** *** The two ports side by side

    The instruction port and the data port run the same protocol on
    their own packet and their own pair of states. *)

Definition held (port : PortName) (w : World) : option PacketPtr :=
  match port with
  | icachePort => ifetch_pkt w
  | dcachePort => dcache_pkt w
  end.

Definition retryState (port : PortName) : Status :=
  match port with
  | icachePort => IcacheRetry
  | dcachePort => DcacheRetry
  end.

Definition waitState (port : PortName) : Status :=
  match port with
  | icachePort => IcacheWaitResponse
  | dcachePort => DcacheWaitResponse
  end.

Definition recvRetry (port : PortName) : CPU unit :=
  match port with
  | icachePort => IcachePort_recvRetry
  | dcachePort => DcachePort_recvRetry
  end.

Definition recvTiming (port : PortName) (fuel : nat) (pkt : PacketPtr) :
  CPU bool :=
  match port with
  | icachePort => IcachePort_recvTiming fuel pkt
  | dcachePort => DcachePort_recvTiming fuel pkt
  end.

Definition tickCallback (port : PortName) (pkt : PacketPtr) : Callback :=
  match port with
  | icachePort => CompleteIfetch pkt
  | dcachePort => CompleteDataAccess pkt
  end.

(** The thread state in which [fetch] sets up its request: interrupts
    are checked first unless the current instruction delays its
    commit. *)
Definition fetchThread (w : World) : Arch :=
  if match curStaticInst (thread w) with
     | None => true
     | Some i => negb (isDelayedCommit i)
     end
  then checkForInterrupts (thread w)
  else thread w.

End TimingSimpleCPU.

End TimingCPU.

(** ** The cache stage ([mem/cache/cache_impl.hh]) *)

Module CacheImpl.

Inductive CachePort : Type := cpuSidePort | memSidePort.

#[global] Instance CachePort_eq_dec : EqDecision CachePort.
Proof. solve_decision. Defined.

Abbreviation BlkPtr := nat.

(** A miss entry, as far as the cache reads it: [mshr->inService],
    [mshr->pkt] and [mshr->getTargetList()]. *)
Record MSHR : Type := mkMSHR {
  inService : bool;
  MSHR_pkt : option PacketPtr;
  getTargetList : list PacketPtr;
}.

(** The objects the cache and its collaborators share by pointer. *)
Record Store : Type := mkStore {
  heap : Heap;
  mshrs : gmap nat MSHR;
}.

(** The two overloads of [tags->handleFill] take a packet or a miss
    entry as the source of the fill. *)
Inductive FillSource : Type :=
| FromPacket (p : PacketPtr)
| FromMSHR (m : MSHRPtr).

(** What the cache stage does to the rest of the simulator, in the order
    in which it does it: its calls into the collaborators that change
    state, the diagnostics, and the marking of a packet as satisfied. *)
Inductive Event : Type :=
| EvPrefetch (pkt : PacketPtr)
| EvHandleAccess (pkt : PacketPtr) (update : bool)
| EvHandleFill (blk : option BlkPtr) (src : FillSource) (state : Z)
    (target : option PacketPtr)
| EvHandleSnoop (blk : option BlkPtr) (state : Z) (pkt : option PacketPtr)
| EvHandleBusRequest (pkt : PacketPtr) (blk : option BlkPtr)
    (mshr : option MSHRPtr)
| EvPropogateInvalidate (pkt : PacketPtr) (isTiming : bool)
| EvAddTarget (mshr : MSHRPtr) (pkt : PacketPtr)
| EvMarkInService (pkt : option PacketPtr) (mshr : MSHRPtr)
| EvDoWriteback (pkt : PacketPtr)
| EvHandleMiss (pkt : PacketPtr) (size : Z) (time : Z)
| EvHandleResponse (pkt : PacketPtr) (time : Z)
| EvRespond (pkt : PacketPtr) (time : Z)
| EvRespondToSnoop (pkt : PacketPtr) (time : Z)
| EvSendFunctional (port : CachePort) (pkt : PacketPtr)
| EvSendAtomic (port : CachePort) (pkt : PacketPtr)
| EvFixPacket (func : PacketPtr) (timing : PacketPtr)
| EvSatisfied (pkt : PacketPtr)
| EvWarn (msg : string)
| EvExitSimLoop (msg : string).

#[global] Instance FillSource_eq_dec : EqDecision FillSource.
Proof. solve_decision. Defined.

#[global] Instance Event_eq_dec : EqDecision Event.
Proof. solve_decision. Defined.

(** The template parameters of the cache, the prefetcher and the two
    ports with what is behind them.  None of their code is in
    [cache_impl.hh]; every operation is a parameter.  An operation that
    is handed a pointer may change the object behind it, so the
    operations that change state work on the shared [Store] too.
    [fixPacket func timing] is the free function of the packet code that
    patches the functional packet [func] from [timing]: a packet keeps
    its address and size for life, so the operation yields the new
    flags, result and data of [func]. *)
Class CacheEnv (TagStore Buffering Coherence Prefetcher Bus : Type) : Type := {
  BlkValid : Z;
  BlkWritable : Z;
  tags_findBlock : PacketPtr -> TagStore -> Store -> option BlkPtr;
  blk_status : BlkPtr -> TagStore -> Z;
  tags_handleAccess :
    PacketPtr -> bool -> TagStore * Store ->
    (option BlkPtr * Z * list PacketPtr) * (TagStore * Store);
  tags_handleFill :
    option BlkPtr -> FillSource -> Z -> list PacketPtr -> option PacketPtr ->
    TagStore * Store -> (option BlkPtr * list PacketPtr) * (TagStore * Store);
  tags_handleSnoop :
    option BlkPtr -> Z -> option PacketPtr ->
    TagStore * Store -> TagStore * Store;
  mq_findMSHR : Z -> Buffering -> Store -> option MSHRPtr;
  mq_findWrites : Z -> Buffering -> Store -> bool * list MSHRPtr;
  mq_addTarget :
    MSHRPtr -> PacketPtr -> Buffering * Store -> Buffering * Store;
  mq_markInService :
    option PacketPtr -> MSHRPtr -> Buffering * Store -> Buffering * Store;
  mq_doWriteback : PacketPtr -> Buffering * Store -> Buffering * Store;
  mq_handleMiss :
    PacketPtr -> Z -> Z -> Buffering * Store -> Buffering * Store;
  mq_handleResponse :
    PacketPtr -> Z -> Buffering * Store -> Buffering * Store;
  coh_propogateInvalidate :
    PacketPtr -> bool -> Coherence * Store -> Coherence * Store;
  coh_hasProtocol : Coherence -> bool;
  coh_allowFastWrites : Coherence -> bool;
  coh_getBusCmd : Packet.Command -> Z -> Coherence -> Packet.Command;
  coh_getNewState : PacketPtr -> Z -> Coherence -> Store -> Z;
  coh_handleBusRequest :
    PacketPtr -> option BlkPtr -> option MSHRPtr ->
    Coherence * TagStore * Store -> (bool * Z) * (Coherence * TagStore * Store);
  pf_handleMiss : PacketPtr -> Z -> Prefetcher * Store -> Prefetcher * Store;
  port_sendFunctional :
    CachePort -> PacketPtr -> Bus * Store -> Bus * Store;
  port_sendAtomic :
    CachePort -> PacketPtr -> Bus * Store -> Z * (Bus * Store);
  fixPacket : PacketObj -> PacketObj -> Z * Packet.Result * list Z;
  makeAtomicResponse : PacketObj -> PacketObj;
  cmdToIndex : PacketObj -> nat;
}.

Record Cache (TagStore Buffering Coherence Prefetcher Bus : Type) : Type :=
mkCache {
  tags : TagStore;
  missQueue : Buffering;
  coherence : Coherence;
  prefetcher : Prefetcher;
  bus : Bus;
  store : Store;
  blkSize : Z;
  hitLatency : Z;
  prefetchAccess : bool;
  invalidatePkt : PacketPtr;
  fastWrites : Z;
  hits : gmap nat Z;
  misses : gmap nat Z;
  missCount : Z;
  curTick : Z;
  trace : list Event;
}.

Arguments mkCache {TagStore Buffering Coherence Prefetcher Bus}.
Arguments tags {TagStore Buffering Coherence Prefetcher Bus}.
Arguments missQueue {TagStore Buffering Coherence Prefetcher Bus}.
Arguments coherence {TagStore Buffering Coherence Prefetcher Bus}.
Arguments prefetcher {TagStore Buffering Coherence Prefetcher Bus}.
Arguments bus {TagStore Buffering Coherence Prefetcher Bus}.
Arguments store {TagStore Buffering Coherence Prefetcher Bus}.
Arguments blkSize {TagStore Buffering Coherence Prefetcher Bus}.
Arguments hitLatency {TagStore Buffering Coherence Prefetcher Bus}.
Arguments prefetchAccess {TagStore Buffering Coherence Prefetcher Bus}.
Arguments invalidatePkt {TagStore Buffering Coherence Prefetcher Bus}.
Arguments fastWrites {TagStore Buffering Coherence Prefetcher Bus}.
Arguments hits {TagStore Buffering Coherence Prefetcher Bus}.
Arguments misses {TagStore Buffering Coherence Prefetcher Bus}.
Arguments missCount {TagStore Buffering Coherence Prefetcher Bus}.
Arguments curTick {TagStore Buffering Coherence Prefetcher Bus}.
Arguments trace {TagStore Buffering Coherence Prefetcher Bus}.

Section Cache.

Context `{PI : PacketIface} {TagStore Buffering Coherence Prefetcher Bus : Type}.
Context `{ENV : !CacheEnv TagStore Buffering Coherence Prefetcher Bus}.

#[local] Abbreviation Cache :=
  (Cache TagStore Buffering Coherence Prefetcher Bus).
#[local] Abbreviation CM := (M Cache).

Definition set_tags (x : TagStore) (c : Cache) : Cache :=
  mkCache x (missQueue c) (coherence c) (prefetcher c) (bus c) (store c)
    (blkSize c) (hitLatency c) (prefetchAccess c) (invalidatePkt c)
    (fastWrites c) (hits c) (misses c) (missCount c) (curTick c) (trace c).

Definition set_missQueue (x : Buffering) (c : Cache) : Cache :=
  mkCache (tags c) x (coherence c) (prefetcher c) (bus c) (store c)
    (blkSize c) (hitLatency c) (prefetchAccess c) (invalidatePkt c)
    (fastWrites c) (hits c) (misses c) (missCount c) (curTick c) (trace c).

Definition set_coherence (x : Coherence) (c : Cache) : Cache :=
  mkCache (tags c) (missQueue c) x (prefetcher c) (bus c) (store c)
    (blkSize c) (hitLatency c) (prefetchAccess c) (invalidatePkt c)
    (fastWrites c) (hits c) (misses c) (missCount c) (curTick c) (trace c).

Definition set_prefetcher (x : Prefetcher) (c : Cache) : Cache :=
  mkCache (tags c) (missQueue c) (coherence c) x (bus c) (store c)
    (blkSize c) (hitLatency c) (prefetchAccess c) (invalidatePkt c)
    (fastWrites c) (hits c) (misses c) (missCount c) (curTick c) (trace c).

Definition set_bus (x : Bus) (c : Cache) : Cache :=
  mkCache (tags c) (missQueue c) (coherence c) (prefetcher c) x (store c)
    (blkSize c) (hitLatency c) (prefetchAccess c) (invalidatePkt c)
    (fastWrites c) (hits c) (misses c) (missCount c) (curTick c) (trace c).

Definition set_store (x : Store) (c : Cache) : Cache :=
  mkCache (tags c) (missQueue c) (coherence c) (prefetcher c) (bus c) x
    (blkSize c) (hitLatency c) (prefetchAccess c) (invalidatePkt c)
    (fastWrites c) (hits c) (misses c) (missCount c) (curTick c) (trace c).

Definition set_fastWrites (x : Z) (c : Cache) : Cache :=
  mkCache (tags c) (missQueue c) (coherence c) (prefetcher c) (bus c) (store c)
    (blkSize c) (hitLatency c) (prefetchAccess c) (invalidatePkt c)
    x (hits c) (misses c) (missCount c) (curTick c) (trace c).

Definition set_hits (x : gmap nat Z) (c : Cache) : Cache :=
  mkCache (tags c) (missQueue c) (coherence c) (prefetcher c) (bus c) (store c)
    (blkSize c) (hitLatency c) (prefetchAccess c) (invalidatePkt c)
    (fastWrites c) x (misses c) (missCount c) (curTick c) (trace c).

Definition set_misses (x : gmap nat Z) (c : Cache) : Cache :=
  mkCache (tags c) (missQueue c) (coherence c) (prefetcher c) (bus c) (store c)
    (blkSize c) (hitLatency c) (prefetchAccess c) (invalidatePkt c)
    (fastWrites c) (hits c) x (missCount c) (curTick c) (trace c).

Definition set_missCount (x : Z) (c : Cache) : Cache :=
  mkCache (tags c) (missQueue c) (coherence c) (prefetcher c) (bus c) (store c)
    (blkSize c) (hitLatency c) (prefetchAccess c) (invalidatePkt c)
    (fastWrites c) (hits c) (misses c) x (curTick c) (trace c).

Definition set_trace (x : list Event) (c : Cache) : Cache :=
  mkCache (tags c) (missQueue c) (coherence c) (prefetcher c) (bus c) (store c)
    (blkSize c) (hitLatency c) (prefetchAccess c) (invalidatePkt c)
    (fastWrites c) (hits c) (misses c) (missCount c) (curTick c) x.

Definition emit (e : Event) : CM unit :=
  modify (fun c => set_trace (trace c ++ [e]) c).

(** [pkt->member]. *)
Definition load (p : PacketPtr) : CM PacketObj :=
  s ← gets store; deref (heap s !! p).

Definition putPacket (p : PacketPtr) (obj : PacketObj) (c : Cache) : Cache :=
  set_store (mkStore (<[p := obj]> (heap (store c))) (mshrs (store c))) c.

(** Change the packet a pointer names. *)
Definition update (p : PacketPtr) (f : PacketObj -> PacketObj) : CM unit :=
  obj ← load p; modify (putPacket p (f obj)).

(** [delete pkt]; deleting [NULL] does nothing. *)
Definition deletePacket (p : option PacketPtr) : CM unit :=
  match p with
  | Some q =>
    modify (fun c =>
      set_store (mkStore (delete q (heap (store c))) (mshrs (store c))) c)
  | None => mret tt
  end.

(** [new Packet(...)]. *)
Definition newPacket (obj : PacketObj) : CM PacketPtr :=
  fun c => let p := newAddr (heap (store c)) in Done p (putPacket p obj c).

(** [mshr->member]. *)
Definition loadMSHR (m : MSHRPtr) : CM MSHR :=
  s ← gets store; deref (mshrs s !! m).

Definition putMSHR (m : MSHRPtr) (x : MSHR) (c : Cache) : Cache :=
  set_store (mkStore (heap (store c)) (<[m := x]> (mshrs (store c)))) c.

(** [pkt->flags |= SATISFIED] in the cache stage. *)
Definition markSatisfied (p : PacketPtr) : CM unit :=
  emit (EvSatisfied p);;
  update p (orFlag SATISFIED).

Definition warn (msg : string) : CM unit := emit (EvWarn msg).

Definition respond (p : PacketPtr) (t : Z) : CM unit := emit (EvRespond p t).

Definition respondToSnoop (p : PacketPtr) (t : Z) : CM unit :=
  emit (EvRespondToSnoop p t).

(** [addr & ~(Addr(blkSize - 1))]. *)
Definition blkAlign (bs addr : Z) : Z := Z.land addr (Z.lnot (bs - 1)).

(** A [Tick] stored in an [int], as in [int lat; lat = sendAtomic(..)]:
    its low 32 bits, read as a signed number.  The sum
    [lat + hitLatency] that [probe] returns is taken as it is:
    [hitLatency] is declared outside the source files. *)
Definition toInt (t : Z) : Z := (t + 2 ^ 31) mod 2 ^ 32 - 2 ^ 31.

(** [hits[i][0]++] and [misses[i][0]++]. *)
Definition bump (i : nat) (m : gmap nat Z) : gmap nat Z :=
  <[i := default 0 (m !! i) + 1]> m.

(** *** Calls into the collaborators *)

Definition findBlock (p : PacketPtr) : CM (option BlkPtr) :=
  gets (fun c => tags_findBlock p (tags c) (store c)).

Definition handleAccess (p : PacketPtr) (upd : bool) :
  CM (option BlkPtr * Z * list PacketPtr) :=
  emit (EvHandleAccess p upd);;
  r ← gets (fun c => tags_handleAccess p upd (tags c, store c));
  modify (fun c => set_store r.2.2 (set_tags r.2.1 c));;
  mret r.1.

Definition handleFill (blk : option BlkPtr) (src : FillSource) (st : Z)
  (writebacks : list PacketPtr) (target : option PacketPtr) :
  CM (option BlkPtr * list PacketPtr) :=
  emit (EvHandleFill blk src st target);;
  r ← gets (fun c =>
         tags_handleFill blk src st writebacks target (tags c, store c));
  modify (fun c => set_store r.2.2 (set_tags r.2.1 c));;
  mret r.1.

Definition handleSnoop (blk : option BlkPtr) (st : Z)
  (p : option PacketPtr) : CM unit :=
  emit (EvHandleSnoop blk st p);;
  r ← gets (fun c => tags_handleSnoop blk st p (tags c, store c));
  modify (fun c => set_store r.2 (set_tags r.1 c)).

Definition findMSHR (a : Z) : CM (option MSHRPtr) :=
  gets (fun c => mq_findMSHR a (missQueue c) (store c)).

Definition findWrites (a : Z) : CM (bool * list MSHRPtr) :=
  gets (fun c => mq_findWrites a (missQueue c) (store c)).

Definition missQueueCall (e : Event)
  (f : Buffering * Store -> Buffering * Store) : CM unit :=
  emit e;;
  r ← gets (fun c => f (missQueue c, store c));
  modify (fun c => set_store r.2 (set_missQueue r.1 c)).

Definition addTarget (m : MSHRPtr) (p : PacketPtr) : CM unit :=
  missQueueCall (EvAddTarget m p) (mq_addTarget m p).

Definition markInService (p : option PacketPtr) (m : MSHRPtr) : CM unit :=
  missQueueCall (EvMarkInService p m) (mq_markInService p m).

Definition doWriteback (p : PacketPtr) : CM unit :=
  missQueueCall (EvDoWriteback p) (mq_doWriteback p).

Definition handleMiss (p : PacketPtr) (size t : Z) : CM unit :=
  missQueueCall (EvHandleMiss p size t) (mq_handleMiss p size t).

Definition missQueue_handleResponse (p : PacketPtr) (t : Z) : CM unit :=
  missQueueCall (EvHandleResponse p t) (mq_handleResponse p t).

Definition propogateInvalidate (p : PacketPtr) (isTiming : bool) : CM unit :=
  emit (EvPropogateInvalidate p isTiming);;
  r ← gets (fun c => coh_propogateInvalidate p isTiming (coherence c, store c));
  modify (fun c => set_store r.2 (set_coherence r.1 c)).

Definition handleBusRequest (p : PacketPtr) (blk : option BlkPtr)
  (mshr : option MSHRPtr) : CM (bool * Z) :=
  emit (EvHandleBusRequest p blk mshr);;
  r ← gets (fun c =>
         coh_handleBusRequest p blk mshr (coherence c, tags c, store c));
  modify (fun c =>
    set_store r.2.2 (set_tags r.2.1.2 (set_coherence r.2.1.1 c)));;
  mret r.1.

Definition prefetcher_handleMiss (p : PacketPtr) : CM unit :=
  emit (EvPrefetch p);;
  r ← gets (fun c => pf_handleMiss p (curTick c) (prefetcher c, store c));
  modify (fun c => set_store r.2 (set_prefetcher r.1 c)).

Definition sendFunctional (port : CachePort) (p : PacketPtr) : CM unit :=
  emit (EvSendFunctional port p);;
  r ← gets (fun c => port_sendFunctional port p (bus c, store c));
  modify (fun c => set_store r.2 (set_bus r.1 c)).

Definition sendAtomic (port : CachePort) (p : PacketPtr) : CM Z :=
  emit (EvSendAtomic port p);;
  r ← gets (fun c => port_sendAtomic port p (bus c, store c));
  modify (fun c => set_store r.2.2 (set_bus r.2.1 c));;
  mret r.1.

Definition fixed (fobj tobj : PacketObj) : PacketObj :=
  set_data (fixPacket fobj tobj).2
    (set_result (fixPacket fobj tobj).1.2
       (set_flags (fixPacket fobj tobj).1.1 fobj)).

Definition callFixPacket (func timing : PacketPtr) : CM unit :=
  emit (EvFixPacket func timing);;
  fobj ← load func;
  tobj ← load timing;
  modify (putPacket func (fixed fobj tobj)).


(** *** [Cache::access] *)

(** The second half of the body, from the loop over the writebacks on:
    the writebacks go to the miss queue, then the hit or the miss is
    accounted for and answered. *)
Definition accessFinish (pkt : PacketPtr) (blk : option BlkPtr)
  (lat size : Z) (writebacks : list PacketPtr) : CM bool :=
  forEach writebacks doWriteback;;
  obj ← load pkt;
  now ← gets curTick;
  hl ← gets hitLatency;
  match blk with
  | Some _ =>
    modify (fun c => set_hits (bump (cmdToIndex obj) (hits c)) c);;
    when (needsResponse obj) (respond pkt (now + lat));;
    when (bool_decide (cmd obj = Packet.Writeback)) (markSatisfied pkt);;
    mret true
  | None =>
    when (negb (isUncacheable (req obj)))
      (modify (fun c => set_misses (bump (cmdToIndex obj) (misses c)) c);;
       mc ← gets missCount;
       when (negb (mc =? 0))
         (modify (set_missCount (mc - 1));;
          when (mc - 1 =? 0)
            (emit (EvExitSimLoop "A cache reached the maximum miss count"))));;
    (if flagSet SATISFIED obj then
       when (needsResponse obj) (respond pkt (now + lat))
     else
       handleMiss pkt size (now + hl));;
    mret true
  end.

Definition access (pkt : PacketPtr) : CM bool :=
  bs ← gets blkSize;
  hl ← gets hitLatency;
  pa ← gets prefetchAccess;
  when pa (prefetcher_handleMiss pkt);;
  obj0 ← load pkt;
  '(blk0, lat, wbs0, size) ←
    (if negb (isUncacheable (req obj0)) then
       r ← handleAccess pkt true;
       mret (r.1.1, r.1.2, r.2, bs)
     else
       mret (None, hl, [], getSize obj0));
  obj1 ← load pkt;
  co ← gets coherence;
  if bool_decide (blk0 = None) && (bs <=? getSize obj1)
     && coh_allowFastWrites co
     && (bool_decide (cmd obj1 = Packet.WriteReq)
         || bool_decide (cmd obj1 = Packet.WriteInvalidateReq))
  then
    outstanding_miss ← findMSHR (getAddr obj1);
    if bool_decide (cmd obj1 = Packet.WriteInvalidateReq)
       || bool_decide (outstanding_miss = None)
    then
      when (negb (bool_decide (outstanding_miss = None)))
        (warn "WriteInv doing a fastallocatewith an outstanding miss to the same address");;
      r ← handleFill None (FromPacket pkt) (Z.lor BlkValid BlkWritable)
            wbs0 None;
      modify (fun c => set_fastWrites (fastWrites c + 1) c);;
      accessFinish pkt r.1 lat size r.2
    else accessFinish pkt blk0 lat size wbs0
  else accessFinish pkt blk0 lat size wbs0.

(** *** [Cache::handleResponse] *)

Definition handleResponse (pkt : PacketPtr) : CM unit :=
  obj0 ← load pkt;
  match senderState obj0 with
  | None => mret tt
  | Some m =>
    ms ← loadMSHR m;
    deletePacket (MSHR_pkt ms);;
    modify (putMSHR m (mkMSHR (inService ms) (Some pkt) (getTargetList ms)));;
    obj ← load pkt;
    if bool_decide (result obj = Packet.Nacked) then
      warn "NACKs from devices not connected to the same bus not implemented"
    else
      when (isCacheFill obj && negb (isNoAllocate obj))
        (blk ← findBlock pkt;
         ts ← gets tags;
         let old_state :=
           match blk with Some b => blk_status b ts | None => 0 end in
         new_state ← gets (fun c =>
                       coh_getNewState pkt old_state (coherence c) (store c));
         r ← handleFill blk (FromMSHR m) new_state [] (Some pkt);
         forEach r.2 doWriteback);;
      now ← gets curTick;
      hl ← gets hitLatency;
      missQueue_handleResponse pkt (now + hl)
  end.

(** *** [Cache::snoop] *)

(** Whether a block of the body ended in [return]. *)
Inductive Flow (A : Type) : Type :=
| Returned
| Fallthrough (a : A).

#[global] Arguments Returned {A}.
#[global] Arguments Fallthrough {A} a.

(** [memcpy(dst, src + offset, n)] on the two byte buffers. *)
Definition memcpy (dst src : list Z) (offset n : Z) : list Z :=
  take (Z.to_nat n) (drop (Z.to_nat offset) src) ++ drop (Z.to_nat n) dst.

(** The [for] loop of [snoop] over the matching writebacks; the local
    [mshr] is left at the last entry looked at when the loop runs out. *)
Fixpoint snoopWritebacks (pkt : PacketPtr) (writebacks : list MSHRPtr)
  (mshr : option MSHRPtr) : CM (Flow (option MSHRPtr)) :=
  match writebacks with
  | [] => mret (Fallthrough mshr)
  | m :: rest =>
    ms ← loadMSHR m;
    wp ← deref (MSHR_pkt ms);
    wobj ← load wp;
    if negb (isUncacheable (req wobj)) then
      obj ← load pkt;
      when (isRead obj)
        (assert (negb (flagSet SATISFIED obj)) "!(pkt->flags & SATISFIED)";;
         markSatisfied pkt;;
         update pkt (orFlag SHARED_LINE);;
         obj1 ← load pkt;
         assert (isRead obj1) "pkt->isRead()";;
         bs ← gets blkSize;
         let offset := Z.land (getAddr obj1) (bs - 1) in
         assert (offset <? bs) "offset < blkSize";;
         assert (getSize obj1 <=? bs) "pkt->getSize() <= blkSize";;
         assert (offset + getSize obj1 <=? bs)
           "offset + pkt->getSize() <=blkSize";;
         wobj1 ← load wp;
         update pkt
           (fun o => set_data
                       (memcpy (getPtr o) (getPtr wobj1) offset (getSize o)) o);;
         now ← gets curTick;
         hl ← gets hitLatency;
         respondToSnoop pkt (now + hl));;
      obj2 ← load pkt;
      when (isInvalidate obj2) (markInService (MSHR_pkt ms) m);;
      mret Returned
    else
      snoopWritebacks pkt rest (Some m)
  end.

Definition snoop (pkt : PacketPtr) : CM unit :=
  obj0 ← load pkt;
  if isUncacheable (req obj0) then mret tt
  else
    propogateInvalidate pkt true;;
    obj ← load pkt;
    bs ← gets blkSize;
    let blk_addr := blkAlign bs (getAddr obj) in
    blk ← findBlock pkt;
    mshr ← findMSHR blk_addr;
    co ← gets coherence;
    flow ←
      (if coh_hasProtocol co || isInvalidate obj then
         inner ←
           match mshr with
           | Some m =>
             ms ← loadMSHR m;
             if inService ms then
               mp ← deref (MSHR_pkt ms);
               mobj ← load mp;
               if (isInvalidate mobj || negb (isCacheFill mobj))
                  && (negb (bool_decide (cmd obj = Packet.InvalidateReq))
                      && negb (bool_decide
                                 (cmd obj = Packet.WriteInvalidateReq)))
               then
                 assert (negb (flagSet SATISFIED obj))
                   "!(pkt->flags & SATISFIED)";;
                 markSatisfied pkt;;
                 update pkt (orFlag NACKED_LINE);;
                 mret Returned
               else
                 ip ← gets invalidatePkt;
                 update ip (addrOverride (getAddr obj));;
                 addTarget m ip;;
                 mret Returned
             else mret (Fallthrough tt)
           | None => mret (Fallthrough tt)
           end;
         match inner with
         | Returned => mret Returned
         | Fallthrough _ =>
           found ← findWrites blk_addr;
           if (found.1 : bool) then snoopWritebacks pkt found.2 mshr
           else mret (Fallthrough mshr)
         end
       else mret (Fallthrough mshr));
    match flow with
    | Returned => mret tt
    | Fallthrough mshr' =>
      r ← handleBusRequest pkt blk mshr';
      let satisfy := (r.1 : bool) in
      let new_state := (r.2 : Z) in
      if satisfy then
        handleSnoop blk new_state (Some pkt);;
        now ← gets curTick;
        hl ← gets hitLatency;
        respondToSnoop pkt (now + hl)
      else
        handleSnoop blk new_state None
    end.

(** The last block of [snoop] on its own: the coherence policy decides
    on the bus request, and the tag store is told, with the packet when
    this cache supplies the data. *)
Definition snoopBusRequest (pkt : PacketPtr) (blk : option BlkPtr)
  (mshr : option MSHRPtr) : CM unit :=
  r ← handleBusRequest pkt blk mshr;
  let satisfy := (r.1 : bool) in
  let new_state := (r.2 : Z) in
  if satisfy then
    handleSnoop blk new_state (Some pkt);;
    now ← gets curTick;
    hl ← gets hitLatency;
    respondToSnoop pkt (now + hl)
  else
    handleSnoop blk new_state None.

(** How many times a stretch of the journal marks a packet satisfied. *)
Definition isSatisfiedEv (e : Event) : bool :=
  match e with
  | EvSatisfied _ => true
  | _ => false
  end.

Definition satisfiedCount (ev : list Event) : nat :=
  length (List.filter isSatisfiedEv ev).

(** *** [Cache::snoopResponse] *)

Definition snoopResponse (pkt : PacketPtr) : CM unit :=
  obj ← load pkt;
  when (flagSet NACKED_LINE obj) (assert false "0").

(** *** [Cache::probe] *)

(** The body of the loop over the targets of the matching miss entry:
    a target that overlaps the probed packet patches it. *)
Definition fixFromTarget (pkt target : PacketPtr) : CM unit :=
  tobj ← load target;
  pobj ← load pkt;
  when (intersect tobj pobj) (callFixPacket pkt target).

(** The body of the loop over the matching writebacks. *)
Definition fixFromWrite (pkt : PacketPtr) (w : MSHRPtr) : CM unit :=
  ws ← loadMSHR w;
  write ← deref (MSHR_pkt ws);
  wobj ← load write;
  pobj ← load pkt;
  when (intersect wobj pobj) (callFixPacket pkt write).

Definition probe (pkt : PacketPtr) (upd : bool)
  (otherSidePort : option CachePort) : CM Z :=
  obj0 ← load pkt;
  if negb (isUncacheable (req obj0))
     && (isInvalidate obj0 && negb (isRead obj0) && negb (isWrite obj0))
  then
    markSatisfied pkt;;
    mret 0
  else
    answered ←
      (if negb upd
          && (isWrite obj0 || bool_decide (otherSidePort = Some cpuSidePort))
       then
         port ← deref otherSidePort;
         sendFunctional port pkt;;
         obj ← load pkt;
         mret (isRead obj && bool_decide (result obj = Packet.Success))
       else mret false);
    if (answered : bool) then mret 0
    else
      r ← handleAccess pkt upd;
      let blk := r.1.1 in
      let writebacks := r.2 in
      obj1 ← load pkt;
      bs ← gets blkSize;
      hl ← gets hitLatency;
      let blk_addr := blkAlign bs (getAddr obj1) in
      mshr ← findMSHR blk_addr;
      found ← findWrites blk_addr;
      let writes := found.2 in
      if negb upd then
        match mshr with
        | Some m =>
          ms ← loadMSHR m;
          forEach (getTargetList ms) (fixFromTarget pkt)
        | None => mret tt
        end;;
        forEach writes (fixFromWrite pkt);;
        obj2 ← load pkt;
        when (isRead obj2
              && negb (bool_decide (result obj2 = Packet.Success))
              && bool_decide (otherSidePort = Some memSidePort))
          (sendFunctional memSidePort pkt;;
           obj3 ← load pkt;
           assert (bool_decide (result obj3 = Packet.Success))
             "pkt->result == Packet::Success");;
        mret 0
      else if bool_decide (blk = None) && negb (flagSet SATISFIED obj1) then
        (if negb (bool_decide (mshr = None))
            || negb (bool_decide (writes = []))
         then abort (Panic "Atomic access ran into outstanding MSHR's or WB's!")
         else mret tt);;
        if negb (isUncacheable (req obj1)) then
          blk' ← findBlock pkt;
          ts ← gets tags;
          co ← gets coherence;
          let old_state :=
            match blk' with Some b => blk_status b ts | None => 0 end in
          let temp_cmd := coh_getBusCmd (cmd obj1) old_state co in
          now ← gets curTick;
          busPkt ← newPacket
                     (mkPacket temp_cmd (req obj1) (Packet.ToPort (-1))
                        (blkAlign bs (getVaddr (req obj1))) bs 0
                        Packet.Unknown (replicate (Z.to_nat bs) 0) None now);
          answer ← sendAtomic memSidePort busPkt;
          let lat := toInt answer in
          bobj ← load busPkt;
          when (needsResponse bobj) (update busPkt makeAtomicResponse);;
          obj4 ← load pkt;
          modify (fun c => set_misses (bump (cmdToIndex obj4) (misses c)) c);;
          new_state ← gets (fun c =>
                        coh_getNewState busPkt old_state (coherence c)
                          (store c));
          f ← handleFill blk' (FromPacket busPkt) new_state writebacks
                (Some pkt);
          deletePacket (Some busPkt);;
          forEach f.2 (fun wbPkt =>
            sendAtomic memSidePort wbPkt;;
            deletePacket (Some wbPkt));;
          mret (lat + hl)
        else
          sendAtomic memSidePort pkt
      else
        when (negb (bool_decide (blk = None)))
          (forEach writebacks (fun wb => sendAtomic memSidePort wb;; mret tt);;
           obj5 ← load pkt;
           modify (fun c => set_hits (bump (cmdToIndex obj5) (hits c)) c));;
        mret hl.







(** Modelled from the spec: what [fixPacket(func, timing)], whose code
    is not under src/, does to the data of a read.  The spec has a
    functional access fix up in place the bytes that overlap a pending
    write, so that a read observes the most recent write: the byte of
    [func] at an address in the range of [timing] becomes the byte of
    [timing] at that address, the other bytes stay. *)
Definition fixedData (func timing : PacketObj) : list Z :=
  imap (fun i b =>
          let a := getAddr func + Z.of_nat i in
          if (getAddr timing <=? a) && (a <? getAddr timing + getSize timing)
          then default b (getPtr timing !! Z.to_nat (a - getAddr timing))
          else b)
    (getPtr func).








(** *** [Cache::doTimingAccess] and [Cache::doFunctionalAccess] *)

Definition doTimingAccess (pkt : PacketPtr) (isCpuSide : bool) : CM bool :=
  (if isCpuSide then
     obj ← load pkt;
     when (isWrite obj && isLocked (req obj))
       (update pkt (fun o => set_req (setScResult 1 (req o)) o));;
     access pkt;;
     mret tt
   else
     obj ← load pkt;
     if isResponse obj then handleResponse pkt
     else when (flagSet SNOOP_COMMIT obj) (snoop pkt));;
  mret true.

Definition doFunctionalAccess (pkt : PacketPtr) (isCpuSide : bool) : CM unit :=
  if isCpuSide then
    update pkt (fun o => set_req (setThreadContext 0 0 (req o)) o);;
    probe pkt false (Some memSidePort);;
    update pkt (set_result Packet.Success)
  else
    probe pkt false (Some cpuSidePort);;
    mret tt.

End Cache.

End CacheImpl.

(** ** A concrete instance of the interfaces

    Small instances of the collaborator interfaces, on which the model
    runs by computation.  The flag masks and the command attributes
    follow the usual layout of the packet header: one bit per flag, the
    attributes a function of the command.  A request keeps the result
    of its store conditional in its flags, from bit 8 up. *)

Module Sample.

Import Packet.

Definition sampleIface : PacketIface := {|
  isRead p :=
    match cmd p with
    | ReadReq | HardPFReq | OtherCmd 1 => true
    | _ => false
    end;
  isWrite p :=
    match cmd p with
    | WriteReq | Writeback | WriteInvalidateReq | OtherCmd 2 => true
    | _ => false
    end;
  isInvalidate p :=
    match cmd p with
    | InvalidateReq | WriteInvalidateReq | UpgradeReq => true
    | _ => false
    end;
  isResponse p := match cmd p with OtherCmd _ => true | _ => false end;
  needsResponse p :=
    match cmd p with
    | ReadReq | WriteReq | HardPFReq | WriteInvalidateReq | OtherCmd _ => true
    | _ => false
    end;
  isCacheFill p := Z.testbit (flags p) 3;
  isNoAllocate p := Z.testbit (flags p) 5;
  intersect a b :=
    negb ((getAddr b + getSize b - 1 <? getAddr a)
          || (getAddr a + getSize a - 1 <? getAddr b));
  isUncacheable r := Z.testbit (req_flags r) 0;
  isLocked r := Z.testbit (req_flags r) 1;
  setThreadContext cpu_num thread_num r :=
    mkRequest (req_asid r) (getVaddr r) (req_size r) (req_flags r) (req_pc r)
      cpu_num thread_num (getTime r);
  setScResult v r :=
    mkRequest (req_asid r) (getVaddr r) (req_size r)
      (Z.lor (req_flags r) (Z.shiftl v 8)) (req_pc r) (req_cpu r)
      (req_thread r) (getTime r);
  SATISFIED := 2;
  NACKED_LINE := 1;
  SHARED_LINE := 4;
  SNOOP_COMMIT := 64;
|}.

(** *** A CPU: a program counter, the decoded instruction, and a memory
    behind the ports that follows a script of answers. *)

Inductive SampleInst : Type :=
| Nop
| LoadWord (addr : Z)
| StoreWord (addr : Z) (data : list Z).

Record SampleArch : Type := mkArch {
  pc : Z;
  cur : option SampleInst;
}.

Definition sampleDecode (a : Z) : SampleInst :=
  if a =? 8 then LoadWord 64
  else if a =? 12 then StoreWord 72 [1; 2; 3; 4]
  else Nop.

(** Negative addresses do not translate. *)
Definition sampleTranslate (r : Request) (a : SampleArch) :
  Fault * Request * SampleArch :=
  (if getVaddr r <? 0 then FaultCode 1 else NoFault, r, a).

Definition sampleCpuEnv : TimingCPU.CpuEnv SampleArch := {|
  TimingCPU.Inst := SampleInst;
  TimingCPU.readPC := pc;
  TimingCPU.traceSetAddr _ a := a;
  TimingCPU.translateDataReadReq := sampleTranslate;
  TimingCPU.translateDataWriteReq := sampleTranslate;
  TimingCPU.handleLockedWrite r a := (true, r, a);
  TimingCPU.handleLockedRead _ a := a;
  TimingCPU.curStaticInst := cur;
  TimingCPU.isDelayedCommit _ := false;
  TimingCPU.isMemRef i := match i with Nop => false | _ => true end;
  TimingCPU.isDataPrefetch _ := false;
  TimingCPU.checkForInterrupts a := a;
  TimingCPU.setupFetchRequest r a :=
    (if pc a <? 0 then FaultCode 2 else NoFault,
     mkRequest (req_asid r) (pc a) 4 (req_flags r) (pc a) (req_cpu r)
       (req_thread r) (getTime r),
     a);
  TimingCPU.advancePC f a :=
    match f with
    | NoFault => mkArch (pc a + 4) (cur a)
    | FaultCode _ => mkArch 256 (cur a)
    end;
  TimingCPU.preExecute a := mkArch (pc a) (Some (sampleDecode (pc a)));
  TimingCPU.postExecute a := a;
  TimingCPU.initiateAcc i a :=
    (match i with
     | LoadWord x => TimingCPU.AccRead x 4 0
     | StoreWord x d => TimingCPU.AccWrite d x 4 0
     | Nop => TimingCPU.AccNone NoFault
     end, a);
  TimingCPU.completeAcc _ _ a := (NoFault, a);
  TimingCPU.execute _ a := (NoFault, a);
  TimingCPU.nextCycle t := t;
|}.

(** The peer answers from a script: one entry per offer, [true] once
    the script is used up. *)
Definition sampleLink : TimingCPU.Link (list bool) := {|
  TimingCPU.peer_recvTiming _ _ s :=
    match s.1 with
    | [] => (true, ([], s.2))
    | b :: rest => (b, (rest, s.2))
    end;
|}.

Definition sampleReq (addr rflags : Z) : Request :=
  mkRequest 0 addr 4 rflags 0 0 0 0.

Definition samplePkt (c : Command) (addr size rflags pflags : Z)
  (r : Result) : PacketObj :=
  mkPacket c (sampleReq addr rflags) Broadcast addr size pflags r
    (replicate (Z.to_nat size) 0) None 0.

(** A CPU in state [st] holding [ip] and [dp], in front of a peer with
    the script [answers]; packets 0 and 1 are live: 0 is a read request,
    1 is a successful read response. *)
Definition sampleWorld (st : TimingCPU.Status) (ip dp : option PacketPtr)
  (state : TimingCPU.SimObject.State) (a : SampleArch) (answers : list bool) :
  TimingCPU.World SampleArch (list bool) :=
  TimingCPU.mkWorld st ip dp None 0 0 0 state a 10
    (<[1%nat := samplePkt (OtherCmd 1) 64 4 0 0 Success]>
       (<[0%nat := samplePkt ReadReq 64 4 0 0 Unknown]> ∅))
    answers [] [] [] [].

End Sample.

(** *** A cache: a list of present block addresses, two lists of miss
    entries (misses and pending writebacks), a coherence policy that is
    two switches, an upper level that answers functional accesses
    with a fixed result, and with its own bytes (all 7) when the result
    is [Success], and a memory side that answers atomic accesses after
    [memLatency] ticks. *)

Module SampleCache.

Import Packet CacheImpl.

Definition lineOf (s : Store) (p : option PacketPtr) : option Z :=
  o ← p; obj ← heap s !! o; Some (blkAlign 64 (getAddr obj)).

Definition entryFor (a : Z) (s : Store) (m : MSHRPtr) : bool :=
  bool_decide ((ms ← mshrs s !! m; lineOf s (MSHR_pkt ms)) = Some a).

Definition indexOf (a : Z) (l : list Z) : option nat :=
  fst <$> list_find (fun x => x = a) l.

Record Policy : Type := mkPolicy {
  hasProtocol : bool;
  allowFastWrites : bool;
}.

Definition sampleEnvAt (memLatency : Z) :
  CacheEnv (list Z) (list MSHRPtr * list MSHRPtr) Policy unit Result := {|
  BlkValid := 1;
  BlkWritable := 2;
  tags_findBlock p t s := a ← lineOf s (Some p); indexOf a t;
  blk_status _ _ := 1;
  tags_handleAccess p _ x :=
    ((a ← lineOf x.2 (Some p); indexOf a x.1, 1, []), x);
  tags_handleFill _ src _ wbs _ x :=
    ((Some (length x.1), wbs),
     (x.1 ++ [default 0 (lineOf x.2
                           match src with
                           | FromPacket p => Some p
                           | FromMSHR m => ms ← mshrs x.2 !! m; MSHR_pkt ms
                           end)],
      x.2));
  tags_handleSnoop _ _ _ x := x;
  mq_findMSHR a b s := head (filter (fun m => entryFor a s m = true) b.1);
  mq_findWrites a b s :=
    (negb (bool_decide (filter (fun m => entryFor a s m = true) b.2 = [])),
     filter (fun m => entryFor a s m = true) b.2);
  mq_addTarget m p x :=
    (x.1,
     mkStore (heap x.2)
       (alter (fun ms =>
                 mkMSHR (inService ms) (MSHR_pkt ms) (getTargetList ms ++ [p]))
          m (mshrs x.2)));
  mq_markInService _ m x :=
    (x.1,
     mkStore (heap x.2)
       (alter (fun ms => mkMSHR true (MSHR_pkt ms) (getTargetList ms))
          m (mshrs x.2)));
  mq_doWriteback _ x := x;
  mq_handleMiss _ _ _ x := x;
  mq_handleResponse _ _ x := x;
  coh_propogateInvalidate _ _ x := x;
  coh_hasProtocol := hasProtocol;
  coh_allowFastWrites := allowFastWrites;
  coh_getBusCmd c _ _ := c;
  coh_getNewState _ _ _ _ := 1;
  coh_handleBusRequest _ _ _ x := ((false, 0), x);
  pf_handleMiss _ _ x := x;
  port_sendFunctional _ p x :=
    (x.1,
     mkStore
       (alter (fun o =>
                 set_result x.1
                   (if bool_decide (x.1 = Success)
                    then set_data (replicate (Z.to_nat (getSize o)) 7) o
                    else o))
          p (heap x.2))
       (mshrs x.2));
  port_sendAtomic _ _ x := (memLatency, x);
  fixPacket f t := (Z.lor (flags f) 2, Success, fixedData f t);
  makeAtomicResponse o := o;
  cmdToIndex _ := 0%nat;
|}.

(** The memory side answers atomic accesses at once. *)
Definition sampleEnv := sampleEnvAt 0.

(** Packets: 0 is the cache's own invalidate packet, 1 a writeback in
    flight for line 64, 2 a read fill in flight for line 128, 3 a
    pending write to 128..131 waiting on that fill, 4 a dirty writeback
    for line 192; 5 to 14 are packets arriving at the cache: 9 and 10
    are nacked responses, without and with the token of miss entry 1;
    11 carries the NackedLine flag; 12 and 13 are reads that are already
    marked satisfied; 14 is a read of the line being written back. *)
Definition sampleHeap : Heap :=
  list_to_map
    [(0%nat, Sample.samplePkt InvalidateReq 0 64 0 0 Unknown);
     (1%nat, Sample.samplePkt Writeback 64 64 0 0 Unknown);
     (2%nat, Sample.samplePkt ReadReq 128 64 0 8 Unknown);
     (3%nat, set_data [11; 12; 13; 14]
               (Sample.samplePkt WriteReq 128 4 0 0 Unknown));
     (4%nat, Sample.samplePkt Writeback 192 64 0 0 Unknown);
     (5%nat, Sample.samplePkt ReadReq 64 4 0 0 Unknown);
     (6%nat, Sample.samplePkt InvalidateReq 128 64 0 0 Unknown);
     (7%nat, Sample.samplePkt WriteInvalidateReq 64 64 0 0 Unknown);
     (8%nat, Sample.samplePkt ReadReq 128 4 0 0 Unknown);
     (9%nat, Sample.samplePkt (OtherCmd 1) 128 64 0 8 Nacked);
     (10%nat, set_senderState (Some 1%nat)
                (Sample.samplePkt (OtherCmd 1) 128 64 0 8 Nacked));
     (11%nat, Sample.samplePkt ReadReq 64 4 0 3 Unknown);
     (12%nat, Sample.samplePkt ReadReq 64 4 0 2 Unknown);
     (13%nat, Sample.samplePkt ReadReq 192 4 0 2 Unknown);
     (14%nat, Sample.samplePkt ReadReq 192 4 0 0 Unknown)].

(** Miss entries: 0 is the writeback of line 64, in service; 1 is the
    fill of line 128, in service, with the write 3 as a target; 2 is the
    pending writeback of line 192. *)
Definition sampleMSHRs : gmap nat MSHR :=
  list_to_map
    [(0%nat, mkMSHR true (Some 1%nat) []);
     (1%nat, mkMSHR true (Some 2%nat) [3%nat]);
     (2%nat, mkMSHR false (Some 4%nat) [])].

Definition sampleCache (pol : Policy) (upper : Result) :
  Cache (list Z) (list MSHRPtr * list MSHRPtr) Policy unit Result :=
  mkCache [] ([0%nat; 1%nat], [2%nat]) pol tt upper
    (mkStore sampleHeap sampleMSHRs)
    64 1 false 0%nat 0 ∅ ∅ 0 10 [].

(** The cache with a protocol that allows fast writes, and the cache
    with no protocol. *)
Definition withProtocol := sampleCache (mkPolicy true true) Unknown.

Definition noProtocol := sampleCache (mkPolicy false false) Unknown.

End SampleCache.

(** ** What a run ensures

    [ensures m w Q E]: the run of [m] from the world [w] satisfies [Q]
    on its result and final world when it returns, and [E] on the world
    it stops in when it stops.  [keeps I m]: every run of [m] that
    starts in [I] stays in [I], however it ends. *)


Definition ensures {W A : Type} (m : M W A) (w : W)
  (Q : A -> W -> Prop) (E : W -> Prop) : Prop :=
  match m w with
  | Done a w' => Q a w'
  | Abort _ w' => E w'
  end.

Definition keeps {W A : Type} (I : W -> Prop) (m : M W A) : Prop :=
  forall w, I w -> ensures m w (fun _ w' => I w') I.

(** [yields P m]: every result that [m] returns satisfies [P]. *)
Definition yields {W A : Type} (P : A -> Prop) (m : M W A) : Prop :=
  forall w, ensures m w (fun a _ => P a) (fun _ => True).

(** [n] calls of [m] in a row, with their results in order. *)
Fixpoint callN {W A : Type} (n : nat) (m : M W A) : M W (list A) :=
  match n with
  | O => mret []
  | S k => a ← m; rest ← callN k m; mret (a :: rest)
  end.

(** ** The system object ([sim/system.hh])

    The member functions that the header defines inline.  The symbol
    table, the ISA switch and the overrides of the virtual
    [fixFuncEventAddr] are outside the header: they are the operations
    of [SystemEnv]. *)

Module System.

(** [Enums::MemoryMode]: the header names three of its values and
    sizes [MemoryModeStrings] for four. *)
Inductive MemoryMode : Type := invalid | atomic | timing | atomic_noncaching.

#[global] Instance MemoryMode_eq_dec : EqDecision MemoryMode.
Proof. solve_decision. Defined.

(** A value stored in a [uint64_t]. *)
Definition uint64 (z : Z) : Z := z mod 2 ^ 64.

(** A value stored in an [int]. *)
Definition int32 (z : Z) : Z := (z + 2 ^ 31) mod 2 ^ 32 - 2 ^ 31.

(** The event that [addFuncEvent] builds: [new T(&pcEventQueue, desc,
    addr, args...)], as far as the header fixes it. *)
Record FuncEvent : Type := mkFuncEvent {
  description : string;
  evAddr : Z;
}.

Record SystemState (SymbolTable : Type) : Type := mkSystem {
  memoryMode : MemoryMode;
  _cacheLineSize : Z;
  threadContexts : list nat;
  _numContexts : Z;
  nextPID : Z;
  workItemsBegin : Z;
  workItemsEnd : Z;
  activeCpus : list bool;
  lastWorkItemStarted : gmap (Z * Z) Z;
  kernelSymtab : SymbolTable;
  (* the events built so far; a pointer to one is its position *)
  pcEvents : list FuncEvent;
  curTick : Z;
}.

Arguments mkSystem {SymbolTable}.
Arguments memoryMode {SymbolTable}.
Arguments _cacheLineSize {SymbolTable}.
Arguments threadContexts {SymbolTable}.
Arguments _numContexts {SymbolTable}.
Arguments nextPID {SymbolTable}.
Arguments workItemsBegin {SymbolTable}.
Arguments workItemsEnd {SymbolTable}.
Arguments activeCpus {SymbolTable}.
Arguments lastWorkItemStarted {SymbolTable}.
Arguments kernelSymtab {SymbolTable}.
Arguments pcEvents {SymbolTable}.
Arguments curTick {SymbolTable}.

Class SystemEnv (SymbolTable : Type) : Type := {
  (* [THE_ISA == NULL_ISA] *)
  NULL_ISA : bool;
  (* [symtab->findAddress(lbl, addr)]: the address, if the label is known *)
  findAddress : SymbolTable -> string -> option Z;
  (* the override of [fixFuncEventAddr] in the class of the object, if
     it has one *)
  fixFuncEventAddr_override :
    option (Z -> M (SystemState SymbolTable) Z);
}.

Section System.

Context {SymbolTable : Type} `{SE : !SystemEnv SymbolTable}.

#[local] Abbreviation Sys := (SystemState SymbolTable).

Definition set_nextPID (x : Z) (s : Sys) : Sys :=
  mkSystem (memoryMode s) (_cacheLineSize s) (threadContexts s)
    (_numContexts s) x (workItemsBegin s) (workItemsEnd s) (activeCpus s)
    (lastWorkItemStarted s) (kernelSymtab s) (pcEvents s) (curTick s).

Definition set_workItemsBegin (x : Z) (s : Sys) : Sys :=
  mkSystem (memoryMode s) (_cacheLineSize s) (threadContexts s)
    (_numContexts s) (nextPID s) x (workItemsEnd s) (activeCpus s)
    (lastWorkItemStarted s) (kernelSymtab s) (pcEvents s) (curTick s).

Definition set_workItemsEnd (x : Z) (s : Sys) : Sys :=
  mkSystem (memoryMode s) (_cacheLineSize s) (threadContexts s)
    (_numContexts s) (nextPID s) (workItemsBegin s) x (activeCpus s)
    (lastWorkItemStarted s) (kernelSymtab s) (pcEvents s) (curTick s).

Definition set_activeCpus (x : list bool) (s : Sys) : Sys :=
  mkSystem (memoryMode s) (_cacheLineSize s) (threadContexts s)
    (_numContexts s) (nextPID s) (workItemsBegin s) (workItemsEnd s) x
    (lastWorkItemStarted s) (kernelSymtab s) (pcEvents s) (curTick s).

Definition set_lastWorkItemStarted (x : gmap (Z * Z) Z) (s : Sys) : Sys :=
  mkSystem (memoryMode s) (_cacheLineSize s) (threadContexts s)
    (_numContexts s) (nextPID s) (workItemsBegin s) (workItemsEnd s)
    (activeCpus s) x (kernelSymtab s) (pcEvents s) (curTick s).

Definition set_pcEvents (x : list FuncEvent) (s : Sys) : Sys :=
  mkSystem (memoryMode s) (_cacheLineSize s) (threadContexts s)
    (_numContexts s) (nextPID s) (workItemsBegin s) (workItemsEnd s)
    (activeCpus s) (lastWorkItemStarted s) (kernelSymtab s) x (curTick s).

(** [System::isAtomicMode]. *)
Definition isAtomicMode (s : Sys) : bool :=
  bool_decide (memoryMode s = atomic)
  || bool_decide (memoryMode s = atomic_noncaching).

(** [System::isTimingMode]. *)
Definition isTimingMode (s : Sys) : bool :=
  bool_decide (memoryMode s = timing).

(** [System::bypassCaches]. *)
Definition bypassCaches (s : Sys) : bool :=
  bool_decide (memoryMode s = atomic_noncaching).

(** [System::numContexts]. *)
Definition numContexts : M Sys Z :=
  n ← gets _numContexts;
  tcs ← gets threadContexts;
  assert (n =? int32 (Z.of_nat (length tcs)))
    "_numContexts == (int)threadContexts.size()";;
  mret n.

(** [System::allocatePID]: [return nextPID++]. *)
Definition allocatePID : M Sys Z :=
  pid ← gets nextPID;
  modify (set_nextPID (uint64 (pid + 1)));;
  mret pid.

(** [System::incWorkItemsBegin]: [return ++workItemsBegin]. *)
Definition incWorkItemsBegin : M Sys Z :=
  n ← gets workItemsBegin;
  modify (set_workItemsBegin (uint64 (n + 1)));;
  gets workItemsBegin.

(** [System::incWorkItemsEnd]: [return ++workItemsEnd]. *)
Definition incWorkItemsEnd : M Sys Z :=
  n ← gets workItemsEnd;
  modify (set_workItemsEnd (uint64 (n + 1)));;
  gets workItemsEnd.

(** The loop of [markWorkItem]: [count++] for every entry of the
    vector that is set. *)
Definition countActive (cpus : list bool) : Z :=
  fold_left (fun count b => if b : bool then int32 (count + 1) else count)
    cpus 0.

(** [System::markWorkItem].  The [int] index is compared with, and
    used as, a [size_t]. *)
Definition markWorkItem (index : Z) : M Sys Z :=
  cpus ← gets activeCpus;
  assert (uint64 index <? Z.of_nat (length cpus))
    "index < activeCpus.size()";;
  modify (set_activeCpus (<[Z.to_nat (uint64 index) := true]> cpus));;
  cpus' ← gets activeCpus;
  mret (countActive cpus').

(** [System::workItemBegin]. *)
Definition workItemBegin (tid workid : Z) : M Sys unit :=
  now ← gets curTick;
  modify (fun s =>
    set_lastWorkItemStarted (<[(tid, workid) := now]> (lastWorkItemStarted s))
      s).

(** The virtual [System::fixFuncEventAddr]: the base class panics. *)
Definition fixFuncEventAddr (addr : Z) : M Sys Z :=
  match fixFuncEventAddr_override with
  | Some f => f addr
  | None => abort (Panic "Base fixFuncEventAddr not implemented.")
  end.

(** [System::addFuncEvent<T>(symtab, lbl, desc, args...)]; the result
    is the new event, or [None] for [NULL]. *)
Definition addFuncEvent (symtab : SymbolTable) (lbl desc : string) :
  M Sys (option nat) :=
  if negb NULL_ISA then
    match findAddress symtab lbl with
    | Some addr =>
      fixed ← fixFuncEventAddr addr;
      evs ← gets pcEvents;
      modify (set_pcEvents (evs ++ [mkFuncEvent desc fixed]));;
      mret (Some (length evs))
    | None => mret None
    end
  else mret None.

(** [System::addFuncEvent<T>(symtab, lbl)]. *)
Definition addFuncEvent_lbl (symtab : SymbolTable) (lbl : string) :
  M Sys (option nat) :=
  addFuncEvent symtab lbl lbl.

(** A call [addFuncEvent<T>(symtab, lbl, args...)] picks the overload
    by its arguments: the first of [args], if there is one, is the
    description. *)
Definition addFuncEvent_args (symtab : SymbolTable) (lbl : string)
  (args : list string) : M Sys (option nat) :=
  match args with
  | [] => addFuncEvent_lbl symtab lbl
  | desc :: _ => addFuncEvent symtab lbl desc
  end.

(** [System::addFuncEventOrPanic]. *)
Definition addFuncEventOrPanic (symtab : SymbolTable) (lbl : string)
  (args : list string) : M Sys (option nat) :=
  e ← addFuncEvent_args symtab lbl args;
  (if bool_decide (e = None)
   then abort (Panic ("Failed to find symbol '" ++ lbl ++ "'"))
   else mret tt);;
  mret e.

(** [System::addKernelFuncEvent]. *)
Definition addKernelFuncEvent (lbl : string) (args : list string) :
  M Sys (option nat) :=
  symtab ← gets kernelSymtab;
  addFuncEvent_args symtab lbl args.

(** [System::addKernelFuncEventOrPanic]. *)
Definition addKernelFuncEventOrPanic (lbl : string) (args : list string) :
  M Sys (option nat) :=
  symtab ← gets kernelSymtab;
  e ← addFuncEvent_args symtab lbl args;
  (if bool_decide (e = None)
   then abort (Panic ("Failed to find kernel symbol '" ++ lbl ++ "'"))
   else mret tt);;
  mret e.

(** [System::SystemPort::recvTimingResp] and [recvRetry]. *)
Definition SystemPort_recvTimingResp (pkt : PacketPtr) : M Sys bool :=
  abort (Panic "SystemPort does not receive timing!").

Definition SystemPort_recvRetry : M Sys unit :=
  abort (Panic "SystemPort does not expect retry!").

End System.

End System.

(** ** Views of the pipeline state

    The member functions through which the rest of the simulator enters
    the pipeline; the cycles that have passed up to the current tick,
    counted or not yet counted; and the rule that ties the two retry
    states to the packet that waits for the retry. *)

Module PipelineViews.

Import TimingCPU.

Inductive Entry : Type :=
| Fetch
| CompleteIfetchOf (pkt : PacketPtr)
| CompleteDataAccessOf (pkt : PacketPtr)
| RecvTiming (port : PortName) (pkt : PacketPtr)
| RecvRetry (port : PortName)
| Read (addr sizeofT flags : Z)
| Write (data : list Z) (addr sizeofT flags : Z)
| Drain (drain_event : EventPtr).

Section Views.

Context `{PI : PacketIface} {Arch Peer : Type}.
Context `{ENV : !CpuEnv Arch} `{LINK : !Link Peer}.

(** The call an entry stands for, its result dropped. *)
Definition enter (fuel : nat) (e : Entry) : M (World Arch Peer) unit :=
  match e with
  | Fetch => fetch fuel
  | CompleteIfetchOf pkt => completeIfetch fuel pkt
  | CompleteDataAccessOf pkt => completeDataAccess fuel pkt
  | RecvTiming port pkt => recvTiming port fuel pkt;; mret tt
  | RecvRetry port => recvRetry port
  | Read addr sizeofT flags => read addr sizeofT flags;; mret tt
  | Write data addr sizeofT flags => write data addr sizeofT flags;; mret tt
  | Drain drain_event => drain drain_event;; mret tt
  end.

(** The entries whose body counts the cycles before it goes on. *)
Definition countsCycles (e : Entry) : bool :=
  match e with
  | Fetch | CompleteIfetchOf _ | CompleteDataAccessOf _ => true
  | _ => false
  end.

Definition cyclesSoFar (w : World Arch Peer) : Z :=
  numCycles w + (curTick w - previousTick w).

Definition atTick (total now : Z) (w : World Arch Peer) : Prop :=
  cyclesSoFar w = total /\ curTick w = now.

(** Nothing is left to count: [previousTick] is the current tick. *)
Definition allCounted (w : World Arch Peer) : Prop :=
  previousTick w = curTick w.

Definition retryHoldsPacket (w : World Arch Peer) : Prop :=
  (_status w = IcacheRetry -> ifetch_pkt w <> None)
  /\ (_status w = DcacheRetry -> dcache_pkt w <> None).

(** A world in [I] whose pipeline is [Running]. *)
Definition runningAnd (I : World Arch Peer -> Prop) (w : World Arch Peer) :
  Prop :=
  I w /\ _status w = Running.

(** The completion callback of a port. *)
Definition complete (port : PortName) (fuel : nat) (pkt : PacketPtr) :
  M (World Arch Peer) unit :=
  match port with
  | icachePort => completeIfetch fuel pkt
  | dcachePort => completeDataAccess fuel pkt
  end.

End Views.

End PipelineViews.

(** ** The life cycle of the timing CPU ([cpu/simple/timing.cc])

    The member functions that start, stop and move the CPU.  They use
    members that the pipeline functions above never touch: the fetch
    event, the idle statistic, the thread contexts, and the peers of the
    two ports.  [Machine] adds them to the [World] of the pipeline. *)

Module CpuLifecycle.

Import TimingCPU.

#[global] Instance PortName_eq_dec : EqDecision PortName.
Proof. solve_decision. Defined.

(** [ThreadContext::Status], of which the source names [Active]. *)
Inductive ThreadStatus : Type := Active | NotActive (code : Z).

#[global] Instance ThreadStatus_eq_dec : EqDecision ThreadStatus.
Proof. solve_decision. Defined.

(** [Port::Status], of which the source names [RangeChange]. *)
Inductive PortStatus : Type := RangeChange | OtherChange (code : Z).

#[global] Instance PortStatus_eq_dec : EqDecision PortStatus.
Proof. solve_decision. Defined.

(** The port objects in sight: the two ports of this CPU, the two
    ports that [oldCPU->getPort] gives, and the ports of the memory
    system. *)
Inductive PortRef : Type :=
| OwnPort (name : PortName)
| OldPort (name : PortName)
| MemPort (id : nat).

#[global] Instance PortRef_eq_dec : EqDecision PortRef.
Proof. solve_decision. Defined.

Record Machine (Arch Peer : Type) : Type := mkMachine {
  cpu : World Arch Peer;
  fetchEvent : option EventPtr;
  (* the event objects that exist, each with the tick it is scheduled
     for, if it is scheduled *)
  events : gmap EventPtr (option Z);
  notIdleFraction : Z;
  (* [system->getMemoryMode()] *)
  system_memoryMode : System.MemoryMode;
  (* [tc->status()] of each of [threadContexts] *)
  threadStatus : list ThreadStatus;
  (* [port->getPeer()] *)
  getPeer : PortRef -> option PortRef;
}.

Arguments mkMachine {Arch Peer}.
Arguments cpu {Arch Peer}.
Arguments fetchEvent {Arch Peer}.
Arguments events {Arch Peer}.
Arguments notIdleFraction {Arch Peer}.
Arguments system_memoryMode {Arch Peer}.
Arguments threadStatus {Arch Peer}.
Arguments getPeer {Arch Peer}.

(** Code of the base classes: [BaseCPU::cycles] and
    [BaseCPU::takeOverFrom]. *)
Class LifeEnv (Arch Peer : Type) : Type := {
  cycles : Z -> Z;
  BaseCPU_takeOverFrom : Machine Arch Peer -> Machine Arch Peer;
}.

Section Lifecycle.

Context `{PI : PacketIface} {Arch Peer : Type}.
Context `{ENV : !CpuEnv Arch} `{LINK : !Link Peer} `{LIFE : !LifeEnv Arch Peer}.

#[local] Abbreviation World := (World Arch Peer).
#[local] Abbreviation Machine := (Machine Arch Peer).
#[local] Abbreviation LM := (M Machine).

Definition set_cpu (w : World) (s : Machine) : Machine :=
  mkMachine w (fetchEvent s) (events s) (notIdleFraction s)
    (system_memoryMode s) (threadStatus s) (getPeer s).

Definition set_fetchEvent (e : option EventPtr) (s : Machine) : Machine :=
  mkMachine (cpu s) e (events s) (notIdleFraction s)
    (system_memoryMode s) (threadStatus s) (getPeer s).

Definition set_events (x : gmap EventPtr (option Z)) (s : Machine) : Machine :=
  mkMachine (cpu s) (fetchEvent s) x (notIdleFraction s)
    (system_memoryMode s) (threadStatus s) (getPeer s).

Definition set_notIdleFraction (x : Z) (s : Machine) : Machine :=
  mkMachine (cpu s) (fetchEvent s) (events s) x
    (system_memoryMode s) (threadStatus s) (getPeer s).

(** [port->setPeer(peer)]. *)
Definition setPeer (port : PortRef) (p : option PortRef) (s : Machine) :
  Machine :=
  mkMachine (cpu s) (fetchEvent s) (events s) (notIdleFraction s)
    (system_memoryMode s) (threadStatus s)
    (fun q => if bool_decide (q = port) then p else getPeer s q).

Definition set_previousTick (t : Z) (w : World) : World :=
  mkWorld (_status w) (ifetch_pkt w) (dcache_pkt w) (drainEvent w) t
    (numCycles w) (cpu_id w) (getState w) (thread w) (curTick w) (heap w)
    (peer w) (offered w) (scheduled w) (processed w) (recorded w).

Definition set_numCycles (n : Z) (w : World) : World :=
  mkWorld (_status w) (ifetch_pkt w) (dcache_pkt w) (drainEvent w)
    (previousTick w) n (cpu_id w) (getState w) (thread w) (curTick w)
    (heap w) (peer w) (offered w) (scheduled w) (processed w) (recorded w).

Definition set_cpu_id (id : Z) (w : World) : World :=
  mkWorld (_status w) (ifetch_pkt w) (dcache_pkt w) (drainEvent w)
    (previousTick w) (numCycles w) id (getState w) (thread w) (curTick w)
    (heap w) (peer w) (offered w) (scheduled w) (processed w) (recorded w).

(** A pipeline function run on the pipeline members of the machine. *)
Definition liftCpu {A : Type} (m : M World A) : LM A :=
  fun s =>
    match m (cpu s) with
    | Done a w => Done a (set_cpu w s)
    | Abort f w => Abort f (set_cpu w s)
    end.

Definition status : LM Status := gets (fun s => _status (cpu s)).

(** [new EventWrapper<TimingSimpleCPU, &TimingSimpleCPU::fetch>(this,
    false)]: a new event object, not scheduled. *)
Definition newEvent : LM EventPtr :=
  fun s =>
    let e := fresh (dom (events s)) in
    Done e (set_events (<[e := None]> (events s)) s).

(** [event->scheduled()]. *)
Definition isScheduled (e : EventPtr) : LM bool :=
  evs ← gets events;
  slot ← deref (evs !! e);
  mret (bool_decide (is_Some (slot : option Z))).

(** [event->schedule(t)] and [event->deschedule()]. *)
Definition scheduleEvent (e : EventPtr) (t : Z) : LM unit :=
  modify (fun s => set_events (<[e := Some t]> (events s)) s).

Definition deschedule (e : EventPtr) : LM unit :=
  modify (fun s => set_events (<[e := None]> (events s)) s).

(** [delete event]. *)
Definition deleteEvent (e : EventPtr) : LM unit :=
  modify (fun s => set_events (delete e (events s)) s).

(** The constructor body, run on the object as the constructors of the
    base classes and of the members left it. *)
Definition TimingSimpleCPU_ctor (id : Z) (base : Machine) : Machine :=
  set_cpu
    (changeState SimObject.Running
       (set_previousTick 0
          (set_drainEvent None
             (set_dcache_pkt None
                (set_ifetch_pkt None
                   (set_status Idle (set_cpu_id id (cpu base))))))))
    (set_fetchEvent None base).

(** [TimingSimpleCPU::getPort]. *)
Definition getPort (if_name : string) : LM PortName :=
  if String.eqb if_name "dcache_port" then mret dcachePort
  else if String.eqb if_name "icache_port" then mret icachePort
  else abort (Panic "No Such Port").

(** [TimingSimpleCPU::CpuPort::recvAtomic]. *)
Definition CpuPort_recvAtomic (pkt : PacketPtr) : LM Z :=
  abort (Panic "TimingSimpleCPU doesn't expect recvAtomic callback!").

(** [TimingSimpleCPU::CpuPort::recvFunctional]. *)
Definition CpuPort_recvFunctional (pkt : PacketPtr) : LM unit := mret tt.

(** [TimingSimpleCPU::CpuPort::recvStatusChange]. *)
Definition CpuPort_recvStatusChange (st : PortStatus) : LM unit :=
  if bool_decide (st = RangeChange) then mret tt
  else abort (Panic "TimingSimpleCPU doesn't expect recvStatusChange callback!").

(** The fetch event, and the tick events of the two ports, when they
    fire. *)
Definition fetchEvent_process (fuel : nat) : LM unit := liftCpu (fetch fuel).

Definition ITickEvent_process (fuel : nat) (pkt : PacketPtr) : LM unit :=
  liftCpu (completeIfetch fuel pkt).

Definition DTickEvent_process (fuel : nat) (pkt : PacketPtr) : LM unit :=
  liftCpu (completeDataAccess fuel pkt).

(** [TimingSimpleCPU::resume]. *)
Definition resume : LM unit :=
  st ← status;
  when (negb (bool_decide (st = SwitchedOut)) && negb (bool_decide (st = Idle)))
    (mode ← gets system_memoryMode;
     assert (bool_decide (mode = System.timing))
       "system->getMemoryMode() == System::Timing";;
     fe ← gets fetchEvent;
     match fe with
     | Some e =>
       sched ← isScheduled e;
       when sched (deschedule e);;
       deleteEvent e
     | None => mret tt
     end;;
     e' ← newEvent;
     modify (set_fetchEvent (Some e'));;
     now ← gets (fun s => curTick (cpu s));
     scheduleEvent e' now);;
  liftCpu (modify (changeState SimObject.Running));;
  liftCpu (now ← gets curTick; modify (set_previousTick now)).

(** [TimingSimpleCPU::switchOut]. *)
Definition switchOut : LM unit :=
  st ← status;
  assert (bool_decide (st = Running) || bool_decide (st = Idle))
    "status() == Running || status() == Idle";;
  liftCpu (modify (set_status SwitchedOut));;
  liftCpu (modify (fun w =>
             set_numCycles (numCycles w + (curTick w - previousTick w)) w));;
  fe ← gets fetchEvent;
  match fe with
  | Some e =>
    sched ← isScheduled e;
    when sched (deschedule e)
  | None => mret tt
  end.

(** The loop of [takeOverFrom] over the thread contexts, with its
    [break]. *)
Fixpoint markRunning (tcs : list ThreadStatus) : LM unit :=
  match tcs with
  | [] => mret tt
  | tc :: rest =>
    st ← status;
    if bool_decide (tc = Active) && negb (bool_decide (st = Running)) then
      liftCpu (modify (set_status Running))
    else markRunning rest
  end.

(** The block of [takeOverFrom] that connects one port. *)
Definition takePort (name : PortName) : LM unit :=
  own ← gets (fun s => getPeer s (OwnPort name));
  p ←
    (if bool_decide (own = None) then
       old ← gets (fun s => getPeer s (OldPort name));
       modify (setPeer (OwnPort name) old);;
       mret old
     else mret own);
  q ← deref p;
  modify (setPeer q (Some (OwnPort name))).

(** [TimingSimpleCPU::takeOverFrom]. *)
Definition takeOverFrom : LM unit :=
  modify BaseCPU_takeOverFrom;;
  tcs ← gets threadStatus;
  markRunning tcs;;
  st ← status;
  when (negb (bool_decide (st = Running))) (liftCpu (modify (set_status Idle)));;
  takePort icachePort;;
  takePort dcachePort.

(** [TimingSimpleCPU::activateContext].  [assert(thread)] holds in
    every machine: the thread is a member of the world. *)
Definition activateContext (thread_num delay : Z) : LM unit :=
  assert (thread_num =? 0) "thread_num == 0";;
  st ← status;
  assert (bool_decide (st = Idle)) "_status == Idle";;
  modify (fun s => set_notIdleFraction (notIdleFraction s + 1) s);;
  liftCpu (modify (set_status Running));;
  e ← newEvent;
  modify (set_fetchEvent (Some e));;
  now ← gets (fun s => curTick (cpu s));
  scheduleEvent e (now + cycles delay).

(** [TimingSimpleCPU::suspendContext]. *)
Definition suspendContext (thread_num : Z) : LM unit :=
  assert (thread_num =? 0) "thread_num == 0";;
  st ← status;
  assert (bool_decide (st = Running)) "_status == Running";;
  modify (fun s => set_notIdleFraction (notIdleFraction s - 1) s);;
  liftCpu (modify (set_status Idle)).

(** Every event that is scheduled is the fetch event of the CPU. *)
Definition oneFetchEvent (s : Machine) : Prop :=
  forall e t, events s !! e = Some (Some t) -> fetchEvent s = Some e.

(** The fetch event, if there is one, is an event object that exists. *)
Definition fetchEventLive (s : Machine) : Prop :=
  forall e, fetchEvent s = Some e -> is_Some (events s !! e).

(** The events left when the fetch event is deleted. *)
Definition withoutFetchEvent (s : Machine) : gmap EventPtr (option Z) :=
  match fetchEvent s with
  | Some e => delete e (events s)
  | None => events s
  end.

(** The peer that [takeOverFrom] connects a port to: its own, or the
    one of the port of the old CPU. *)
Definition peerToTake (name : PortName) (s : Machine) : option PortRef :=
  match getPeer s (OwnPort name) with
  | Some p => Some p
  | None => getPeer s (OldPort name)
  end.

End Lifecycle.

End CpuLifecycle.

(** ** Views of the cache state

    What a run may add to the journal, and the statistics a run may
    leave alone. *)

Module CacheViews.

Import CacheImpl.

Section Views.

Context {TagStore Buffering Coherence Prefetcher Bus : Type}.

#[local] Abbreviation Cache :=
  (Cache TagStore Buffering Coherence Prefetcher Bus).

(** The journal of [c] is [before] followed by events that all pass
    [ok]. *)
Definition onlyEmits (ok : Event -> bool) (before : list Event) (c : Cache) :
  Prop :=
  exists ev, trace c = before ++ ev /\ forallb ok ev = true.

(** The statistics of [c] are those of [c0]. *)
Definition sameCounters (c0 c : Cache) : Prop :=
  hits c = hits c0 /\ misses c = misses c0
  /\ fastWrites c = fastWrites c0 /\ missCount c = missCount c0.

(** The parameters of the cache and the clock. *)
Definition sameSetup (c0 c : Cache) : Prop :=
  blkSize c = blkSize c0 /\ hitLatency c = hitLatency c0
  /\ prefetchAccess c = prefetchAccess c0
  /\ invalidatePkt c = invalidatePkt c0 /\ curTick c = curTick c0.

(** What a functional probe does: it marks the packet satisfied, looks
    the block up without updating, forwards the packet functionally and
    patches it. *)
Definition functionalEvent (e : Event) : bool :=
  match e with
  | EvSatisfied _ | EvSendFunctional _ _ | EvHandleAccess _ false
  | EvFixPacket _ _ => true
  | _ => false
  end.

(** What an atomic probe does: it marks the packet satisfied, looks the
    block up, sends to the memory side atomically and fills the block
    from the packet that came back. *)
Definition atomicEvent (e : Event) : bool :=
  match e with
  | EvSatisfied _ | EvHandleAccess _ true | EvSendAtomic memSidePort _
  | EvHandleFill _ (FromPacket _) _ _ => true
  | _ => false
  end.

(** What the timing functions never do: send on a port themselves, or
    patch a packet. *)
Definition timingEvent (e : Event) : bool :=
  match e with
  | EvSendFunctional _ _ | EvSendAtomic _ _ | EvFixPacket _ _ => false
  | _ => true
  end.

(** [c] has counted no access since [c0], or one hit, or one miss. *)
Definition countedOnce (c0 c : Cache) : Prop :=
  (hits c = hits c0 /\ misses c = misses c0)
  \/ (exists i, hits c = bump i (hits c0) /\ misses c = misses c0)
  \/ (exists i, hits c = hits c0 /\ misses c = bump i (misses c0)).

Definition isExitEv (e : Event) : bool :=
  match e with
  | EvExitSimLoop _ => true
  | _ => false
  end.

(** How often a stretch of the journal tells the simulation to stop. *)
Definition exitCount (ev : list Event) : nat :=
  length (List.filter isExitEv ev).

(** Nothing has happened to the countdown of misses since [c0]. *)
Definition notCountedDown (c0 c : Cache) : Prop :=
  missCount c = missCount c0
  /\ exists ev, trace c = trace c0 ++ ev /\ exitCount ev = 0%nat.

(** The countdown of misses since [c0]: the counter is where it was or
    one lower, and the journal has grown by a stretch that tells the
    simulation to stop once if the counter went from 1 to 0, and not at
    all otherwise. *)
Definition countedDown (c0 c : Cache) : Prop :=
  (missCount c = missCount c0
   \/ (missCount c0 <> 0 /\ missCount c = missCount c0 - 1))
  /\ exists ev,
       trace c = trace c0 ++ ev
       /\ exitCount ev
          = if (missCount c0 =? 1) && (missCount c =? 0) then 1%nat
            else 0%nat.

End Views.

End CacheViews.

(** ** The rest of the cache stage ([mem/cache/cache_impl.hh])

    The atomic entry point with its snoop, and the two functions the
    bus side calls to pick the next request and to report how sending
    it went.  They need a few more operations of the collaborators.
    The journal of the cache lists the calls that [Event] names; the
    calls of [CacheEnvMore] show in the state of the collaborator
    only. *)

Module CacheImplMore.

Import CacheImpl.

Class CacheEnvMore (TagStore Buffering Coherence Prefetcher Bus : Type) :
  Type := {
  CACHE_LINE_FILL : Z;
  (* [Packet::HardPFReq] as an index into the statistics *)
  HardPFReq_index : nat;
  (* [blk->data] *)
  blk_data : BlkPtr -> TagStore -> list Z;
  mq_havePending : Buffering -> Store -> bool;
  mq_getPacket : Buffering * Store -> option PacketPtr * (Buffering * Store);
  mq_setBusCmd :
    PacketPtr -> Packet.Command -> Buffering * Store -> Buffering * Store;
  mq_restoreOrigCmd : PacketPtr -> Buffering * Store -> Buffering * Store;
  (* [BaseCache::doMasterRequest()] *)
  doMasterRequest :
    Cache TagStore Buffering Coherence Prefetcher Bus -> bool;
}.

Section CacheMore.

Context `{PI : PacketIface} {TagStore Buffering Coherence Prefetcher Bus : Type}.
Context `{ENV : !CacheEnv TagStore Buffering Coherence Prefetcher Bus}.
Context `{ENVM : !CacheEnvMore TagStore Buffering Coherence Prefetcher Bus}.

#[local] Abbreviation Cache :=
  (Cache TagStore Buffering Coherence Prefetcher Bus).
#[local] Abbreviation CM := (M Cache).

(** [pkt->flags &= ~mask]. *)
Definition clearFlag (mask : Z) (p : PacketObj) : PacketObj :=
  set_flags (Z.land (flags p) (Z.lnot mask)) p.

(** [pkt && (pkt->flags & mask)] for a pointer that may be null. *)
Definition flagSetAt (mask : Z) (pkt : option PacketPtr) : CM bool :=
  match pkt with
  | Some p => obj ← load p; mret (flagSet mask obj)
  | None => mret false
  end.

(** *** [Cache::snoopProbe] *)

Definition snoopProbe (pkt : PacketPtr) : CM Z :=
  propogateInvalidate pkt false;;
  obj ← load pkt;
  bs ← gets blkSize;
  let blk_addr := blkAlign bs (getAddr obj) in
  blk ← findBlock pkt;
  mshr ← findMSHR blk_addr;
  r ← handleBusRequest pkt blk mshr;
  let satisfy := (r.1 : bool) in
  let new_state := (r.2 : Z) in
  if satisfy then
    handleSnoop blk new_state (Some pkt);;
    gets hitLatency
  else
    handleSnoop blk new_state None;;
    mret 0.

(** *** [Cache::doAtomicAccess] *)

Definition doAtomicAccess (pkt : PacketPtr) (isCpuSide : bool) : CM Z :=
  if isCpuSide then
    probe pkt true None;;
    update pkt (set_result Packet.Success);;
    gets hitLatency
  else
    obj ← load pkt;
    if isResponse obj then
      handleResponse pkt;;
      gets hitLatency
    else snoopProbe pkt.

(** *** [Cache::getPacket] *)

Definition getPacket : CM (option PacketPtr) :=
  pending ← gets (fun c => mq_havePending (missQueue c) (store c));
  assert pending "missQueue->havePending()";;
  r ← gets (fun c => mq_getPacket (missQueue c, store c));
  modify (fun c => set_store r.2.2 (set_missQueue r.2.1 c));;
  let pkt := r.1 in
  match pkt with
  | Some p =>
    obj ← load p;
    when (negb (isUncacheable (req obj)))
      (when (bool_decide (cmd obj = Packet.HardPFReq))
         (modify (fun c => set_misses (bump HardPFReq_index (misses c)) c));;
       blk ← findBlock p;
       ts ← gets tags;
       co ← gets coherence;
       let bus_cmd :=
         coh_getBusCmd (cmd obj)
           match blk with Some b => blk_status b ts | None => 0 end co in
       q ← gets (fun c => mq_setBusCmd p bus_cmd (missQueue c, store c));
       modify (fun c => set_store q.2 (set_missQueue q.1 c)))
  | None => mret tt
  end;;
  master ← gets doMasterRequest;
  pending' ← gets (fun c => mq_havePending (missQueue c) (store c));
  assert (negb master || pending')
    "!doMasterRequest() || missQueue->havePending()";;
  match pkt with
  | Some p =>
    obj ← load p;
    now ← gets curTick;
    assert (time obj <=? now) "!pkt || pkt->time <= curTick"
  | None => mret tt
  end;;
  mret pkt.

(** *** [Cache::sendResult] *)

(** The branch taken when the request went out. *)
Definition sendResult_sent (pkt : option PacketPtr) (mshr : MSHRPtr) :
  CM unit :=
  ms ← loadMSHR mshr;
  mp ← deref (MSHR_pkt ms);
  mobj ← load mp;
  satisfied ←
    (if negb (needsResponse mobj)
        && negb (bool_decide (cmd mobj = Packet.UpgradeReq))
     then flagSetAt SATISFIED pkt
     else mret false);
  when satisfied (deletePacket pkt);;
  ms1 ← loadMSHR mshr;
  markInService (MSHR_pkt ms1) mshr;;
  ms2 ← loadMSHR mshr;
  upgrade ←
    match MSHR_pkt ms2 with
    | Some q => qobj ← load q; mret (bool_decide (cmd qobj = Packet.UpgradeReq))
    | None => mret false
    end;
  when upgrade
    (assert (bool_decide (is_Some pkt)) "pkt";;
     p ← deref pkt;
     update p (clearFlag CACHE_LINE_FILL);;
     blk ← findBlock p;
     ts ← gets tags;
     let old_state :=
       match blk with Some b => blk_status b ts | None => 0 end in
     new_state ← gets (fun c =>
                   coh_getNewState p old_state (coherence c) (store c));
     b ← deref blk;
     bs ← gets blkSize;
     update p (fun o => set_data (memcpy (getPtr o) (blk_data b ts) 0 bs) o);;
     r ← handleFill blk (FromMSHR mshr) new_state [] (Some p);
     assert (bool_decide (r.2 = [])) "writebacks.empty()";;
     now ← gets curTick;
     hl ← gets hitLatency;
     missQueue_handleResponse p (now + hl)).

(** The branch taken when it did not, or was NACKed. *)
Definition sendResult_failed (pkt : option PacketPtr) (mshr : MSHRPtr) :
  CM unit :=
  match pkt with
  | Some p =>
    obj ← load p;
    when (negb (isUncacheable (req obj)))
      (update p (clearFlag NACKED_LINE);;
       update p (clearFlag SATISFIED);;
       update p (clearFlag SNOOP_COMMIT);;
       ms ← loadMSHR mshr;
       deletePacket (MSHR_pkt ms);;
       modify (putMSHR mshr (mkMSHR (inService ms) (Some p) (getTargetList ms)));;
       q ← gets (fun c => mq_restoreOrigCmd p (missQueue c, store c));
       modify (fun c => set_store q.2 (set_missQueue q.1 c)))
  | None => mret tt
  end.

Definition sendResult (pkt : option PacketPtr) (mshr : MSHRPtr)
  (success : bool) : CM unit :=
  nacked ← (if success then flagSetAt NACKED_LINE pkt else mret false);
  if success && negb nacked then sendResult_sent pkt mshr
  else sendResult_failed pkt mshr.

End CacheMore.

End CacheImplMore.

(** ** More concrete instances

    A system object over a symbol table that is a list of labels with
    their addresses; its class overrides [fixFuncEventAddr], the base
    class does not. *)

Module SampleSystem.

Import System.

Definition sampleSymtab : list (string * Z) :=
  [("panic"%string, 4096); ("idle"%string, 8192)].

Fixpoint lookupLabel (t : list (string * Z)) (lbl : string) : option Z :=
  match t with
  | [] => None
  | (l, a) :: rest => if String.eqb l lbl then Some a else lookupLabel rest lbl
  end.

Definition baseSystemEnv : SystemEnv (list (string * Z)) := {|
  NULL_ISA := false;
  findAddress := lookupLabel;
  fixFuncEventAddr_override := None;
|}.

Definition derivedSystemEnv : SystemEnv (list (string * Z)) := {|
  NULL_ISA := false;
  findAddress := lookupLabel;
  fixFuncEventAddr_override := Some (fun a => mret (Z.land a 4095));
|}.

(** A system with four CPUs, the second already marked, whose next PID
    is the last but one of the 64-bit words. *)
Definition sampleSystem : SystemState (list (string * Z)) :=
  mkSystem timing 64 [0%nat; 1%nat; 2%nat; 3%nat] 4 (2 ^ 64 - 2) 0 0
    [false; true; false; false] ∅ sampleSymtab [] 100.

End SampleSystem.

(** A CPU like the sample CPU whose stores are store-conditionals that
    always fail their check; a machine around the sample CPU with one
    scheduled fetch event, whose old CPU is connected to the memory
    ports 0 and 1; and the rest of the collaborators of the sample
    cache: a request is pending when a miss entry is not in service. *)

Module SampleMore.

Import Packet TimingCPU CpuLifecycle CacheImpl CacheImplMore Sample SampleCache.

Definition failingScEnv : CpuEnv SampleArch := {|
  Inst := SampleInst;
  readPC := pc;
  traceSetAddr _ a := a;
  translateDataReadReq := sampleTranslate;
  translateDataWriteReq := sampleTranslate;
  handleLockedWrite r a := (false, r, a);
  handleLockedRead _ a := a;
  curStaticInst := cur;
  isDelayedCommit _ := false;
  isMemRef i := match i with Nop => false | _ => true end;
  isDataPrefetch _ := false;
  checkForInterrupts a := a;
  setupFetchRequest r a :=
    (if pc a <? 0 then FaultCode 2 else NoFault,
     mkRequest (req_asid r) (pc a) 4 (req_flags r) (pc a) (req_cpu r)
       (req_thread r) (getTime r),
     a);
  advancePC f a :=
    match f with
    | NoFault => mkArch (pc a + 4) (cur a)
    | FaultCode _ => mkArch 256 (cur a)
    end;
  preExecute a := mkArch (pc a) (Some (sampleDecode (pc a)));
  postExecute a := a;
  initiateAcc i a :=
    (match i with
     | LoadWord x => AccRead x 4 0
     | StoreWord x d => AccWrite d x 4 2
     | Nop => AccNone NoFault
     end, a);
  completeAcc _ _ a := (NoFault, a);
  execute _ a := (NoFault, a);
  nextCycle t := t;
|}.

(** The sample CPU at tick 10 with one more packet, 2: a response with
    result [r] whose request was made at tick 10, so that its next
    clock edge is now. *)
Definition edgeWorld (st : Status) (r : Result) (a : SampleArch) :
  World SampleArch (list bool) :=
  let w := sampleWorld st None None SimObject.Running a [] in
  TimingCPU.set_heap
    (<[2%nat := set_req (mkRequest 0 64 4 0 0 0 0 10)
                  (samplePkt (OtherCmd 1) 64 4 0 0 r)]> (TimingCPU.heap w))
    w.

Definition samplePeers (q : PortRef) : option PortRef :=
  match q with
  | OldPort icachePort => Some (MemPort 0)
  | OldPort dcachePort => Some (MemPort 1)
  | MemPort 0 => Some (OldPort icachePort)
  | MemPort 1 => Some (OldPort dcachePort)
  | _ => None
  end.

(** The clock period is two ticks; the thread context that the base
    class takes over from the old CPU is active. *)
Definition sampleLifeEnv : LifeEnv SampleArch (list bool) := {|
  cycles n := 2 * n;
  BaseCPU_takeOverFrom s :=
    mkMachine (cpu s) (fetchEvent s) (events s) (notIdleFraction s)
      (system_memoryMode s) [Active] (getPeer s);
|}.

Definition sampleMachine (st : Status) : Machine SampleArch (list bool) :=
  mkMachine
    (sampleWorld st None None SimObject.Running (mkArch 8 None) [])
    (Some 0%nat) {[0%nat := Some 10]} 1 System.timing [NotActive 0]
    samplePeers.

Definition pendingEntries (b : list MSHRPtr * list MSHRPtr) (s : Store) :
  list MSHRPtr :=
  filter (fun m => (inService <$> mshrs s !! m) = Some false) (b.1 ++ b.2).

Definition sampleEnvMore :
  CacheEnvMore (list Z) (list MSHRPtr * list MSHRPtr) Policy unit Result := {|
  CACHE_LINE_FILL := 8;
  HardPFReq_index := 1%nat;
  blk_data _ _ := replicate 64 0;
  mq_havePending b s := negb (bool_decide (pendingEntries b s = []));
  mq_getPacket x :=
    (m ← head (pendingEntries x.1 x.2); ms ← mshrs x.2 !! m; MSHR_pkt ms, x);
  mq_setBusCmd p c x :=
    (x.1,
     mkStore
       (alter (fun o =>
                 mkPacket c (req o) (dest o) (getAddr o) (getSize o) (flags o)
                   (result o) (getPtr o) (senderState o) (time o))
          p (heap x.2))
       (mshrs x.2));
  mq_restoreOrigCmd _ x := x;
  doMasterRequest c :=
    negb (bool_decide (pendingEntries (missQueue c) (store c) = []));
|}.

(** The sample cache with line 64 present, and with no miss entries. *)
Definition withLine64 := set_tags [64] withProtocol.

Definition quiet := set_missQueue ([], []) withProtocol.

End SampleMore.

(** * Properties of the timing CPU *)

(** Unfold the monad and let the equations at hand drive the run. *)
Ltac run :=
  cbv [mbind M_bind mret M_ret gets modify abort assert when deref].

Ltac use_eqs :=
  repeat (progress simpl ||
          rewrite lookup_insert_eq ||
          match goal with
          | H : ?x = _ |- context [?x] => rewrite H
          end).

Module CpuSpec.

Import TimingCPU PipelineViews.

Section Pipeline.

Context `{PI : PacketIface} {Arch Peer : Type}.
Context `{ENV : !CpuEnv Arch} `{LINK : !Link Peer}.

#[local] Abbreviation World := (World Arch Peer).

(** C3. A retry on a port of a pipeline that is in the Retry state of
    that port and holds the rejected packet [p] offers [p] itself, and
    nothing else, on that port.  If the peer accepts, the pipeline moves
    to the WaitResponse state of the port and forgets the packet; if the
    peer rejects again, the pipeline stays in the Retry state and still
    holds [p]. *)
Theorem recvRetry_reoffers_held_packet (port : PortName) (w : World)
  (p : PacketPtr) :
  held port w = Some p ->
  _status w = retryState port ->
  let ok := (peer_recvTiming port p (peer w, heap w)).1 in
  exists w',
    recvRetry port w = Done tt w'
    /\ offered w' = offered w ++ [(port, p, ok)]
    /\ (ok = true -> _status w' = waitState port /\ held port w' = None)
    /\ (ok = false -> _status w' = retryState port /\ held port w' = Some p).
Proof.
  intros Hheld Hst ok.
  destruct port; simpl in Hheld, Hst;
    unfold recvRetry, IcachePort_recvRetry, DcachePort_recvRetry; run;
    use_eqs; unfold sendTiming; fold ok;
    destruct ok eqn:Hok; simpl;
    (eexists; split; [reflexivity|]); simpl; rewrite ?Hheld, ?Hst;
    repeat split; congruence.
Qed.

(** C5. A [read] or [write] whose translation succeeds offers one new
    packet on the data port.  If the peer accepts it the pipeline is in
    [DcacheWaitResponse] and holds no packet; if the peer rejects it the
    pipeline is in [DcacheRetry] and holds that very packet.  [write]
    sends only when the locked-write check lets it, and asserts first
    that no data packet is held: with a packet held the run stops on the
    assertion and nothing is offered. *)
Theorem read_write_send_outcome (w : World) :
  (forall addr sizeofT rflags req1 a',
     translateDataReadReq
       (mkRequest 0 addr sizeofT rflags (readPC (thread w)) (cpu_id w) 0
          (curTick w))
       (traceSetAddr addr (thread w)) = (NoFault, req1, a') ->
     exists w' h obj,
       let pkt := newAddr (heap w) in
       let ok := (peer_recvTiming dcachePort pkt (peer w, h)).1 in
       read addr sizeofT rflags w = Done NoFault w'
       /\ h !! pkt = Some obj /\ cmd obj = Packet.ReadReq /\ req obj = req1
       /\ offered w' = offered w ++ [(dcachePort, pkt, ok)]
       /\ (ok = true ->
           _status w' = DcacheWaitResponse /\ dcache_pkt w' = None)
       /\ (ok = false ->
           _status w' = DcacheRetry /\ dcache_pkt w' = Some pkt))
  /\
  (forall data addr sizeofT wflags req1 a',
     translateDataWriteReq
       (mkRequest 0 addr sizeofT wflags (readPC (thread w)) (cpu_id w) 0
          (curTick w))
       (thread w) = (NoFault, req1, a') ->
     dcache_pkt w = None ->
     (isLocked req1 = true -> (handleLockedWrite req1 a').1.1 = true) ->
     exists w' h obj,
       let pkt := newAddr (heap w) in
       let ok := (peer_recvTiming dcachePort pkt (peer w, h)).1 in
       write data addr sizeofT wflags w = Done NoFault w'
       /\ h !! pkt = Some obj /\ cmd obj = Packet.WriteReq
       /\ getPtr obj = data
       /\ offered w' = offered w ++ [(dcachePort, pkt, ok)]
       /\ (ok = true ->
           _status w' = DcacheWaitResponse /\ dcache_pkt w' = None)
       /\ (ok = false ->
           _status w' = DcacheRetry /\ dcache_pkt w' = Some pkt))
  /\
  (forall data addr sizeofT wflags req1 a' p,
     translateDataWriteReq
       (mkRequest 0 addr sizeofT wflags (readPC (thread w)) (cpu_id w) 0
          (curTick w))
       (thread w) = (NoFault, req1, a') ->
     dcache_pkt w = Some p ->
     exists w',
       write data addr sizeofT wflags w
       = Abort (AssertFailed "dcache_pkt == NULL") w'
       /\ offered w' = offered w /\ dcache_pkt w' = Some p).
Proof.
  split; [|split].
  - intros addr sizeofT rflags req1 a' Htr.
    unfold read, callThread, runThread, newPacket, store, load, sendTiming.
    run. use_eqs.
    match goal with
    | |- context [peer_recvTiming dcachePort _ (_, ?h)] => set (hh := h)
    end.
    destruct (peer_recvTiming dcachePort (newAddr (heap w)) (peer w, hh)).1
      eqn:Hok; simpl;
      destruct (isUncacheable req1); simpl;
      (eexists _, hh, _; split; [reflexivity|]);
      (split; [subst hh; apply lookup_insert_eq|]); simpl;
      rewrite ?Hok; repeat split; congruence.
  - intros data addr sizeofT wflags req1 a' Htr Hnull Hlock.
    unfold write, callThread, runThread, newPacket, store, load, sendTiming.
    run. use_eqs.
    destruct (isLocked req1) eqn:Hl; use_eqs.
    + specialize (Hlock eq_refl).
      destruct (handleLockedWrite req1 a') as [[okl r2] a2] eqn:Hlw.
      simpl in Hlock; subst okl. use_eqs.
      match goal with
      | |- context [peer_recvTiming dcachePort _ (_, ?h)] => set (hh := h)
      end.
      destruct (peer_recvTiming dcachePort (newAddr (heap w)) (peer w, hh)).1
        eqn:Hok; simpl;
        destruct (isUncacheable r2); simpl;
        (eexists _, hh, _; split; [reflexivity|]);
        (split; [subst hh; apply lookup_insert_eq|]); simpl;
        rewrite ?Hok; repeat split; congruence.
    + match goal with
      | |- context [peer_recvTiming dcachePort _ (_, ?h)] => set (hh := h)
      end.
      destruct (peer_recvTiming dcachePort (newAddr (heap w)) (peer w, hh)).1
        eqn:Hok; simpl;
        destruct (isUncacheable req1); simpl;
        (eexists _, hh, _; split; [reflexivity|]);
        (split; [subst hh; apply lookup_insert_eq|]); simpl;
        rewrite ?Hok; repeat split; congruence.
  - intros data addr sizeofT wflags req1 a' p Htr Hheld.
    unfold write, callThread. run. use_eqs.
    eexists; split; [reflexivity|]. simpl. auto.
Qed.

(** C7. A drain request made while nothing is outstanding (the status
    is [Idle], [Running] or [SwitchedOut]) returns 0 and leaves the CPU
    [Drained].  Any other drain request returns 1, leaves the CPU
    [Draining] with the drain event stored, and notifies nobody.  When
    the access in flight then completes while the CPU is [Draining],
    the completion callback leaves the CPU [Drained] and runs the stored
    drain event. *)
Theorem drain_immediate_or_deferred (w : World) (ev : EventPtr) :
  (_status w = Idle \/ _status w = Running \/ _status w = SwitchedOut ->
   drain ev w = Done 0 (changeState SimObject.Drained w))
  /\
  (~ (_status w = Idle \/ _status w = Running \/ _status w = SwitchedOut) ->
   drain ev w =
     Done 1 (set_drainEvent (Some ev) (changeState SimObject.Draining w)))
  /\
  (forall fuel pkt obj i,
     getState w = SimObject.Draining ->
     drainEvent w = Some ev ->
     _status w = DcacheWaitResponse ->
     heap w !! pkt = Some obj ->
     result obj = Packet.Success ->
     curStaticInst (thread w) = Some i ->
     exists w',
       completeDataAccess fuel pkt w = Done tt w'
       /\ getState w' = SimObject.Drained
       /\ processed w' = processed w ++ [ev]
       /\ _status w' = Running
       /\ offered w' = offered w)
  /\
  (forall fuel pkt obj,
     getState w = SimObject.Draining ->
     drainEvent w = Some ev ->
     _status w = IcacheWaitResponse ->
     heap w !! pkt = Some obj ->
     result obj = Packet.Success ->
     exists w',
       completeIfetch fuel pkt w = Done tt w'
       /\ getState w' = SimObject.Drained
       /\ processed w' = processed w ++ [ev]
       /\ _status w' = Running
       /\ offered w' = offered w).
Proof.
  repeat split.
  - intros Hst. unfold drain. run.
    destruct Hst as [H | [H | H]]; rewrite H; reflexivity.
  - intros Hst. unfold drain. run.
    destruct (_status w); simpl; try reflexivity;
      exfalso; apply Hst; auto.
  - intros fuel pkt obj i Hs Hev Hst Hobj Hres Hci.
    unfold completeDataAccess, completeDrain, load, callThread, runThread,
      deletePacket.
    run. use_eqs.
    destruct (isRead obj && isLocked (req obj)); use_eqs;
      (eexists; split; [reflexivity|]); simpl; auto.
  - intros fuel pkt obj Hs Hev Hst Hobj Hres.
    unfold completeIfetch, completeDrain, load, callThread, runThread,
      deletePacket.
    run. use_eqs.
    (eexists; split; [reflexivity|]); simpl; auto.
Qed.

(** C8. A [read] or [write] whose translation faults returns the fault
    and offers nothing on the data port: status, held packets and the
    packet store are as before.  A [fetch] whose request setup faults
    offers nothing on the instruction port either: it hands the fault to
    [advancePC] and, if the pipeline is running, goes on with the fetch
    of the next instruction; if not, it returns with nothing offered. *)
Theorem fault_short_circuits (w : World) (f : Fault) :
  f <> NoFault ->
  (forall addr sizeofT rflags req1 a',
     translateDataReadReq
       (mkRequest 0 addr sizeofT rflags (readPC (thread w)) (cpu_id w) 0
          (curTick w))
       (traceSetAddr addr (thread w)) = (f, req1, a') ->
     exists w',
       read addr sizeofT rflags w = Done f w'
       /\ offered w' = offered w /\ peer w' = peer w /\ heap w' = heap w
       /\ _status w' = _status w /\ dcache_pkt w' = dcache_pkt w)
  /\
  (forall data addr sizeofT wflags req1 a',
     translateDataWriteReq
       (mkRequest 0 addr sizeofT wflags (readPC (thread w)) (cpu_id w) 0
          (curTick w))
       (thread w) = (f, req1, a') ->
     exists w',
       write data addr sizeofT wflags w = Done f w'
       /\ offered w' = offered w /\ peer w' = peer w /\ heap w' = heap w
       /\ _status w' = _status w /\ dcache_pkt w' = dcache_pkt w)
  /\
  (forall n req1 a',
     setupFetchRequest (mkRequest 0 0 0 0 0 (cpu_id w) 0 (curTick w))
       (fetchThread w) = (f, req1, a') ->
     exists w1,
       fetch (S n) w =
         (when (bool_decide (_status w = Running)) (fetch n);;
          modify countCycles) w1
       /\ thread w1 = advancePC f a'
       /\ offered w1 = offered w /\ peer w1 = peer w
       /\ _status w1 = _status w
       /\ (_status w <> Running ->
           exists w', fetch (S n) w = Done tt w' /\ offered w' = offered w)).
Proof.
  intros Hf. repeat split.
  - intros addr sizeofT rflags req1 a' Htr.
    unfold read, callThread, runThread. run. use_eqs.
    rewrite bool_decide_eq_false_2 by exact Hf.
    destruct (isUncacheable req1); simpl;
      (eexists; split; [reflexivity|]); simpl; auto.
  - intros data addr sizeofT wflags req1 a' Htr.
    unfold write, callThread, runThread. run. use_eqs.
    rewrite bool_decide_eq_false_2 by exact Hf. simpl.
    destruct (isUncacheable req1); simpl;
      (eexists; split; [reflexivity|]); simpl; auto.
  - intros n req1 a' Hsetup. unfold fetchThread in Hsetup.
    simpl fetch.
    unfold advanceInst, callThread, runThread, newPacket. run.
    destruct (match curStaticInst (thread w) with
              | Some i => negb (isDelayedCommit i)
              | None => true
              end); use_eqs;
      rewrite bool_decide_eq_false_2 by exact Hf; simpl;
      (eexists; split; [reflexivity|]); simpl;
      (repeat split; auto);
      intros Hnr; rewrite bool_decide_eq_false_2 by exact Hnr; simpl;
      (eexists; split; [reflexivity|]); reflexivity.
Qed.

(** A fetch whose request sets up without a fault returns with one
    packet offered on the instruction port. *)
Lemma fetch_sends (n : nat) (w : World) (req' : Request) (a' : Arch) :
  setupFetchRequest (mkRequest 0 0 0 0 0 (cpu_id w) 0 (curTick w))
    (fetchThread w) = (NoFault, req', a') ->
  exists ok w',
    fetch (S n) w = Done tt w'
    /\ offered w' = offered w ++ [(icachePort, newAddr (heap w), ok)]
    /\ _status w' = (if ok then IcacheWaitResponse else IcacheRetry)
    /\ ifetch_pkt w' = (if ok then None else Some (newAddr (heap w))).
Proof.
  intros Hsetup. cbn [fetch]. unfold fetchThread in Hsetup.
  unfold callThread, runThread, newPacket, sendTiming. run.
  destruct (match curStaticInst (thread w) with
            | Some i => negb (isDelayedCommit i)
            | None => true
            end); simpl; rewrite Hsetup; simpl;
    match goal with
    | |- context [(peer_recvTiming ?p ?q ?x).1] =>
      exists (peer_recvTiming p q x).1;
      destruct (peer_recvTiming p q x).1
    end; simpl; eexists; repeat split; reflexivity.
Qed.

(** C10 (amended). [recvTiming] never returns [false].  A packet that
    is not a response is accepted and changes nothing at all.  A
    response whose next clock edge is not now is accepted and its
    completion is scheduled, nothing else.  A response on its clock edge
    is completed inside the call: the call does what the completion
    does and returns [true] when the completion returns.  The
    completion stops on an assertion, with nothing changed, when the
    result is not [Success] or the pipeline does not wait on that port:
    such a delivery is not accepted.  When the pipeline does wait on
    the port: while the CPU drains, the call returns [true] and leaves
    the CPU [Drained]; otherwise, on the data port, and on the
    instruction port for an instruction that makes no memory reference,
    the call goes on as the fetch of the next instruction and returns
    [true] when that fetch returns, as it does, with one packet offered,
    when its request sets up without a fault. *)
Theorem recvTiming_accepts_and_ignores_snoops (port : PortName) (w : World)
  (fuel : nat) (pkt : PacketPtr) :
  (forall b w', recvTiming port fuel pkt w = Done b w' -> b = true)
  /\
  (forall obj,
     heap w !! pkt = Some obj ->
     (isResponse obj = false -> recvTiming port fuel pkt w = Done true w)
     /\
     (isResponse obj = true ->
      nextCycle (getTime (req obj)) <> curTick w ->
      recvTiming port fuel pkt w =
        Done true
          (schedule (nextCycle (getTime (req obj))) (tickCallback port pkt)
             w))
     /\
     (isResponse obj = true ->
      nextCycle (getTime (req obj)) = curTick w ->
      recvTiming port fuel pkt w = (complete port fuel pkt;; mret true) w
      /\
      (result obj <> Packet.Success \/ _status w <> waitState port ->
       exists what,
         recvTiming port fuel pkt w = Abort (AssertFailed what) w)
      /\
      (result obj = Packet.Success ->
       _status w = waitState port ->
       (forall ev i,
          getState w = SimObject.Draining ->
          drainEvent w = Some ev ->
          curStaticInst (thread w) = Some i ->
          exists w',
            recvTiming port fuel pkt w = Done true w'
            /\ getState w' = SimObject.Drained
            /\ processed w' = processed w ++ [ev]
            /\ offered w' = offered w)
       /\
       (forall i fault a1,
          getState w <> SimObject.Draining ->
          match port with
          | dcachePort =>
            curStaticInst (thread w) = Some i
            /\ completeAcc i obj (thread w) = (fault, a1)
          | icachePort =>
            curStaticInst (preExecute (thread w)) = Some i
            /\ isMemRef i && negb (isDataPrefetch i) = false
            /\ execute i (preExecute (thread w)) = (fault, a1)
          end ->
          let a2 :=
            match port with
            | dcachePort =>
              if isRead obj && isLocked (req obj)
              then handleLockedRead (req obj) a1 else a1
            | icachePort => a1
            end in
          let w3 :=
            set_thread (advancePC fault (postExecute a2))
              (set_heap (delete pkt (heap w))
                 (countCycles (set_status Running w))) in
          recvTiming port fuel pkt w = (fetch fuel;; mret true) w3
          /\
          (forall n req' a',
             fuel = S n ->
             setupFetchRequest
               (mkRequest 0 0 0 0 0 (cpu_id w) 0 (curTick w))
               (fetchThread w3) = (NoFault, req', a') ->
             exists ok w',
               recvTiming port fuel pkt w = Done true w'
               /\ offered w'
                  = offered w
                    ++ [(icachePort, newAddr (delete pkt (heap w)), ok)]
               /\ _status w'
                  = (if ok then IcacheWaitResponse else IcacheRetry)))))).
Proof.
  split.
  - intros b w'.
    destruct port; unfold recvTiming, IcachePort_recvTiming,
      DcachePort_recvTiming, load; run;
      destruct (heap w !! pkt) as [obj|]; simpl; try discriminate;
      destruct (isResponse obj); simpl; try congruence;
      destruct (bool_decide (nextCycle (getTime (req obj)) = curTick w));
      simpl; try congruence.
    + destruct (completeIfetch fuel pkt w); congruence.
    + destruct (completeDataAccess fuel pkt w); congruence.
  - intros obj Hobj.
    assert (Hedge : isResponse obj = true ->
                    nextCycle (getTime (req obj)) = curTick w ->
                    recvTiming port fuel pkt w
                    = (complete port fuel pkt;; mret true) w).
    { intros Hresp Hnext.
      destruct port; unfold recvTiming, IcachePort_recvTiming,
        DcachePort_recvTiming, complete, load; run; use_eqs;
        rewrite bool_decide_eq_true_2 by (first [exact Hnext | reflexivity]);
        reflexivity. }
    split; [|split].
    + intros Hresp.
      destruct port; unfold recvTiming, IcachePort_recvTiming,
        DcachePort_recvTiming, load; run; use_eqs; reflexivity.
    + intros Hresp Hnext.
      destruct port; unfold recvTiming, IcachePort_recvTiming,
        DcachePort_recvTiming, load; run; use_eqs;
        rewrite bool_decide_eq_false_2 by exact Hnext; reflexivity.
    + intros Hresp Hnext. split; [exact (Hedge Hresp Hnext)|].
      rewrite (Hedge Hresp Hnext). clear Hedge. split.
      * intros Hbad.
        destruct port; unfold complete, completeIfetch, completeDataAccess,
          load; run; use_eqs.
        all: destruct (bool_decide (result obj = Packet.Success)) eqn:Hres;
          simpl; [|eexists; reflexivity].
        all: apply bool_decide_eq_true_1 in Hres.
        all: destruct Hbad as [Hbad|Hbad]; [contradiction|].
        all: simpl in Hbad; rewrite bool_decide_eq_false_2 by exact Hbad.
        all: eexists; reflexivity.
      * intros Hres Hst. split.
        -- intros ev i Hs Hev Hci.
           destruct port; simpl in Hst;
             unfold complete, completeIfetch, completeDataAccess,
               completeDrain, load, callThread, runThread, deletePacket;
             run; use_eqs;
             rewrite ?bool_decide_eq_true_2 by reflexivity; use_eqs.
           ++ eexists; split; [reflexivity|]. simpl. auto.
           ++ destruct (isRead obj && isLocked (req obj)); use_eqs;
                (eexists; split; [reflexivity|]); simpl; auto.
        -- intros i fault a1 Hs Hinst a2 w3.
           assert (Hgo : (complete port fuel pkt;; mret true) w
                         = (fetch fuel;; mret true) w3).
           { subst w3 a2.
             destruct port; simpl in Hst.
             - destruct Hinst as (Hci & Hmem & Hex).
               unfold complete, completeIfetch, advanceInst, load,
                 callThread, runThread, deletePacket.
               run. use_eqs.
               rewrite ?bool_decide_eq_true_2 by reflexivity. use_eqs.
               rewrite (bool_decide_eq_false_2 _ Hs). use_eqs.
               reflexivity.
             - destruct Hinst as (Hci & Hacc).
               unfold complete, completeDataAccess, advanceInst, load,
                 callThread, runThread, deletePacket.
               run. use_eqs.
               rewrite ?bool_decide_eq_true_2 by reflexivity. use_eqs.
               destruct (isRead obj && isLocked (req obj)); use_eqs;
                 rewrite (bool_decide_eq_false_2 _ Hs); use_eqs;
                 reflexivity. }
           split; [exact Hgo|].
           intros n req' a' -> Hsetup. rewrite Hgo.
           destruct (fetch_sends n w3 req' a' Hsetup)
             as (ok & w' & E & Ho & Hst' & _).
           exists ok, w'. unfold mbind, M_bind. rewrite E.
           split; [reflexivity|]. split; [exact Ho | exact Hst'].
Qed.

End Pipeline.

(** ** The theorems at work on the sample CPU *)

Section OnSample.

Import Sample SampleMore.

#[local] Existing Instance sampleIface.
#[local] Existing Instance sampleCpuEnv.
#[local] Existing Instance sampleLink.

Lemma recvRetry_reoffers_held_packet_witness :
  let w := sampleWorld DcacheRetry None (Some 0%nat) SimObject.Running
             (mkArch 8 None) [false] in
  held dcachePort w = Some 0%nat
  /\ _status w = retryState dcachePort
  /\ exists w',
       recvRetry dcachePort w = Done tt w'
       /\ offered w' = [(dcachePort, 0%nat, false)]
       /\ _status w' = DcacheRetry
       /\ held dcachePort w' = Some 0%nat.
Proof.
  intro w. split; [reflexivity|]. split; [reflexivity|].
  destruct (recvRetry_reoffers_held_packet dcachePort w 0%nat
              eq_refl eq_refl) as (w' & E & Ho & _ & Hrej).
  exists w'. split; [exact E|]. split; [exact Ho|].
  apply Hrej. reflexivity.
Defined.

Lemma read_write_send_outcome_witness :
  let w := sampleWorld Running None None SimObject.Running
             (mkArch 8 (Some (LoadWord 64))) [false] in
  exists w',
    read 64 4 0 w = Done NoFault w'
    /\ offered w' = [(dcachePort, newAddr (heap w), false)]
    /\ _status w' = DcacheRetry
    /\ dcache_pkt w' = Some (newAddr (heap w)).
Proof.
  intro w.
  edestruct (proj1 (read_write_send_outcome w) 64 4 0)
    as (w' & h & obj & E & _ & _ & _ & Ho & _ & Hrej); [reflexivity|].
  exists w'. split; [exact E|]. split; [exact Ho|].
  apply Hrej. reflexivity.
Defined.

Lemma drain_immediate_or_deferred_witness :
  let w := sampleWorld DcacheWaitResponse None None SimObject.Running
             (mkArch 8 (Some (LoadWord 64))) [] in
  exists w1 w2,
    drain 7%nat w = Done 1 w1
    /\ processed w1 = []
    /\ completeDataAccess 0 1%nat w1 = Done tt w2
    /\ getState w2 = SimObject.Drained
    /\ processed w2 = [7%nat].
Proof.
  intro w.
  pose proof (proj1 (proj2 (drain_immediate_or_deferred w 7%nat))) as Hd.
  assert (Hbusy : ~ (_status w = Idle \/ _status w = Running
                     \/ _status w = SwitchedOut)).
  { simpl. intros [H | [H | H]]; discriminate. }
  specialize (Hd Hbusy).
  set (w1 := set_drainEvent (Some 7%nat) (changeState SimObject.Draining w))
    in *.
  edestruct (proj1 (proj2 (proj2 (drain_immediate_or_deferred w1 7%nat)))
               0%nat 1%nat)
    as (w2 & E & Hs & Hp & _); try reflexivity.
  exists w1, w2. repeat split; assumption.
Defined.

Lemma fault_short_circuits_witness :
  let w := sampleWorld Running None None SimObject.Running
             (mkArch 8 (Some (LoadWord (-4)))) [] in
  exists w',
    read (-4) 4 0 w = Done (FaultCode 1) w'
    /\ offered w' = [] /\ _status w' = Running /\ dcache_pkt w' = None.
Proof.
  intro w.
  assert (Hf : FaultCode 1 <> NoFault) by discriminate.
  edestruct (proj1 (fault_short_circuits w (FaultCode 1) Hf) (-4) 4 0)
    as (w' & E & Ho & _ & _ & Hs & Hd); [reflexivity|].
  exists w'. repeat split; assumption.
Defined.

(** A load response delivered on its clock edge to the data port that
    waits for it: the load completes, the next fetch goes out, and the
    delivery is accepted.  A snoop changes nothing. *)
Lemma recvTiming_accepts_and_ignores_snoops_witness :
  (let w := edgeWorld DcacheWaitResponse Packet.Success
              (mkArch 8 (Some (LoadWord 64))) in
   exists ok w',
     recvTiming dcachePort 1 2%nat w = Done true w'
     /\ offered w' = [(icachePort, newAddr (delete 2%nat (heap w)), ok)]
     /\ _status w' = (if ok then IcacheWaitResponse else IcacheRetry))
  /\
  (let w := sampleWorld IcacheWaitResponse None None SimObject.Running
              (mkArch 8 None) [] in
   recvTiming icachePort 3 0%nat w = Done true w).
Proof.
  split.
  - intros w.
    destruct (proj2 (recvTiming_accepts_and_ignores_snoops dcachePort w
                       1 2%nat) _ eq_refl) as (_ & _ & Hedge).
    destruct (Hedge eq_refl eq_refl) as (_ & _ & Hwait).
    destruct (Hwait eq_refl eq_refl) as (_ & Hrun).
    destruct (Hrun (LoadWord 64) NoFault (mkArch 8 (Some (LoadWord 64))))
      as (_ & Hfetch).
    + discriminate.
    + split; reflexivity.
    + exact (Hfetch 0%nat _ _ eq_refl eq_refl).
  - intros w.
    destruct (proj2 (recvTiming_accepts_and_ignores_snoops icachePort w
                       3 0%nat) _ eq_refl) as (Hsnoop & _).
    apply Hsnoop. reflexivity.
Defined.

(** The claim as stated fails there: a response delivered on its clock
    edge to a port that does not wait for one, or with a result that is
    not a success, is not accepted: the completion stops on its
    assertion, whatever the fuel, and [recvTiming] returns nothing. *)
Lemma response_out_of_protocol_is_not_accepted :
  let w := edgeWorld Running Packet.Success (mkArch 8 None) in
  let w' := edgeWorld DcacheWaitResponse Packet.BadAddress
              (mkArch 8 (Some (LoadWord 64))) in
  (isResponse <$> heap w !! 2%nat) = Some true
  /\ (forall fuel,
        recvTiming icachePort fuel 2%nat w
        = Abort (AssertFailed "_status == IcacheWaitResponse") w)
  /\ (isResponse <$> heap w' !! 2%nat) = Some true
  /\ (forall fuel,
        recvTiming dcachePort fuel 2%nat w'
        = Abort (AssertFailed "pkt->result == Packet::Success") w').
Proof.
  repeat split; intros fuel; reflexivity.
Qed.

End OnSample.

End CpuSpec.

(** * Properties of the cache stage *)

Module CacheSpec.

Import Packet CacheImpl.

Section Stage.

Context `{PI : PacketIface} {TagStore Buffering Coherence Prefetcher Bus : Type}.
Context `{ENV : !CacheEnv TagStore Buffering Coherence Prefetcher Bus}.

#[local] Abbreviation Cache :=
  (Cache TagStore Buffering Coherence Prefetcher Bus).

Ltac unfold_calls :=
  unfold markSatisfied, update, addTarget, markInService, doWriteback,
    handleMiss, missQueue_handleResponse, missQueueCall, handleAccess,
    handleFill, handleSnoop, handleBusRequest, prefetcher_handleMiss,
    propogateInvalidate, sendFunctional, sendAtomic, callFixPacket, warn,
    respond, respondToSnoop, deletePacket, findBlock, findMSHR, findWrites,
    load, loadMSHR, emit, putPacket, putMSHR in *.

Ltac go := repeat (progress (unfold_calls; run; use_eqs)).

Ltac norm_trace :=
  repeat first
    [ progress simpl
    | match goal with
      | |- context [(?a ++ ?b) ++ ?c] => rewrite <- (app_assoc a b c)
      end ].

Ltac solve_trace :=
  norm_trace; first [reflexivity | symmetry; apply app_nil_r].

(** The same, with the loops over writebacks left folded. *)
Ltac unfold_calls_but_writeback :=
  unfold markSatisfied, update, addTarget, markInService,
    handleMiss, missQueue_handleResponse, missQueueCall, handleAccess,
    handleFill, handleSnoop, handleBusRequest, prefetcher_handleMiss,
    propogateInvalidate, sendFunctional, sendAtomic, callFixPacket, warn,
    respond, respondToSnoop, deletePacket, findBlock, findMSHR, findWrites,
    load, loadMSHR, emit, putPacket, putMSHR in *.

Ltac go' := repeat (progress (unfold_calls_but_writeback; run; use_eqs)).

(** C1 (amended). An uncacheable snoop returns at once.  A cacheable
    snoop first passes the invalidate up; if the coherence policy has
    no protocol and the snoop does not invalidate, it then goes
    straight to the bus-request handler, with the miss entry of its
    line, whatever state that entry is in.  In a cache with a protocol,
    or for a snoop that invalidates, whose line has a miss entry in
    service: if the request in flight is an invalidate or is not a
    cache fill, and the snoop command is neither [InvalidateReq] nor
    [WriteInvalidateReq], then [snoop], on a packet not yet marked
    satisfied, sets [SATISFIED] and [NACKED_LINE] on the packet and
    does nothing else: apart from these two flags and the entry in the
    journal the cache is as the upward invalidate left it.  Otherwise
    it sets the address of the cache's invalidate packet and appends
    that packet to the targets of the miss entry, and does nothing
    else. *)
Theorem snoop_in_service_miss (c : Cache) (pkt : PacketPtr)
  (obj0 : PacketObj) :
  heap (store c) !! pkt = Some obj0 ->
  (isUncacheable (req obj0) = true -> snoop pkt c = Done tt c)
  /\
  (isUncacheable (req obj0) = false ->
   let c1 := final (propogateInvalidate pkt true c) in
   forall obj,
     heap (store c1) !! pkt = Some obj ->
     let blk := tags_findBlock pkt (tags c1) (store c1) in
     let mshr :=
       mq_findMSHR (blkAlign (blkSize c) (getAddr obj)) (missQueue c1)
         (store c1) in
     (coh_hasProtocol (coherence c1) || isInvalidate obj = false ->
      snoop pkt c = snoopBusRequest pkt blk mshr c1)
     /\
     (coh_hasProtocol (coherence c1) || isInvalidate obj = true ->
      forall m ms mp mobj,
        mshr = Some m ->
        mshrs (store c1) !! m = Some ms ->
        inService ms = true ->
        MSHR_pkt ms = Some mp ->
        heap (store c1) !! mp = Some mobj ->
        if (isInvalidate mobj || negb (isCacheFill mobj))
           && (negb (bool_decide (cmd obj = InvalidateReq))
               && negb (bool_decide (cmd obj = WriteInvalidateReq)))
        then
          flagSet SATISFIED obj = false ->
          exists c',
            snoop pkt c = Done tt c'
            /\ c' = putPacket pkt (orFlag NACKED_LINE (orFlag SATISFIED obj))
                      (set_trace (trace c1 ++ [EvSatisfied pkt]) c1)
            /\ heap (store c') !! pkt
               = Some (orFlag NACKED_LINE (orFlag SATISFIED obj))
            /\ trace c'
               = trace c ++ [EvPropogateInvalidate pkt true; EvSatisfied pkt]
            /\ tags c' = tags c /\ missQueue c' = missQueue c
            /\ mshrs (store c') = mshrs (store c1)
            /\ (forall q, q <> pkt ->
                heap (store c') !! q = heap (store c1) !! q)
        else
          forall iobj,
            heap (store c1) !! invalidatePkt c = Some iobj ->
            exists c',
              snoop pkt c = Done tt c'
              /\ snoop pkt c
                 = addTarget m (invalidatePkt c)
                     (putPacket (invalidatePkt c)
                        (addrOverride (getAddr obj) iobj) c1)
              /\ trace c'
                 = trace c ++ [EvPropogateInvalidate pkt true;
                               EvAddTarget m (invalidatePkt c)]
              /\ (missQueue c', store c')
                 = mq_addTarget m (invalidatePkt c)
                     (missQueue c,
                      store (putPacket (invalidatePkt c)
                               (addrOverride (getAddr obj) iobj) c1))
              /\ tags c' = tags c)).
Proof.
  intros H0. split.
  - intros Hunc. unfold snoop, load. run. rewrite H0. simpl.
    rewrite Hunc. reflexivity.
  - intros Hc c1 obj H1 blk mshr. subst c1 blk mshr. split.
    + intros Hguard. revert H1 Hguard.
      unfold snoop, snoopBusRequest. unfold_calls. run. simpl.
      intros H1 Hguard. rewrite H0. simpl. rewrite Hc. simpl.
      rewrite H1. simpl. rewrite Hguard. reflexivity.
    + intros Hguard m ms mp mobj Hm Hms Hin Hmp Hmobj.
      unfold snoop. unfold_calls. revert H1 Hguard Hm Hms Hmobj.
      run. simpl. intros H1 Hguard Hm Hms Hmobj.
      unfold flagSet in *.
      destruct ((isInvalidate mobj || negb (isCacheFill mobj))
         && (negb (bool_decide (cmd obj = InvalidateReq))
             && negb (bool_decide (cmd obj = WriteInvalidateReq)))) eqn:Hcond.
      * intros Hsat. go.
        eexists; split; [reflexivity|]. simpl.
        rewrite insert_insert_eq, lookup_insert_eq, <- app_assoc.
        repeat match goal with |- _ /\ _ => split end; auto.
        intros q Hq. apply lookup_insert_ne. congruence.
      * intros iobj Hi. go.
        eexists; split; [reflexivity|]. simpl.
        rewrite <- app_assoc.
        repeat match goal with |- _ /\ _ => split end; auto.
        symmetry; apply surjective_pairing.
Qed.


(** Handing a list of writebacks to the miss queue leaves the counters
    of the cache alone and only adds to the journal. *)
Lemma doWriteback_run (p : PacketPtr) (c : Cache) :
  exists c',
    doWriteback p c = Done tt c'
    /\ fastWrites c' = fastWrites c
    /\ trace c' = trace c ++ [EvDoWriteback p].
Proof. eexists; split; [reflexivity|]. simpl. auto. Qed.

Lemma forEach_doWriteback_frame (l : list PacketPtr) (c : Cache) :
  exists c' ev,
    forEach l doWriteback c = Done tt c'
    /\ fastWrites c' = fastWrites c
    /\ trace c' = trace c ++ ev
    /\ Forall (fun e => exists p, e = EvDoWriteback p) ev.
Proof.
  revert c. induction l as [|p l IH]; intros c.
  - exists c, []. simpl. rewrite app_nil_r. auto.
  - destruct (doWriteback_run p c) as (c1 & E1 & Hf1 & Ht1).
    destruct (IH c1) as (c' & ev & E & Hf & Ht & Hev).
    exists c', (EvDoWriteback p :: ev).
    cbn [forEach]. unfold mbind at 1, M_bind at 1. rewrite E1.
    rewrite E, Hf, Ht, Hf1, Ht1. rewrite <- app_assoc.
    repeat split; auto. constructor; eauto.
Qed.

(** The second half of [access] never touches the count of fast
    writes and only adds to the journal. *)
Lemma accessFinish_frame (pkt : PacketPtr) (blk : option BlkPtr)
  (lat size : Z) (wbs : list PacketPtr) (c : Cache) :
  fastWrites (final (accessFinish pkt blk lat size wbs c)) = fastWrites c
  /\ exists ev,
       trace (final (accessFinish pkt blk lat size wbs c)) = trace c ++ ev.
Proof.
  unfold accessFinish.
  destruct (forEach_doWriteback_frame wbs c) as (c2 & ev & E & Hf & Ht & _).
  unfold mbind at 1, M_bind at 1. rewrite E.
  go'.
  split.
  - repeat case_match; simplify_eq/=; rewrite ?Hf; reflexivity.
  - repeat case_match; simplify_eq/=; rewrite ?Ht;
      rewrite <- ?app_assoc; eexists; reflexivity.
Qed.

(** C2 (amended). For a write of at least a full line, cacheable or
    not, with command [WriteReq] or [WriteInvalidateReq], for which the
    lookup found no line (an uncacheable access is not looked up): the
    line is allocated on the fast path exactly when the coherence policy
    allows fast writes and either the command is [WriteInvalidateReq] or
    no miss is outstanding to the address.  On the fast path [access]
    warns first when a miss is outstanding (a [WriteInvalidateReq],
    then), has the tag store fill a new line from the packet, counts
    one fast write, and carries on as usual with the block and the
    writebacks of the fill; off the fast path it carries on as usual
    with no block, without a fill and without counting. *)
Theorem fast_write_allocate (c : Cache) (pkt : PacketPtr)
  (obj0 obj1 : PacketObj) :
  let c0 := final (when (prefetchAccess c) (prefetcher_handleMiss pkt) c) in
  heap (store c0) !! pkt = Some obj0 ->
  let looked := negb (isUncacheable (req obj0)) in
  let r := (tags_handleAccess pkt true (tags c0, store c0)).1 in
  let c1 := if looked then final (handleAccess pkt true c0) else c0 in
  let blk0 := if looked then r.1.1 else None in
  let lat := if looked then r.1.2 else hitLatency c in
  let wbs0 := if looked then r.2 else [] in
  let size := if looked then blkSize c else getSize obj0 in
  blk0 = None ->
  heap (store c1) !! pkt = Some obj1 ->
  blkSize c <= getSize obj1 ->
  cmd obj1 = WriteReq \/ cmd obj1 = WriteInvalidateReq ->
  let miss := mq_findMSHR (getAddr obj1) (missQueue c1) (store c1) in
  let fast :=
    coh_allowFastWrites (coherence c1)
    && (bool_decide (cmd obj1 = WriteInvalidateReq)
        || bool_decide (miss = None)) in
  let warning :=
    if bool_decide (miss = None) then []
    else [EvWarn "WriteInv doing a fastallocatewith an outstanding miss to the same address"] in
  let c2 := set_trace (trace c1 ++ warning) c1 in
  let st := Z.lor BlkValid BlkWritable in
  let fill :=
    (tags_handleFill None (FromPacket pkt) st wbs0 None
       (tags c2, store c2)).1 in
  let c3 := final (handleFill None (FromPacket pkt) st wbs0 None c2) in
  let c4 := set_fastWrites (fastWrites c3 + 1) c3 in
  (if fast then
     access pkt c = accessFinish pkt fill.1 lat size fill.2 c4
     /\ trace c4
        = trace c1 ++ warning
          ++ [EvHandleFill None (FromPacket pkt) st None]
     /\ fastWrites c4 = fastWrites c + 1
   else
     access pkt c = accessFinish pkt None lat size wbs0 c1
     /\ fastWrites c1 = fastWrites c)
  /\
  fastWrites (final (access pkt c))
  = fastWrites c + (if fast then 1 else 0).
Proof.
  intros c0 H0 looked r c1 blk0 lat wbs0 size Hmiss H1 Hsize Hcmd miss fast
    warning c2 st fill c3 c4.
  assert (Hmain :
    if fast then
      access pkt c = accessFinish pkt fill.1 lat size fill.2 c4
      /\ trace c4
         = trace c1 ++ warning
           ++ [EvHandleFill None (FromPacket pkt) st None]
      /\ fastWrites c4 = fastWrites c + 1
    else
      access pkt c = accessFinish pkt None lat size wbs0 c1
      /\ fastWrites c1 = fastWrites c).
  { subst c4 c3 fill st c2 warning fast miss size wbs0 lat blk0 c1 r looked
      c0.
    unfold access. apply Z.leb_le in Hsize.
    destruct (isUncacheable (req obj0)) eqn:Hunc; simpl in *.
    1: assert (obj1 = obj0) by congruence; subst obj1; clear H1 Hmiss.
    1: destruct (prefetchAccess c) eqn:Hpa; revert H0; go'; intros H0; go'.
    3: destruct (prefetchAccess c) eqn:Hpa;
         revert H0 Hmiss H1; go'; intros H0 Hmiss H1; go'.
    all: destruct Hcmd as [Hcmd | Hcmd]; rewrite Hcmd; simpl.
    all: match goal with
         | |- context [coh_allowFastWrites ?x] =>
           destruct (coh_allowFastWrites x) eqn:Hallow
         end; simpl.
    all: try match goal with
         | |- context [mq_findMSHR ?a ?q ?st] =>
           destruct (mq_findMSHR a q st) eqn:Hfind
         end; simpl.
    all: repeat match goal with |- _ /\ _ => split end;
      first [reflexivity | solve_trace]. }
  split; [exact Hmain|].
  destruct fast; destruct Hmain as (E & Hrest); rewrite E.
  - destruct Hrest as [_ Hf].
    rewrite (proj1 (accessFinish_frame _ _ _ _ _ _)). exact Hf.
  - rewrite (proj1 (accessFinish_frame _ _ _ _ _ _)). lia.
Qed.

Lemma satisfiedCount_app (l1 l2 : list Event) :
  satisfiedCount (l1 ++ l2) = (satisfiedCount l1 + satisfiedCount l2)%nat.
Proof.
  unfold satisfiedCount. rewrite List.filter_app, length_app. reflexivity.
Qed.

(** One run of the loop over the writebacks marks the snooped packet
    satisfied at most once, only after the check, and not at all when
    the loop runs out. *)
(** Split on the next test the run is stuck on. *)
Ltac branch :=
  match goal with
  | |- context [if ?b then _ else _] => destruct b eqn:?
  | |- context [match ?x with Some _ => _ | None => _ end] => destruct x eqn:?
  end; simpl.

Ltac finish_sat :=
  split; [unfold satisfiedCount; simpl; lia|];
  split; [intros q Hin; simpl in Hin; intuition congruence|];
  split; [intros; congruence|];
  intros; first [reflexivity | congruence].

Ltac by_none :=
  match goal with
  | Hnone : forall o, _ |- exists ev, _ /\ _ /\ _ /\ (forall x w', ?o = _ -> _) /\ _ =>
    apply (Hnone o); [reflexivity | congruence]
  end.

Lemma snoopWritebacks_satisfies (pkt : PacketPtr) (l : list MSHRPtr)
  (mshr : option MSHRPtr) (w : Cache) :
  exists ev,
    trace (final (snoopWritebacks pkt l mshr w)) = trace w ++ ev
    /\ (satisfiedCount ev <= 1)%nat
    /\ (forall q, In (EvSatisfied q) ev -> q = pkt)
    /\ (forall x w', snoopWritebacks pkt l mshr w = Done (Fallthrough x) w' ->
        w' = w)
    /\ (forall obj,
        heap (store w) !! pkt = Some obj ->
        flagSet SATISFIED obj = true ->
        satisfiedCount ev = 0%nat).
Proof.
  assert (Hnone : forall (o : Outcome Cache (Flow (option MSHRPtr))),
             trace (final o) = trace w ->
             (forall x w', o = Done (Fallthrough x) w' -> w' = w) ->
             exists ev,
               trace (final o) = trace w ++ ev
               /\ (satisfiedCount ev <= 1)%nat
               /\ (forall q, In (EvSatisfied q) ev -> q = pkt)
               /\ (forall x w', o = Done (Fallthrough x) w' -> w' = w)
               /\ (forall obj,
                   heap (store w) !! pkt = Some obj ->
                   flagSet SATISFIED obj = true ->
                   satisfiedCount ev = 0%nat)).
  { intros o Ht Hw. exists []. rewrite app_nil_r.
    repeat split; auto. intros q []. }
  revert mshr. induction l as [|m rest IH]; intros mshr.
  - apply Hnone; [reflexivity|]. intros x w' Heq. inversion Heq. reflexivity.
  - cbn [snoopWritebacks]. go.
    destruct (mshrs (store w) !! m) as [ms|] eqn:Hms; simpl;
      [|by_none].
    destruct (MSHR_pkt ms) as [wp|] eqn:Hwp; simpl;
      [|by_none].
    destruct (heap (store w) !! wp) as [wobj|] eqn:Hwobj; simpl;
      [|by_none].
    destruct (isUncacheable (req wobj)) eqn:Hunc; simpl; [apply IH|].
    clear IH.
    destruct (heap (store w) !! pkt) as [obj|] eqn:Hobj; simpl;
      [|by_none].
    destruct (isRead obj) eqn:Hrd; simpl.
    + destruct (flagSet SATISFIED obj) eqn:Hsat; simpl;
        [by_none|].
      clear Hnone. go. repeat branch.
      all: (eexists; split; [solve_trace|]); finish_sat.
    + clear Hnone. repeat branch.
      all: (eexists; split; [solve_trace|]); finish_sat.
Qed.

Lemma app_eq_self_nil (l ev : list Event) : l = l ++ ev -> ev = [].
Proof.
  intros H. apply (app_inv_head l). rewrite app_nil_r. symmetry. exact H.
Qed.

(** The three facts about a journal stretch with nothing or a known
    list of events in it. *)
Ltac finish_count :=
  split; [unfold satisfiedCount; simpl; lia|];
  split; [intros q Hin; simpl in Hin; intuition congruence|];
  let Heq := fresh "Heq" in
  let Hs := fresh "Hs" in
  intros ? Heq Hs;
  first [ reflexivity
        | congruence
        | injection Heq as <-; rewrite Hs in *; simpl in *; discriminate ].

Ltac known_events := eexists; split; [solve_trace|]; finish_count.

(** What [snoop] writes into the journal about satisfying packets. *)
Lemma snoop_journal_satisfied (c : Cache) (pkt : PacketPtr) :
  let c1 := final (propogateInvalidate pkt true c) in
  exists ev,
    trace (final (snoop pkt c)) = trace c ++ ev
    /\ (satisfiedCount ev <= 1)%nat
    /\ (forall q, In (EvSatisfied q) ev -> q = pkt)
    /\ (forall obj,
        heap (store c1) !! pkt = Some obj ->
        flagSet SATISFIED obj = true ->
        satisfiedCount ev = 0%nat).
Proof.
  intros c1. subst c1. unfold snoop. go.
  destruct (heap (store c) !! pkt) as [obj0|] eqn:H0; simpl;
    [|known_events].
  destruct (isUncacheable (req obj0)) eqn:Hun; simpl; [known_events|].
  set (s1 := (coh_propogateInvalidate pkt true (coherence c, store c)).2).
  set (co1 := (coh_propogateInvalidate pkt true (coherence c, store c)).1).
  destruct (heap s1 !! pkt) as [obj|] eqn:H1; simpl; [|known_events].
  assert (Hbus : forall mshr',
    exists ev,
      trace (final
        ((r ← handleBusRequest pkt (tags_findBlock pkt (tags c) s1) mshr';
          let satisfy := (r.1 : bool) in
          let new_state := (r.2 : Z) in
          if satisfy then
            handleSnoop (tags_findBlock pkt (tags c) s1) new_state (Some pkt);;
            now ← gets curTick;
            hl ← gets hitLatency;
            respondToSnoop pkt (now + hl)
          else
            handleSnoop (tags_findBlock pkt (tags c) s1) new_state None)
         (set_store s1
            (set_coherence co1
               (set_trace (trace c ++ [EvPropogateInvalidate pkt true]) c)))))
      = trace c ++ ev
      /\ (satisfiedCount ev <= 1)%nat
      /\ (forall q, In (EvSatisfied q) ev -> q = pkt)
      /\ (forall obj',
          Some obj = Some obj' ->
          flagSet SATISFIED obj' = true ->
          satisfiedCount ev = 0%nat)).
  { intros mshr'. go. repeat branch; known_events. }
  revert Hbus. go. intros Hbus.
  destruct (coh_hasProtocol co1 || isInvalidate obj) eqn:Hg; simpl;
    [|apply Hbus].
  assert (Hwb :
    exists ev,
      trace (final
        ((flow ←
            (if (mq_findWrites (blkAlign (blkSize c) (getAddr obj))
                   (missQueue c) s1).1
             then
               snoopWritebacks pkt
                 (mq_findWrites (blkAlign (blkSize c) (getAddr obj))
                    (missQueue c) s1).2
                 (mq_findMSHR (blkAlign (blkSize c) (getAddr obj))
                    (missQueue c) s1)
             else
               mret (Fallthrough
                       (mq_findMSHR (blkAlign (blkSize c) (getAddr obj))
                          (missQueue c) s1)));
          match flow with
          | Returned => mret tt
          | Fallthrough mshr' =>
            r ← handleBusRequest pkt (tags_findBlock pkt (tags c) s1) mshr';
            let satisfy := (r.1 : bool) in
            let new_state := (r.2 : Z) in
            if satisfy then
              handleSnoop (tags_findBlock pkt (tags c) s1) new_state
                (Some pkt);;
              now ← gets curTick;
              hl ← gets hitLatency;
              respondToSnoop pkt (now + hl)
            else
              handleSnoop (tags_findBlock pkt (tags c) s1) new_state None
          end)
         (set_store s1
            (set_coherence co1
               (set_trace (trace c ++ [EvPropogateInvalidate pkt true]) c)))))
      = trace c ++ ev
      /\ (satisfiedCount ev <= 1)%nat
      /\ (forall q, In (EvSatisfied q) ev -> q = pkt)
      /\ (forall obj',
          Some obj = Some obj' ->
          flagSet SATISFIED obj' = true ->
          satisfiedCount ev = 0%nat)).
  { revert Hbus; go; intros Hbus.
    destruct (mq_findWrites (blkAlign (blkSize c) (getAddr obj))
                (missQueue c) s1).1; [|apply Hbus].
    match goal with
    | |- context [snoopWritebacks ?p ?l ?m ?w] =>
      destruct (snoopWritebacks_satisfies p l m w)
        as (ev & Ht & Hc & Hq & Hw & Hs);
      destruct (snoopWritebacks p l m w) as [[|x] w'|f w'] eqn:E;
      simpl in Ht, Hs |- *
    end.
    - exists (EvPropogateInvalidate pkt true :: ev).
      rewrite Ht, <- app_assoc.
      split; [reflexivity|]. split; [exact Hc|].
      split; [intros q [Hq'|Hq']; [discriminate|auto]|].
      intros obj' Ho Hsat. apply (Hs obj'); congruence.
    - pose proof (Hw _ _ eq_refl); subst w'. apply Hbus.
    - exists (EvPropogateInvalidate pkt true :: ev).
      rewrite Ht, <- app_assoc.
      split; [reflexivity|]. split; [exact Hc|].
      split; [intros q [Hq'|Hq']; [discriminate|auto]|].
      intros obj' Ho Hsat. apply (Hs obj'); congruence. }
  revert Hwb. go.
  destruct (mq_findMSHR (blkAlign (blkSize c) (getAddr obj)) (missQueue c) s1)
    as [m|] eqn:Hm; simpl; intros Hwb; [|apply Hwb].
  destruct (mshrs s1 !! m) as [ms|] eqn:Hms; simpl; [|known_events].
  destruct (inService ms) eqn:Hserv; simpl; [|apply Hwb].
  clear Hwb Hbus.
  destruct (MSHR_pkt ms) as [mp|] eqn:Hmp; simpl; [|known_events].
  destruct (heap s1 !! mp) as [mobj|] eqn:Hmobj; simpl; [|known_events].
  repeat branch; known_events.
Qed.

(** C4. A run of [snoop] marks a packet satisfied at most once, and
    only the snooped packet.  It never does so to a packet that is
    already marked: the two steps that satisfy a snoop, the NACK and the
    supply of data from a writeback, first assert that the flag is
    clear, and stop the run when it is not. *)
Theorem snoop_satisfies_at_most_once (c : Cache) (pkt : PacketPtr) :
  let c1 := final (propogateInvalidate pkt true c) in
  (exists ev,
     trace (final (snoop pkt c)) = trace c ++ ev
     /\ (satisfiedCount ev <= 1)%nat
     /\ (forall q, In (EvSatisfied q) ev -> q = pkt)
     /\ (forall obj,
         heap (store c1) !! pkt = Some obj ->
         flagSet SATISFIED obj = true ->
         satisfiedCount ev = 0%nat))
  /\
  (forall obj0 obj m ms mp mobj,
     heap (store c) !! pkt = Some obj0 ->
     isUncacheable (req obj0) = false ->
     heap (store c1) !! pkt = Some obj ->
     coh_hasProtocol (coherence c1) || isInvalidate obj = true ->
     mq_findMSHR (blkAlign (blkSize c) (getAddr obj)) (missQueue c1)
       (store c1) = Some m ->
     mshrs (store c1) !! m = Some ms ->
     inService ms = true ->
     MSHR_pkt ms = Some mp ->
     heap (store c1) !! mp = Some mobj ->
     (isInvalidate mobj || negb (isCacheFill mobj))
     && (negb (bool_decide (cmd obj = InvalidateReq))
         && negb (bool_decide (cmd obj = WriteInvalidateReq))) = true ->
     flagSet SATISFIED obj = true ->
     snoop pkt c = Abort (AssertFailed "!(pkt->flags & SATISFIED)") c1)
  /\
  (forall obj0 obj wm rest ms wp wobj,
     heap (store c) !! pkt = Some obj0 ->
     isUncacheable (req obj0) = false ->
     heap (store c1) !! pkt = Some obj ->
     coh_hasProtocol (coherence c1) || isInvalidate obj = true ->
     mq_findMSHR (blkAlign (blkSize c) (getAddr obj)) (missQueue c1)
       (store c1) = None ->
     mq_findWrites (blkAlign (blkSize c) (getAddr obj)) (missQueue c1)
       (store c1) = (true, wm :: rest) ->
     mshrs (store c1) !! wm = Some ms ->
     MSHR_pkt ms = Some wp ->
     heap (store c1) !! wp = Some wobj ->
     isUncacheable (req wobj) = false ->
     isRead obj = true ->
     flagSet SATISFIED obj = true ->
     snoop pkt c = Abort (AssertFailed "!(pkt->flags & SATISFIED)") c1).
Proof.
  intros c1. split; [apply snoop_journal_satisfied|]. subst c1. split.
  - intros obj0 obj m ms mp mobj H0 Hc H1 Hguard Hm Hms Hserv Hmp Hmobj
      Hcond Hsat.
    unfold snoop. unfold_calls. revert H1 Hguard Hm Hms Hmobj.
    run. simpl. intros H1 Hguard Hm Hms Hmobj. go. reflexivity.
  - intros obj0 obj wm rest ms wp wobj H0 Hc H1 Hguard Hm Hw Hms Hwp Hwobj
      Hunc Hrd Hsat.
    unfold snoop. unfold_calls. revert H1 Hguard Hm Hw Hms Hwobj.
    run. simpl. intros H1 Hguard Hm Hw Hms Hwobj. go. reflexivity.
Qed.

(** *** The fix-up loops of a functional probe *)
















End Stage.

(** ** The theorems at work on the sample cache *)

Section OnSample.

Import Sample SampleCache.

#[local] Existing Instance sampleIface.
#[local] Existing Instance sampleEnv.

(** Discharge the premises of [H] one after the other by computation. *)
Ltac feed H :=
  repeat (cbv zeta in H;
          match type of H with
          | ?A -> _ =>
            let Hyp := fresh in
            assert (Hyp : A)
              by (first [ reflexivity
                        | vm_compute; reflexivity
                        | lia
                        | left; reflexivity
                        | right; reflexivity
                        | discriminate ]);
            specialize (H Hyp); clear Hyp
          end).


(** With a protocol, the read 5 of line 64 meets the miss entry 0, in
    service with a writeback, and is nacked; without one it goes to the
    bus-request handler. *)
Lemma snoop_in_service_miss_witness :
  (exists c',
     snoop 5%nat withProtocol = Done tt c'
     /\ heap (store c') !! 5%nat
        = Some (orFlag NACKED_LINE
                  (orFlag SATISFIED (samplePkt ReadReq 64 4 0 0 Unknown)))
     /\ trace c' = [EvPropogateInvalidate 5 true; EvSatisfied 5]
     /\ tags c' = tags withProtocol /\ missQueue c' = missQueue withProtocol
     /\ mshrs (store c') = mshrs (store withProtocol))
  /\ snoop 5%nat noProtocol
     = snoopBusRequest 5%nat None (Some 0%nat)
         (final (propogateInvalidate 5%nat true noProtocol)).
Proof.
  split.
  - destruct (snoop_in_service_miss withProtocol 5%nat _ eq_refl)
      as [_ H].
    destruct (H eq_refl _ eq_refl) as [_ Hprot].
    pose proof (Hprot eq_refl 0%nat (mkMSHR true (Some 1%nat) []) 1%nat
                  (samplePkt Writeback 64 64 0 0 Unknown)
                  eq_refl eq_refl eq_refl eq_refl eq_refl) as Hnack.
    destruct (Hnack eq_refl) as (c' & E & _ & Hp & Ht & Htg & Hmq & Hms & _).
    exists c'. repeat split; assumption.
  - destruct (snoop_in_service_miss noProtocol 5%nat _ eq_refl)
      as [_ H].
    destruct (H eq_refl _ eq_refl) as [Hnone _].
    exact (Hnone eq_refl).
Defined.

(** Without a protocol the same read, on the same miss entry in service
    with a writeback, is neither nacked nor queued: the packet keeps its
    flags and the snoop goes to the bus-request handler. *)
Lemma snoop_without_protocol_neither_nacks_nor_queues :
  mq_findMSHR (blkAlign 64 64) (missQueue noProtocol) (store noProtocol)
  = Some 0%nat
  /\ mshrs (store noProtocol) !! 0%nat = Some (mkMSHR true (Some 1%nat) [])
  /\ (isCacheFill <$> heap (store noProtocol) !! 1%nat) = Some false
  /\ (cmd <$> heap (store noProtocol) !! 5%nat) = Some ReadReq
  /\ exists c',
       snoop 5%nat noProtocol = Done tt c'
       /\ (flags <$> heap (store c') !! 5%nat) = Some 0
       /\ trace c'
          = [EvPropogateInvalidate 5 true;
             EvHandleBusRequest 5 None (Some 0%nat);
             EvHandleSnoop None 0 None].
Proof.
  repeat split; try reflexivity.
  eexists. split; [vm_compute; reflexivity|]. split; reflexivity.
Qed.

(** The full-line [WriteInvalidateReq] 7 misses in the tag store while
    the miss entry 0 is outstanding to its address: with fast writes
    allowed the line is allocated on the fast path. *)
Lemma fast_write_allocate_witness :
  fastWrites (final (access 7%nat withProtocol)) = 1.
Proof.
  pose proof (fast_write_allocate withProtocol 7%nat
                (samplePkt WriteInvalidateReq 64 64 0 0 Unknown)
                (samplePkt WriteInvalidateReq 64 64 0 0 Unknown)) as H.
  feed H. destruct H as [_ H]. exact H.
Defined.

(** The claim as stated fails there: a miss is outstanding to the
    address, the fast allocation is made all the same, and the access
    returns as any other; the only trace of the clash is a warning. *)
Lemma fast_allocate_over_outstanding_miss :
  (cmd <$> heap (store withProtocol) !! 7%nat) = Some WriteInvalidateReq
  /\ mq_findMSHR 64 (missQueue withProtocol) (store withProtocol)
     = Some 0%nat
  /\ exists c',
       access 7%nat withProtocol = Done true c'
       /\ fastWrites c' = fastWrites withProtocol + 1
       /\ trace c'
          = [EvHandleAccess 7 true;
             EvWarn "WriteInv doing a fastallocatewith an outstanding miss to the same address";
             EvHandleFill None (FromPacket 7%nat) 3 None;
             EvRespond 7 11].
Proof.
  repeat split; try reflexivity.
  eexists. split; [vm_compute; reflexivity|]. split; reflexivity.
Qed.

(** The read 12 is already marked satisfied when it meets the miss
    entry 0 in service: the NACK step stops on its assertion. *)
Lemma snoop_satisfies_at_most_once_witness :
  snoop 12%nat withProtocol
  = Abort (AssertFailed "!(pkt->flags & SATISFIED)")
      (final (propogateInvalidate 12%nat true withProtocol)).
Proof.
  pose proof (proj1 (proj2 (snoop_satisfies_at_most_once withProtocol 12%nat))
                (samplePkt ReadReq 64 4 0 2 Unknown)
                (samplePkt ReadReq 64 4 0 2 Unknown)
                0%nat (mkMSHR true (Some 1%nat) []) 1%nat
                (samplePkt Writeback 64 64 0 0 Unknown)) as H.
  feed H. exact H.
Defined.






End OnSample.

End CacheSpec.

(** * The logic of runs *)

Section RunLogic.

Context {W : Type}.

Lemma ensures_ret {A : Type} (a : A) (w : W) (Q : A -> W -> Prop)
  (E : W -> Prop) :
  Q a w -> ensures (mret a) w Q E.
Proof. exact id. Qed.

Lemma ensures_bind {A B : Type} (m : M W A) (k : A -> M W B) (w : W)
  (R : A -> W -> Prop) (Q : B -> W -> Prop) (E : W -> Prop) :
  ensures m w R E ->
  (forall a w', R a w' -> ensures (k a) w' Q E) ->
  ensures (m ≫= k) w Q E.
Proof.
  unfold ensures, mbind, M_bind. intros Hm Hk.
  destruct (m w) as [a w'|f w']; [apply Hk, Hm | exact Hm].
Qed.

Lemma ensures_bind_run {A B : Type} (m : M W A) (k : A -> M W B)
  (w w' : W) (a : A) (Q : B -> W -> Prop) (E : W -> Prop) :
  m w = Done a w' -> ensures (k a) w' Q E -> ensures (m ≫= k) w Q E.
Proof. unfold ensures, mbind, M_bind. intros ->. exact id. Qed.

Lemma ensures_weaken {A : Type} (m : M W A) (w : W)
  (Q Q' : A -> W -> Prop) (E E' : W -> Prop) :
  ensures m w Q E ->
  (forall a w', Q a w' -> Q' a w') ->
  (forall w', E w' -> E' w') ->
  ensures m w Q' E'.
Proof. unfold ensures. destruct (m w); auto. Qed.

Lemma ensures_done {A : Type} (m : M W A) (w w' : W) (a : A)
  (Q : A -> W -> Prop) (E : W -> Prop) :
  ensures m w Q E -> m w = Done a w' -> Q a w'.
Proof. unfold ensures. intros H Hrun. rewrite Hrun in H. exact H. Qed.

Lemma ensures_any {A : Type} (m : M W A) (w : W) :
  ensures m w (fun _ _ => True) (fun _ => True).
Proof. unfold ensures. destruct (m w); exact Logic.I. Qed.

Lemma ensures_of_keeps {A : Type} (I : W -> Prop) (m : M W A) (w : W) :
  keeps I m -> I w -> ensures m w (fun _ w' => I w') (fun _ => True).
Proof.
  intros Hk Hw. eapply ensures_weaken; [apply Hk, Hw | auto | auto].
Qed.

Lemma ensures_keeps_yields {A : Type} (I : W -> Prop) (P : A -> Prop)
  (m : M W A) (w : W) :
  keeps I m -> yields P m -> I w ->
  ensures m w (fun a w' => I w' /\ P a) I.
Proof.
  intros Hk Hy Hw. specialize (Hk w Hw). specialize (Hy w).
  unfold ensures in *. destruct (m w); auto.
Qed.

Lemma ensures_bind_keeps {A B : Type} (I : W -> Prop) (m : M W A)
  (k : A -> M W B) (w : W) (Q : B -> W -> Prop) (E : W -> Prop) :
  keeps I m -> I w -> (forall w', I w' -> E w') ->
  (forall a w', I w' -> ensures (k a) w' Q E) ->
  ensures (m ≫= k) w Q E.
Proof.
  intros Hk Hw HE Hrest.
  eapply ensures_bind with (R := fun _ w' => I w').
  - eapply ensures_weaken; [apply Hk, Hw | auto | exact HE].
  - exact Hrest.
Qed.

Lemma ensures_final {A : Type} (m : M W A) (w : W) (Q : A -> W -> Prop)
  (E : W -> Prop) :
  ensures m w Q E -> (forall a w', Q a w' -> E w') -> E (final (m w)).
Proof. unfold ensures. destruct (m w); simpl; eauto. Qed.

Lemma keeps_final {A : Type} (I : W -> Prop) (m : M W A) (w : W) :
  keeps I m -> I w -> I (final (m w)).
Proof.
  intros Hk Hw. specialize (Hk w Hw). unfold ensures in Hk.
  destruct (m w); exact Hk.
Qed.

Lemma keeps_ret {A : Type} (I : W -> Prop) (a : A) : keeps I (mret a).
Proof. intros w Hw. exact Hw. Qed.

Lemma keeps_bind {A B : Type} (I : W -> Prop) (m : M W A) (k : A -> M W B) :
  keeps I m -> (forall a, keeps I (k a)) -> keeps I (m ≫= k).
Proof.
  intros Hm Hk w Hw. eapply ensures_bind; [apply Hm, Hw|].
  intros a w' Hw'. apply Hk, Hw'.
Qed.

Lemma keeps_gets {A : Type} (I : W -> Prop) (f : W -> A) : keeps I (gets f).
Proof. intros w Hw. exact Hw. Qed.

Lemma keeps_modify (I : W -> Prop) (f : W -> W) :
  (forall w, I w -> I (f w)) -> keeps I (modify f).
Proof. intros Hf w Hw. apply Hf, Hw. Qed.

Lemma keeps_abort {A : Type} (I : W -> Prop) (f : Failure) :
  keeps I (abort f : M W A).
Proof. intros w Hw. exact Hw. Qed.

Lemma keeps_assert (I : W -> Prop) (b : bool) (what : string) :
  keeps I (assert b what : M W unit).
Proof. intros w Hw. destruct b; exact Hw. Qed.

Lemma keeps_when (I : W -> Prop) (b : bool) (body : M W unit) :
  keeps I body -> keeps I (when b body).
Proof. intros Hb. destruct b; [exact Hb | apply keeps_ret]. Qed.

Lemma keeps_deref {A : Type} (I : W -> Prop) (o : option A) :
  keeps I (deref o : M W A).
Proof. intros w Hw. destruct o; exact Hw. Qed.

Lemma keeps_forEach {A : Type} (I : W -> Prop) (l : list A)
  (body : A -> M W unit) :
  (forall x, keeps I (body x)) -> keeps I (forEach l body).
Proof.
  intros Hb. induction l as [|x l IH]; simpl.
  - apply keeps_ret.
  - apply keeps_bind; [apply Hb | intros _; exact IH].
Qed.

Lemma yields_ret {A : Type} (P : A -> Prop) (a : A) :
  P a -> yields (W := W) P (mret a).
Proof. intros H w. exact H. Qed.

Lemma yields_abort {A : Type} (P : A -> Prop) (f : Failure) :
  yields (W := W) P (abort f).
Proof. intros w. exact Logic.I. Qed.

Lemma yields_bind {A B : Type} (P : B -> Prop) (m : M W A)
  (k : A -> M W B) :
  (forall a, yields P (k a)) -> yields P (m ≫= k).
Proof.
  intros Hk w. eapply ensures_bind; [apply ensures_any|].
  intros a w' _. apply Hk.
Qed.

Lemma yields_done {A : Type} (P : A -> Prop) (m : M W A) (w w' : W)
  (a : A) :
  yields P m -> m w = Done a w' -> P a.
Proof. intros Hy Hrun. exact (ensures_done _ _ _ _ _ _ (Hy w) Hrun). Qed.

End RunLogic.

(** One step of a proof that a function keeps an invariant: the
    structure of the body decides the rule; [side] closes the goals that
    each change of the world leaves. *)
Ltac keeps_step side :=
  first
    [ assumption
    | apply keeps_ret
    | apply keeps_gets
    | apply keeps_abort
    | apply keeps_assert
    | apply keeps_deref
    | apply keeps_modify; side
    | apply keeps_when
    | apply keeps_forEach; intros ?
    | progress cbn beta iota zeta delta [negb andb orb]
    | match goal with
      | |- keeps _ (if ?b then _ else _) => destruct b
      | |- keeps _ (match ?x with _ => _ end) => destruct x
      end
    | apply keeps_bind; [|intros ?] ].

Ltac keeps_with side := repeat keeps_step side.

Ltac by_refl := reflexivity.

(** The same for the results: only the tail of the body matters. *)
Ltac yields_step leaf :=
  first
    [ apply yields_ret; leaf
    | apply yields_abort
    | progress cbn beta iota zeta delta [negb andb orb]
    | match goal with
      | |- yields _ (if ?b then _ else _) => destruct b
      | |- yields _ (match ?x with _ => _ end) => destruct x
      end
    | apply yields_bind; intros ? ].

(** * Properties of the system object *)

Module SystemSpec.

Import System.

Lemma int32_small (z : Z) : - 2 ^ 31 <= z < 2 ^ 31 -> int32 z = z.
Proof. intros H. unfold int32. rewrite Z.mod_small; lia. Qed.

Lemma uint64_small (z : Z) : 0 <= z < 2 ^ 64 -> uint64 z = z.
Proof. intros H. unfold uint64. apply Z.mod_small, H. Qed.

Lemma uint64_range (z : Z) : 0 <= uint64 z < 2 ^ 64.
Proof. unfold uint64. apply Z.mod_pos_bound. lia. Qed.

Lemma uint64_add_l (a b : Z) : uint64 (uint64 a + b) = uint64 (a + b).
Proof. unfold uint64. apply Zplus_mod_idemp_l. Qed.

(** Two values less than [2^64] apart wrap to different words. *)
Lemma uint64_inj (p i j : Z) :
  0 <= i < 2 ^ 64 -> 0 <= j < 2 ^ 64 ->
  uint64 (p + i) = uint64 (p + j) -> i = j.
Proof.
  unfold uint64. intros Hi Hj H.
  assert (Hd : (p + i - (p + j)) mod 2 ^ 64 = 0).
  { rewrite Zminus_mod, H, Z.sub_diag. reflexivity. }
  replace (p + i - (p + j)) with (i - j) in Hd by lia.
  apply Z.mod_divide in Hd; [|lia].
  destruct Hd as [k Hk].
  assert (k = 0) by nia. lia.
Qed.

(** The counting loop counts the entries that are set, as long as the
    count fits an [int]. *)
Lemma countActive_fold (cpus : list bool) (acc : Z) :
  0 <= acc ->
  acc + Z.of_nat (length cpus) < 2 ^ 31 ->
  fold_left (fun count b => if b : bool then int32 (count + 1) else count)
    cpus acc
  = acc + Z.of_nat (count_occ bool_dec cpus true).
Proof.
  revert acc. induction cpus as [|b cpus IH]; intros acc H0 Hlen; simpl.
  - lia.
  - simpl in Hlen. destruct b; simpl.
    + rewrite int32_small by lia. rewrite IH by lia. lia.
    + rewrite IH by lia. lia.
Qed.

Lemma count_occ_insert_true (cpus : list bool) (i : nat) :
  (i < length cpus)%nat ->
  (1 <= count_occ bool_dec (<[i := true]> cpus) true)%nat.
Proof.
  revert i. induction cpus as [|b cpus IH]; intros i Hi; simpl in *.
  - lia.
  - destruct i as [|i]; simpl.
    + lia.
    + specialize (IH i ltac:(lia)). destruct b; simpl; lia.
Qed.

Section Inline.

Context {SymbolTable : Type} `{SE : !SystemEnv SymbolTable}.

#[local] Abbreviation Sys := (SystemState SymbolTable).

(** X1. The three mode tests never contradict each other: a system is
    never in timing mode and in atomic mode at once, it bypasses the
    caches only in atomic mode, and it is in neither mode exactly when
    its memory mode is [invalid]. *)
Theorem memory_mode_tests_agree (s : Sys) :
  isTimingMode s && isAtomicMode s = false
  /\ bypassCaches s && negb (isAtomicMode s) = false
  /\ negb (isAtomicMode s) && negb (isTimingMode s)
     = bool_decide (memoryMode s = invalid).
Proof.
  unfold isTimingMode, isAtomicMode, bypassCaches.
  destruct (memoryMode s); auto.
Qed.

(** X2. [n] calls of [allocatePID] in a row, [n] at most [2^64], return
    the [n] words that follow [nextPID], wrapping at [2^64]: no two of
    them are the same. *)
Theorem allocatePID_never_repeats (n : nat) (s : Sys) :
  0 <= nextPID s < 2 ^ 64 ->
  Z.of_nat n <= 2 ^ 64 ->
  exists s',
    let pids := map (fun i => uint64 (nextPID s + Z.of_nat i)) (seq 0 n) in
    callN n allocatePID s = Done pids s'
    /\ NoDup pids
    /\ nextPID s' = uint64 (nextPID s + Z.of_nat n).
Proof.
  intros Hrange Hn.
  assert (Hrun : exists s',
             callN n allocatePID s
             = Done (map (fun i => uint64 (nextPID s + Z.of_nat i)) (seq 0 n)) s'
             /\ nextPID s' = uint64 (nextPID s + Z.of_nat n)).
  { clear Hn. revert s Hrange.
    induction n as [|n IH]; intros s Hrange.
    - exists s. simpl. rewrite Z.add_0_r, uint64_small by lia. auto.
    - pose (s1 := set_nextPID (uint64 (nextPID s + 1)) s).
      destruct (IH s1 (uint64_range _)) as (s' & Hrun & Hnext).
      exists s'. cbn [callN]. unfold mbind, M_bind.
      change (allocatePID s) with (Done (nextPID s) s1). cbv beta iota.
      rewrite Hrun. simpl. rewrite Hnext. simpl.
      rewrite uint64_add_l. split.
      + f_equal. f_equal.
        * change (Z.of_nat 0) with 0. rewrite Z.add_0_r.
          symmetry. apply uint64_small, Hrange.
        * rewrite <- seq_shift, List.map_map. apply List.map_ext.
          intros i. rewrite uint64_add_l. f_equal. lia.
      + f_equal. lia. }
  destruct Hrun as (s' & Hrun & Hnext).
  exists s'. cbv zeta. repeat split; auto.
  apply NoDup_fmap_2_strong; [|apply NoDup_seq].
  intros i j Hi Hj Heq.
  apply elem_of_seq in Hi, Hj.
  apply uint64_inj in Heq; lia.
Qed.

(** X3. [markWorkItem] on an index inside the vector marks that CPU and
    returns how many CPUs are marked, a number between 1 and the size
    of the vector; marking the same CPU again changes nothing and
    returns the same count.  On an index outside the vector, negative
    ones included, the run stops on the assertion with nothing
    marked. *)
Theorem markWorkItem_counts_marked (s : Sys) (index : Z) :
  Z.of_nat (length (activeCpus s)) < 2 ^ 31 ->
  - 2 ^ 31 <= index < 2 ^ 31 ->
  if bool_decide (0 <= index < Z.of_nat (length (activeCpus s))) then
    exists s',
      let marked := <[Z.to_nat index := true]> (activeCpus s) in
      let count := Z.of_nat (count_occ bool_dec marked true) in
      markWorkItem index s = Done count s'
      /\ activeCpus s' = marked
      /\ 1 <= count <= Z.of_nat (length (activeCpus s))
      /\ markWorkItem index s' = Done count s'
  else
    markWorkItem index s
    = Abort (AssertFailed "index < activeCpus.size()") s.
Proof.
  intros Hlen Hidx. case_bool_decide as Hin.
  - assert (Hu : uint64 index = index) by (apply uint64_small; lia).
    assert (Hlt : (uint64 index <? Z.of_nat (length (activeCpus s))) = true)
      by (apply Z.ltb_lt; lia).
    set (marked := <[Z.to_nat index := true]> (activeCpus s)).
    assert (Hc : countActive marked
                 = Z.of_nat (count_occ bool_dec marked true)).
    { unfold countActive. rewrite countActive_fold;
        [lia | lia | subst marked; rewrite length_insert; lia]. }
    exists (set_activeCpus marked s).
    unfold markWorkItem. run. simpl. rewrite Hu in *. rewrite Hlt.
    fold marked. simpl.
    rewrite Hc. split; [reflexivity|]. split; [reflexivity|]. split.
    + pose proof (count_occ_insert_true (activeCpus s) (Z.to_nat index)
                    ltac:(lia)).
      pose proof (count_occ_bound bool_dec true marked) as Hb.
      subst marked. rewrite length_insert in Hb. lia.
    + assert (Hagain : <[Z.to_nat index := true]> marked = marked)
        by apply list_insert_insert_eq.
      unfold marked at 1. rewrite length_insert, Hlt, Hagain, Hc.
      reflexivity.
  - assert (Hlt : (uint64 index <? Z.of_nat (length (activeCpus s))) = false).
    { apply Z.ltb_ge. destruct (Z_lt_dec index 0) as [Hneg|Hpos].
      - unfold uint64.
        replace index with (index + 2 ^ 64 + (-1) * 2 ^ 64) by lia.
        rewrite Z.mod_add by lia. rewrite Z.mod_small; lia.
      - rewrite uint64_small; lia. }
    unfold markWorkItem. run. rewrite Hlt. reflexivity.
Qed.

(** X4. [addFuncEventOrPanic] never returns a null event: when it returns,
    the ISA is not the null ISA, the label is in the symbol table, and
    the result is a new event that carries the description (the label
    itself when no description was given).  On an object of the base
    class it never returns at all: it panics in [fixFuncEventAddr] when
    the label is known and on the missing symbol when it is not. *)
Theorem addFuncEventOrPanic_never_null (s : Sys) (symtab : SymbolTable)
  (lbl : string) (args : list string) :
  (forall e s',
     addFuncEventOrPanic symtab lbl args s = Done e s' ->
     NULL_ISA = false
     /\ exists n addr fixed,
          e = Some n
          /\ findAddress symtab lbl = Some addr
          /\ pcEvents s' !! n
             = Some (mkFuncEvent (default lbl (head args)) fixed))
  /\ (fixFuncEventAddr_override = None ->
      addFuncEventOrPanic symtab lbl args s
      = Abort (Panic (if negb NULL_ISA && bool_decide (is_Some (findAddress symtab lbl))
                      then "Base fixFuncEventAddr not implemented."
                      else "Failed to find symbol '" ++ lbl ++ "'")) s).
Proof.
  split.
  - intros e s'.
    unfold addFuncEventOrPanic, addFuncEvent_args, addFuncEvent_lbl,
      addFuncEvent.
    destruct NULL_ISA; simpl.
    { destruct args; run; simpl; discriminate. }
    destruct (findAddress symtab lbl) as [addr|] eqn:Hfind.
    2:{ destruct args; run; simpl; discriminate. }
    assert (Hgen : forall desc,
              (e0 ← (fixed ← fixFuncEventAddr addr;
                     evs ← gets pcEvents;
                     modify (set_pcEvents (evs ++ [mkFuncEvent desc fixed]));;
                     mret (Some (length evs)));
               (if bool_decide (e0 = None)
                then abort (Panic ("Failed to find symbol '" ++ lbl ++ "'"))
                else mret tt);;
               mret e0) s = Done e s' ->
              exists n fixed,
                e = Some n
                /\ pcEvents s' !! n = Some (mkFuncEvent desc fixed)).
    { intros desc. run.
      destruct (fixFuncEventAddr addr s) as [fixed s1|f s1]; simpl;
        [|discriminate].
      intros [= <- <-]. exists (length (pcEvents s1)), fixed.
      split; [reflexivity|]. simpl.
      rewrite lookup_app_r by lia. rewrite Nat.sub_diag. reflexivity. }
    destruct args as [|desc args]; simpl; intros Hrun;
      apply Hgen in Hrun; destruct Hrun as (n & fixed & -> & Hev);
      split; eauto 10.
  - intros Hbase.
    unfold addFuncEventOrPanic, addFuncEvent_args, addFuncEvent_lbl,
      addFuncEvent, fixFuncEventAddr.
    rewrite Hbase.
    destruct NULL_ISA; simpl.
    { destruct args; reflexivity. }
    destruct (findAddress symtab lbl) as [addr|] eqn:Hfind;
      destruct args; reflexivity.
Qed.

End Inline.

(** ** The theorems at work on the sample system *)

Section OnSample.

Import SampleSystem.

(** Three PIDs from the last but one word: the counter wraps to 0 and
    no PID repeats. *)
Lemma allocatePID_never_repeats_witness :
  exists s',
    callN 3 (allocatePID (SymbolTable := list (string * Z))) sampleSystem
    = Done [2 ^ 64 - 2; 2 ^ 64 - 1; 0] s'
    /\ nextPID s' = 1.
Proof.
  destruct (allocatePID_never_repeats 3 sampleSystem)
    as (s' & Hrun & _ & Hnext).
  - simpl. lia.
  - simpl. lia.
  - exists s'. split; [exact Hrun | exact Hnext].
Defined.

Lemma markWorkItem_counts_marked_witness :
  (exists s',
     markWorkItem 2 sampleSystem = Done 2 s'
     /\ activeCpus s' = [false; true; true; false]
     /\ markWorkItem 2 s' = Done 2 s')
  /\ markWorkItem (-1) sampleSystem
     = Abort (AssertFailed "index < activeCpus.size()") sampleSystem.
Proof.
  split.
  - destruct (markWorkItem_counts_marked sampleSystem 2)
      as (s' & Hrun & Hcpus & _ & Hagain); [simpl; lia | lia |].
    exists s'. split; [exact Hrun|]. split; [exact Hcpus | exact Hagain].
  - apply (markWorkItem_counts_marked sampleSystem (-1));
      [simpl; lia | lia].
Defined.

Lemma addFuncEventOrPanic_never_null_witness :
  (let s' := final (addFuncEventOrPanic (SE := derivedSystemEnv) sampleSymtab
                      "idle" [] sampleSystem) in
   exists fixed, pcEvents s' !! 0%nat = Some (mkFuncEvent "idle" fixed))
  /\ addFuncEventOrPanic (SE := baseSystemEnv) sampleSymtab "idle" []
       sampleSystem
     = Abort (Panic "Base fixFuncEventAddr not implemented.") sampleSystem
  /\ addFuncEventOrPanic (SE := baseSystemEnv) sampleSymtab "halt" ["h"%string]
       sampleSystem
     = Abort (Panic "Failed to find symbol 'halt'") sampleSystem.
Proof.
  split; [|split].
  - intros s'.
    destruct (proj1 (addFuncEventOrPanic_never_null
                       (SE := derivedSystemEnv) sampleSystem sampleSymtab
                       "idle" []) (Some 0%nat) s' eq_refl)
      as (_ & n & addr & fixed & Hn & _ & Hev).
    injection Hn as <-. exists fixed. exact Hev.
  - apply (proj2 (addFuncEventOrPanic_never_null
                    (SE := baseSystemEnv) sampleSystem sampleSymtab
                    "idle" [])).
    reflexivity.
  - apply (proj2 (addFuncEventOrPanic_never_null
                    (SE := baseSystemEnv) sampleSystem sampleSymtab
                    "halt" ["h"%string])).
    reflexivity.
Defined.

End OnSample.

End SystemSpec.

(** * More properties of the timing CPU *)

Module PipelineSpec.

Import TimingCPU PipelineViews.

Section Pipeline.

Context `{PI : PacketIface} {Arch Peer : Type}.
Context `{ENV : !CpuEnv Arch} `{LINK : !Link Peer}.

#[local] Abbreviation World := (World Arch Peer).

Lemma keeps_modify2 (I : World -> Prop) (f g : World -> World) :
  (forall w, I w -> I (g (f w))) -> keeps I (modify f;; modify g).
Proof. intros H w Hw. apply H, Hw. Qed.

Lemma keeps_callThread {A : Type} (I : World -> Prop)
  (f : Arch -> A * Arch) :
  (forall w a, I w -> I (set_thread a w)) -> keeps I (callThread f).
Proof. intros H w Hw. apply H, Hw. Qed.

Lemma keeps_newPacket (I : World -> Prop) (r : Request)
  (c : Packet.Command) (d : Packet.Dest) :
  (forall w h, I w -> I (set_heap h w)) -> keeps I (newPacket r c d).
Proof. intros H w Hw. apply H, Hw. Qed.

Lemma keeps_sendTiming (I : World -> Prop) (port : PortName)
  (p : PacketPtr) :
  (forall w h m o, I w -> I (log_offer o (set_heap h (set_peer m w)))) ->
  keeps I (sendTiming port p).
Proof. intros H w Hw. apply H, Hw. Qed.

(** The rules for the calls that leave the pipeline. *)
Ltac keeps_calls side :=
  first [ apply keeps_callThread; side
        | apply keeps_newPacket; side
        | apply keeps_sendTiming; side
        | apply keeps_modify2; side ].

Ltac keeps_cpu known side :=
  repeat first [ known | keeps_calls side | keeps_step side ].

Ltac unfold_cpu :=
  unfold enter, recvTiming, recvRetry, read, write, advanceInst,
    completeDrain, doInitiateAcc,
    completeIfetch, completeDataAccess, IcachePort_recvTiming,
    IcachePort_recvRetry, DcachePort_recvTiming, DcachePort_recvRetry,
    drain, load, store, deletePacket, runThread.

(** *** Cycle accounting *)

Ltac tick_side :=
  solve [ unfold atTick, allCounted, cyclesSoFar; simpl; intros;
          intuition lia ].

Lemma fetch_keeps_atTick (total now : Z) (fuel : nat) :
  keeps (atTick total now) (fetch fuel).
Proof.
  induction fuel as [|n IH]; cbn [fetch].
  - apply keeps_abort.
  - unfold_cpu. keeps_cpu fail tick_side.
Qed.

Lemma fetch_keeps_allCounted (fuel : nat) :
  keeps (allCounted (Arch := Arch) (Peer := Peer)) (fetch fuel).
Proof.
  induction fuel as [|n IH]; cbn [fetch].
  - apply keeps_abort.
  - unfold_cpu. keeps_cpu fail tick_side.
Qed.

Lemma enter_keeps_atTick (total now : Z) (fuel : nat) (e : Entry) :
  keeps (atTick total now) (enter fuel e).
Proof.
  pose proof (fetch_keeps_atTick total now) as Hfetch.
  destruct e as [| | |[|]|[|]| | |]; unfold_cpu;
    keeps_cpu ltac:(apply Hfetch) tick_side.
Qed.

Ltac to_count known :=
  lazymatch goal with
  | |- ensures (mbind _ (modify countCycles)) _ _ _ =>
    eapply ensures_bind with (R := fun _ w' => allCounted w');
    [ exact eq_refl
    | intros ? ? ?; apply ensures_of_keeps;
      [ unfold_cpu; keeps_cpu known tick_side | assumption ] ]
  | |- ensures (modify countCycles) _ _ _ => exact eq_refl
  | |- ensures (mbind _ _) _ _ _ =>
    eapply ensures_bind with (R := fun _ _ => True);
    [ apply ensures_any | intros ? ? _ ]
  | |- ensures (match ?x with _ => _ end) _ _ _ => destruct x
  end.

Lemma enter_returns_allCounted (fuel : nat) (e : Entry) (w : World) :
  countsCycles e = true ->
  ensures (enter fuel e) w (fun _ w' => allCounted w') (fun _ => True).
Proof.
  pose proof (@fetch_keeps_allCounted) as Hfetch.
  destruct e; try discriminate; intros _; cbn [enter].
  - destruct fuel as [|n]; [exact Logic.I|]. cbn [fetch].
    repeat to_count fail.
  - unfold completeIfetch. repeat to_count ltac:(apply Hfetch).
  - unfold completeDataAccess. repeat to_count ltac:(apply Hfetch).
Qed.

(** X5. Every cycle is counted once.  Whatever entry the pipeline is
    entered through, and however the run ends, the current tick stays
    what it was and so does the number of cycles up to it, counted and
    not yet counted together.  When [fetch], [completeIfetch] or
    [completeDataAccess] returns, all of them are counted: [numCycles]
    has grown by the ticks since [previousTick], and [previousTick] is
    the current tick; this holds however many faulting fetches the call
    chained. *)
Theorem pipeline_counts_each_cycle_once (fuel : nat) (e : Entry)
  (w : World) :
  let w' := final (enter fuel e w) in
  cyclesSoFar w' = cyclesSoFar w
  /\ curTick w' = curTick w
  /\ (countsCycles e = true ->
      enter fuel e w = Done tt w' ->
      numCycles w' = numCycles w + (curTick w - previousTick w)
      /\ previousTick w' = curTick w).
Proof.
  intros w'.
  pose proof (keeps_final _ _ w
                (enter_keeps_atTick (cyclesSoFar w) (curTick w) fuel e)
                (conj eq_refl eq_refl)) as [Htotal Hnow].
  fold w' in Htotal, Hnow.
  split; [exact Htotal|]. split; [exact Hnow|].
  intros Hc Hrun.
  pose proof (ensures_done _ _ _ _ _ _
                (enter_returns_allCounted fuel e w Hc) Hrun) as Hall.
  unfold allCounted, cyclesSoFar in *. lia.
Qed.

(** *** The retry states and the packet they wait with *)

Ltac retry_side :=
  solve [ unfold retryHoldsPacket; simpl; intros;
          intuition (try discriminate; try congruence) ].

(** The sending blocks of [fetch] and [write] enter the retry state
    with the packet they have just read from the member. *)
Lemma fetch_send_keeps_retry :
  keeps (retryHoldsPacket (Arch := Arch) (Peer := Peer))
    (cur ← gets ifetch_pkt;
     tmp ← deref cur;
     ok ← sendTiming icachePort tmp;
     if negb ok then
       modify (set_status IcacheRetry)
     else
       modify (set_status IcacheWaitResponse);;
       modify (set_ifetch_pkt None)).
Proof.
  intros w Hw. unfold ensures, sendTiming. run.
  destruct (ifetch_pkt w) as [p|] eqn:Hp; simpl; [|exact Hw].
  destruct (peer_recvTiming icachePort p (peer w, heap w)).1; simpl;
    unfold retryHoldsPacket in *; simpl;
    intuition (try discriminate; try congruence).
Qed.

Lemma write_send_keeps_retry :
  keeps (retryHoldsPacket (Arch := Arch) (Peer := Peer))
    (cur ← gets dcache_pkt;
     tmp ← deref cur;
     ok ← sendTiming dcachePort tmp;
     if negb ok then
       modify (set_status DcacheRetry)
     else
       modify (set_status DcacheWaitResponse);;
       modify (set_dcache_pkt None)).
Proof.
  intros w Hw. unfold ensures, sendTiming. run.
  destruct (dcache_pkt w) as [p|] eqn:Hp; simpl; [|exact Hw].
  destruct (peer_recvTiming dcachePort p (peer w, heap w)).1; simpl;
    unfold retryHoldsPacket in *; simpl;
    intuition (try discriminate; try congruence).
Qed.

Ltac retry_known :=
  first [ apply fetch_send_keeps_retry | apply write_send_keeps_retry ].

Lemma fetch_keeps_retry (fuel : nat) :
  keeps (retryHoldsPacket (Arch := Arch) (Peer := Peer)) (fetch fuel).
Proof.
  induction fuel as [|n IH]; cbn [fetch].
  - apply keeps_abort.
  - unfold_cpu. keeps_cpu retry_known retry_side.
Qed.

Ltac running_side :=
  solve [ unfold runningAnd, retryHoldsPacket; simpl; intros;
          intuition (try discriminate; try congruence) ].

Lemma early_completion_keeps_retry (fuel : nat) (i : Inst) (fault : Fault) :
  keeps (retryHoldsPacket (Arch := Arch) (Peer := Peer))
    (st' ← gets _status;
     if negb (bool_decide (st' = Running)) then
       assert (bool_decide (st' = DcacheWaitResponse)
               || bool_decide (st' = DcacheRetry))
         "_status == DcacheWaitResponse || _status == DcacheRetry";;
       assert (bool_decide (fault = NoFault)) "fault == NoFault"
     else
       fault' ←
         (if bool_decide (fault = NoFault) then
            cur ← gets dcache_pkt;
            assert (negb (bool_decide (cur = None))) "dcache_pkt != NULL";;
            dp ← deref cur;
            dobj ← load dp;
            f ← callThread (completeAcc i dobj);
            deletePacket dp;;
            modify (set_dcache_pkt None);;
            mret f
          else mret fault);
       runThread postExecute;;
       advanceInst (fetch fuel) fault').
Proof.
  pose proof (fetch_keeps_retry fuel) as Hfetch.
  intros w Hw.
  eapply ensures_bind with (R := fun a w' => w' = w /\ a = _status w);
    [split; reflexivity|].
  intros st' w' [-> ->].
  destruct (bool_decide (_status w = Running)) eqn:Hst; simpl.
  - apply bool_decide_eq_true in Hst.
    eapply ensures_bind with (R := fun _ w' => retryHoldsPacket w').
    + eapply ensures_weaken
        with (Q := fun _ w' => runningAnd retryHoldsPacket w')
             (E := runningAnd retryHoldsPacket).
      * assert (Hblock :
          keeps (runningAnd (retryHoldsPacket (Arch := Arch) (Peer := Peer)))
            (if bool_decide (fault = NoFault) then
               cur ← gets dcache_pkt;
               assert (negb (bool_decide (cur = None))) "dcache_pkt != NULL";;
               dp ← deref cur;
               dobj ← load dp;
               f ← callThread (completeAcc i dobj);
               deletePacket dp;;
               modify (set_dcache_pkt None);;
               mret f
             else mret fault)).
        { unfold_cpu. keeps_cpu fail running_side. }
        apply Hblock. split; assumption.
      * intros _ w1 [H1 _]. exact H1.
      * intros w1 [H1 _]. exact H1.
    + intros fault' w1 Hw1. revert w1 Hw1.
      change (keeps retryHoldsPacket
                (runThread postExecute;; advanceInst (fetch fuel) fault')).
      unfold_cpu. keeps_cpu ltac:(apply Hfetch) retry_side.
  - eapply ensures_bind with (R := fun _ w' => retryHoldsPacket w').
    + apply keeps_assert, Hw.
    + intros _ w1 Hw1. apply keeps_assert, Hw1.
Qed.

Lemma enter_keeps_retry (fuel : nat) (e : Entry) :
  keeps (retryHoldsPacket (Arch := Arch) (Peer := Peer)) (enter fuel e).
Proof.
  pose proof (fetch_keeps_retry fuel) as Hfetch.
  destruct e as [| | |[|]|[|]| | |]; unfold_cpu;
    keeps_cpu ltac:(first [ apply Hfetch
                          | apply early_completion_keeps_retry
                          | retry_known ]) retry_side.
Qed.

(** X6. A pipeline in a retry state holds the packet to retry, always: if
    the instruction port's packet is there whenever the status is
    [IcacheRetry] and the data port's whenever it is [DcacheRetry], the
    same is true in the world that any entry into the pipeline leaves,
    whether the entry returns or stops.  So the first assertion of
    [recvRetry] cannot fail when the second holds. *)
Theorem retry_state_holds_packet (fuel : nat) (e : Entry) (w : World) :
  retryHoldsPacket w ->
  retryHoldsPacket (final (enter fuel e w)).
Proof. intros Hw. apply keeps_final; [apply enter_keeps_retry | exact Hw]. Qed.

(** *** What [fetch] and [write] send *)

(** X7. A [fetch] whose request sets up without a fault offers one new
    read packet on the instruction port.  If the peer accepts it the
    pipeline waits for the response and holds no packet; if the peer
    rejects it the pipeline is in [IcacheRetry] and holds that very
    packet. *)
Theorem fetch_offers_one_packet (fuel : nat) (w : World) (req' : Request)
  (a' : Arch) :
  setupFetchRequest (mkRequest 0 0 0 0 0 (cpu_id w) 0 (curTick w))
    (fetchThread w) = (NoFault, req', a') ->
  let pkt := newAddr (heap w) in
  let obj := mkPacket Packet.ReadReq req' Packet.Broadcast (getVaddr req')
               (req_size req') 0 Packet.Unknown [] None (curTick w) in
  let ok := (peer_recvTiming icachePort pkt
               (peer w, <[pkt := obj]> (heap w))).1 in
  exists w',
    fetch (S fuel) w = Done tt w'
    /\ offered w' = offered w ++ [(icachePort, pkt, ok)]
    /\ _status w' = (if ok then IcacheWaitResponse else IcacheRetry)
    /\ ifetch_pkt w' = (if ok then None else Some pkt)
    /\ thread w' = a'.
Proof.
  intros Hsetup pkt obj ok. subst pkt obj.
  cbn [fetch]. unfold fetchThread in Hsetup.
  unfold callThread, runThread, newPacket, sendTiming. run.
  destruct (match curStaticInst (thread w) with
            | Some i => negb (isDelayedCommit i)
            | None => true
            end); simpl; rewrite Hsetup; simpl; fold ok;
    destruct ok; simpl; eexists; repeat split; reflexivity.
Qed.

(** X8. A store-conditional that fails its check is not sent: [write]
    builds the packet with the data, keeps it in [dcache_pkt], offers
    nothing and leaves the status alone. *)
Theorem failed_store_conditional_is_not_sent (w : World) (data : list Z)
  (addr sizeofT wflags : Z) (req1 r2 : Request) (a' a2 : Arch) :
  translateDataWriteReq
    (mkRequest 0 addr sizeofT wflags (readPC (thread w)) (cpu_id w) 0
       (curTick w))
    (thread w) = (NoFault, req1, a') ->
  dcache_pkt w = None ->
  isLocked req1 = true ->
  handleLockedWrite req1 a' = (false, r2, a2) ->
  exists w' obj,
    let pkt := newAddr (heap w) in
    write data addr sizeofT wflags w = Done NoFault w'
    /\ offered w' = offered w
    /\ _status w' = _status w
    /\ dcache_pkt w' = Some pkt
    /\ heap w' !! pkt = Some obj
    /\ cmd obj = Packet.WriteReq /\ getPtr obj = data /\ req obj = r2
    /\ thread w' = a2.
Proof.
  intros Htr Hnull Hlock Hsc.
  unfold write, callThread, runThread, newPacket, store, load. run.
  use_eqs.
  destruct (isUncacheable r2); simpl;
    (eexists _, _; split; [reflexivity|]); simpl;
    rewrite lookup_insert_eq; repeat split.
Qed.

(** X9. The instruction of such a store completes in the call of
    [completeIfetch] that started it: the packet goes to [completeAcc],
    is freed, and [dcache_pkt] is null again when the pipeline advances;
    the data port has seen nothing. *)
Theorem failed_store_conditional_completes_at_once (fuel : nat) (w : World)
  (ipkt : PacketPtr) (iobj : PacketObj) (i : Inst) (data : list Z)
  (addr sizeofT wflags : Z) (req1 r2 : Request) (a2 a3 a4 a5 : Arch)
  (fault' : Fault) :
  heap w !! ipkt = Some iobj ->
  result iobj = Packet.Success ->
  _status w = IcacheWaitResponse ->
  getState w <> SimObject.Draining ->
  dcache_pkt w = None ->
  curStaticInst (preExecute (thread w)) = Some i ->
  isMemRef i = true ->
  isDataPrefetch i = false ->
  initiateAcc i (preExecute (thread w))
  = (AccWrite data addr sizeofT wflags, a2) ->
  translateDataWriteReq
    (mkRequest 0 addr sizeofT wflags (readPC a2) (cpu_id w) 0 (curTick w)) a2
  = (NoFault, req1, a3) ->
  isLocked req1 = true ->
  handleLockedWrite req1 a3 = (false, r2, a4) ->
  let spkt := newAddr (delete ipkt (heap w)) in
  let sobj := mkPacket Packet.WriteReq r2 Packet.Broadcast (getVaddr req1)
                (req_size req1) 0 Packet.Unknown data None (curTick w) in
  completeAcc i sobj a4 = (fault', a5) ->
  exists w2,
    completeIfetch fuel ipkt w = advanceInst (fetch fuel) fault' w2
    /\ offered w2 = offered w
    /\ dcache_pkt w2 = None
    /\ heap w2 !! spkt = None
    /\ heap w2 !! ipkt = None
    /\ _status w2 = Running
    /\ thread w2 = postExecute a5.
Proof.
  intros Hobj Hres Hst Hdrain Hnull Hcur Hmem Hpf Hacc Htr Hlock Hsc
    spkt sobj Hcomp.
  unfold completeIfetch, doInitiateAcc, completeDrain, write, callThread,
    runThread, newPacket, store, load, deletePacket.
  run. use_eqs.
  rewrite bool_decide_eq_false_2 by exact Hdrain. use_eqs.
  fold spkt.
  assert (Hfree : forall h : Heap,
            delete spkt (<[spkt := sobj]> (delete ipkt h)) !! ipkt = None).
  { intros h. destruct (decide (ipkt = spkt)) as [Heq|Hne].
    - rewrite Heq. apply lookup_delete_eq.
    - rewrite lookup_delete_ne, lookup_insert_ne by congruence.
      apply lookup_delete_eq. }
  destruct (isUncacheable r2); simpl;
    rewrite ?insert_insert_eq, ?lookup_insert_eq; simpl;
    repeat match goal with
           | |- context [completeAcc i ?x a4] =>
             progress change x with sobj
           | |- context [<[spkt := ?x]> _] => progress change x with sobj
           end;
    rewrite Hcomp; simpl;
    (eexists; split; [reflexivity|]); simpl;
    rewrite lookup_delete_eq, Hfree;
    repeat split.
Qed.

(** *** Callbacks out of protocol *)

(** X10. A retry on a port whose packet is not there or whose pipeline is
    not in the retry state of the port, and a response that is not a
    success or that the pipeline does not wait for on that port, stop on
    an assertion: nothing is offered, nothing is freed, the world is as
    it was. *)
Theorem callback_out_of_protocol_changes_nothing (port : PortName)
  (fuel : nat) (w : World) :
  (held port w = None \/ _status w <> retryState port ->
   exists what, recvRetry port w = Abort (AssertFailed what) w)
  /\ (forall pkt obj,
        heap w !! pkt = Some obj ->
        result obj <> Packet.Success \/ _status w <> waitState port ->
        exists what, complete port fuel pkt w = Abort (AssertFailed what) w).
Proof.
  split.
  - intros Hout.
    destruct port; simpl in *;
      unfold IcachePort_recvRetry, DcachePort_recvRetry; run.
    + destruct (ifetch_pkt w) as [p|]; simpl; [|eauto].
      destruct Hout as [|Hst]; [discriminate|].
      rewrite bool_decide_eq_false_2 by exact Hst. eauto.
    + destruct (dcache_pkt w) as [p|]; simpl; [|eauto].
      destruct Hout as [|Hst]; [discriminate|].
      rewrite bool_decide_eq_false_2 by exact Hst. eauto.
  - intros pkt obj Hobj Hout.
    destruct port; simpl in *;
      unfold completeIfetch, completeDataAccess, load; run; rewrite Hobj;
      simpl.
    + destruct (decide (result obj = Packet.Success)) as [Hres|Hres].
      * rewrite bool_decide_eq_true_2 by exact Hres. simpl.
        destruct Hout as [|Hst]; [contradiction|].
        rewrite bool_decide_eq_false_2 by exact Hst. eauto.
      * rewrite bool_decide_eq_false_2 by exact Hres. eauto.
    + destruct (decide (result obj = Packet.Success)) as [Hres|Hres].
      * rewrite bool_decide_eq_true_2 by exact Hres. simpl.
        destruct Hout as [|Hst]; [contradiction|].
        rewrite bool_decide_eq_false_2 by exact Hst. eauto.
      * rewrite bool_decide_eq_false_2 by exact Hres. eauto.
Qed.

End Pipeline.

(** ** The theorems at work on the sample CPU *)

Section OnSample.

Import Sample SampleMore.

#[local] Existing Instance sampleIface.
#[local] Existing Instance sampleLink.

(** A fetch at tick 10 on a CPU that has counted no cycle yet. *)
Lemma pipeline_counts_each_cycle_once_witness :
  let w := sampleWorld Running None None SimObject.Running (mkArch 8 None)
             [] in
  let w' := final (enter (ENV := sampleCpuEnv) 1 Fetch w) in
  numCycles w' = 10 /\ previousTick w' = 10.
Proof.
  intros w w'.
  exact (proj2 (proj2 (pipeline_counts_each_cycle_once (ENV := sampleCpuEnv)
                         1 Fetch w)) eq_refl eq_refl).
Defined.

(** A retry that the peer rejects again. *)
Lemma retry_state_holds_packet_witness :
  let w := sampleWorld DcacheRetry None (Some 0%nat) SimObject.Running
             (mkArch 8 None) [false] in
  let w' := final (enter (ENV := sampleCpuEnv) 1 (RecvRetry dcachePort) w) in
  _status w' = DcacheRetry /\ dcache_pkt w' <> None.
Proof.
  intros w w'.
  assert (Hw : retryHoldsPacket w).
  { split; [discriminate|]. intros _. discriminate. }
  pose proof (retry_state_holds_packet (ENV := sampleCpuEnv) 1
                (RecvRetry dcachePort) w Hw) as [_ Hd].
  split; [reflexivity | exact (Hd eq_refl)].
Defined.

Lemma fetch_offers_one_packet_witness :
  let w := sampleWorld Running None None SimObject.Running (mkArch 8 None)
             [false] in
  exists w',
    fetch (ENV := sampleCpuEnv) 1 w = Done tt w'
    /\ offered w' = [(icachePort, newAddr (heap w), false)]
    /\ _status w' = IcacheRetry
    /\ ifetch_pkt w' = Some (newAddr (heap w)).
Proof.
  intros w.
  edestruct (fetch_offers_one_packet (ENV := sampleCpuEnv) 0 w)
    as (w' & E & Ho & Hs & Hp & _); [reflexivity|].
  exists w'. split; [exact E|]. split; [exact Ho|].
  split; [exact Hs | exact Hp].
Defined.

Lemma failed_store_conditional_is_not_sent_witness :
  let w := sampleWorld Running None None SimObject.Running
             (mkArch 12 (Some (StoreWord 72 [1; 2; 3; 4]))) [] in
  exists w',
    write (ENV := failingScEnv) [1; 2; 3; 4] 72 4 2 w = Done NoFault w'
    /\ offered w' = []
    /\ _status w' = Running
    /\ dcache_pkt w' = Some (newAddr (heap w)).
Proof.
  intros w.
  edestruct (failed_store_conditional_is_not_sent (ENV := failingScEnv) w
               [1; 2; 3; 4] 72 4 2)
    as (w' & obj & E & Ho & Hs & Hp & _);
    [reflexivity | reflexivity | reflexivity | reflexivity |].
  exists w'. split; [exact E|]. split; [exact Ho|].
  split; [exact Hs | exact Hp].
Defined.

(** The response 1 arrives for the fetch of the store at 12. *)
Lemma failed_store_conditional_completes_at_once_witness :
  let w := sampleWorld IcacheWaitResponse None None SimObject.Running
             (mkArch 12 None) [] in
  exists w2,
    completeIfetch (ENV := failingScEnv) 1 1%nat w
    = advanceInst (ENV := failingScEnv) (fetch (ENV := failingScEnv) 1)
        NoFault w2
    /\ offered w2 = []
    /\ dcache_pkt w2 = None
    /\ heap w2 !! 1%nat = None.
Proof.
  intros w.
  edestruct (failed_store_conditional_completes_at_once (ENV := failingScEnv)
               1 w 1%nat
               (samplePkt (Packet.OtherCmd 1) 64 4 0 0 Packet.Success)
               (StoreWord 72 [1; 2; 3; 4]) [1; 2; 3; 4] 72 4 2)
    as (w2 & E & Ho & Hd & _ & Hi & _);
    [ reflexivity | reflexivity | reflexivity | discriminate | reflexivity
    | reflexivity | reflexivity | reflexivity | reflexivity | reflexivity
    | reflexivity | reflexivity | reflexivity |].
  exists w2. split; [exact E|]. split; [exact Ho|].
  split; [exact Hd | exact Hi].
Defined.

(** A retry on a port that holds no packet, and a response that the
    pipeline does not wait for. *)
Lemma callback_out_of_protocol_changes_nothing_witness :
  let w := sampleWorld Running None None SimObject.Running (mkArch 8 None)
             [] in
  (exists what,
     recvRetry icachePort w = Abort (AssertFailed what) w)
  /\ (exists what,
        completeDataAccess (ENV := sampleCpuEnv) 1 1%nat w
        = Abort (AssertFailed what) w).
Proof.
  intros w.
  pose proof (callback_out_of_protocol_changes_nothing (ENV := sampleCpuEnv)
                icachePort 1 w) as [Hr _].
  pose proof (callback_out_of_protocol_changes_nothing (ENV := sampleCpuEnv)
                dcachePort 1 w) as [_ Hc].
  split.
  - apply Hr. left. reflexivity.
  - apply (Hc 1%nat (samplePkt (Packet.OtherCmd 1) 64 4 0 0 Packet.Success)
             eq_refl).
    right. discriminate.
Defined.

End OnSample.

End PipelineSpec.

(** * Properties of the life cycle of the CPU *)

Module LifecycleSpec.

Import TimingCPU PipelineViews CpuLifecycle.

Section Lifecycle.

Context `{PI : PacketIface} {Arch Peer : Type}.
Context `{ENV : !CpuEnv Arch} `{LINK : !Link Peer} `{LIFE : !LifeEnv Arch Peer}.

#[local] Abbreviation Machine := (Machine Arch Peer).

Ltac unfold_life :=
  unfold activateContext, suspendContext, switchOut, resume, takeOverFrom,
    takePort, status, liftCpu, newEvent, isScheduled, scheduleEvent,
    deschedule, deleteEvent.

(** X11. Activating the context of an idle CPU and suspending it again
    leaves the pipeline and the idle statistic exactly as they were;
    what stays behind is the fetch event: a new event object, scheduled
    [cycles(delay)] ticks ahead, that is still scheduled when the CPU is
    idle again.  On a CPU that is not idle, or for a thread other than
    thread 0, [activateContext] stops on an assertion and changes
    nothing. *)
Theorem activate_then_suspend (s : Machine) (thread_num delay : Z) :
  if (thread_num =? 0) && bool_decide (_status (cpu s) = Idle) then
    exists s1 s2,
      let e := fresh (dom (events s)) in
      activateContext thread_num delay s = Done tt s1
      /\ _status (cpu s1) = Running
      /\ notIdleFraction s1 = notIdleFraction s + 1
      /\ fetchEvent s1 = Some e
      /\ events s !! e = None
      /\ events s1
         = <[e := Some (curTick (cpu s) + cycles delay)]> (events s)
      /\ suspendContext thread_num s1 = Done tt s2
      /\ cpu s2 = cpu s
      /\ notIdleFraction s2 = notIdleFraction s
      /\ fetchEvent s2 = Some e
      /\ events s2 = events s1
  else
    exists what,
      activateContext thread_num delay s = Abort (AssertFailed what) s.
Proof.
  destruct (thread_num =? 0) eqn:Hnum; simpl.
  2:{ unfold_life. run. rewrite Hnum. eauto. }
  case_bool_decide as Hidle; simpl.
  2:{ unfold_life. run. rewrite Hnum. simpl.
      rewrite bool_decide_eq_false_2 by exact Hidle. eauto. }
  eexists _, _. cbv zeta.
  unfold_life. run. rewrite Hnum. simpl.
  rewrite bool_decide_eq_true_2 by exact Hidle. simpl.
  split; [reflexivity|]. simpl.
  split; [reflexivity|]. split; [reflexivity|]. split; [reflexivity|].
  split.
  { apply not_elem_of_dom. apply is_fresh. }
  split; [apply insert_insert_eq|].
  split; [reflexivity|]. simpl.
  split.
  { destruct (cpu s). simpl in *. subst. reflexivity. }
  split; [lia|]. split; reflexivity.
Qed.

(** X12. [switchOut] on a running or idle CPU counts the cycles up to the
    current tick, leaves the CPU [SwitchedOut] and leaves no fetch event
    scheduled; a drain request that follows is granted at once.  In any
    other state it stops on its assertion and changes nothing. *)
Theorem switchOut_stops_fetching (s : Machine) (ev : EventPtr) :
  fetchEventLive s ->
  if bool_decide (_status (cpu s) = Running)
     || bool_decide (_status (cpu s) = Idle)
  then
    exists s',
      switchOut s = Done tt s'
      /\ _status (cpu s') = SwitchedOut
      /\ numCycles (cpu s')
         = numCycles (cpu s) + (curTick (cpu s) - previousTick (cpu s))
      /\ fetchEvent s' = fetchEvent s
      /\ (forall e, fetchEvent s = Some e ->
          events s' = <[e := None]> (events s))
      /\ (fetchEvent s = None -> events s' = events s)
      /\ drain ev (cpu s')
         = Done 0 (changeState SimObject.Drained (cpu s'))
  else
    switchOut s
    = Abort (AssertFailed "status() == Running || status() == Idle") s.
Proof.
  intros Hlive.
  destruct (bool_decide (_status (cpu s) = Running)
            || bool_decide (_status (cpu s) = Idle)) eqn:Hst.
  2:{ unfold_life. run. rewrite Hst. reflexivity. }
  unfold_life. run. rewrite Hst. simpl.
  destruct (fetchEvent s) as [e|] eqn:Hfe; simpl.
  - destruct (Hlive e Hfe) as [slot Hslot]. rewrite Hslot. simpl.
    destruct slot as [t|]; simpl.
    + eexists; split; [reflexivity|]. simpl.
      repeat split; auto; try discriminate.
      intros e0 [= <-]. reflexivity.
    + eexists; split; [reflexivity|]. simpl.
      repeat split; auto; try discriminate.
      intros e0 [= <-]. symmetry. apply insert_id, Hslot.
  - eexists; split; [reflexivity|]. simpl.
    repeat split; auto. discriminate.
Qed.

(** X13. [resume] always leaves the CPU in the [Running] state of the
    simulation object, with [previousTick] at the current tick.  On a
    CPU that is neither switched out nor idle, in a system in timing
    mode, it replaces the fetch event: the old event is descheduled and
    deleted, and a new one is scheduled for the current tick; if every
    scheduled event was the fetch event before, the same is true after,
    so the CPU never has two fetches pending.  In a system that is not
    in timing mode it stops on its assertion.  On a switched-out or idle
    CPU it touches no event. *)
Theorem resume_replaces_fetch_event (s : Machine) :
  fetchEventLive s ->
  if bool_decide (_status (cpu s) = SwitchedOut)
     || bool_decide (_status (cpu s) = Idle)
  then
    exists s',
      resume s = Done tt s'
      /\ getState (cpu s') = SimObject.Running
      /\ previousTick (cpu s') = curTick (cpu s)
      /\ fetchEvent s' = fetchEvent s /\ events s' = events s
  else if bool_decide (system_memoryMode s = System.timing) then
    exists s',
      let e' := fresh (dom (withoutFetchEvent s)) in
      resume s = Done tt s'
      /\ getState (cpu s') = SimObject.Running
      /\ previousTick (cpu s') = curTick (cpu s)
      /\ _status (cpu s') = _status (cpu s)
      /\ fetchEvent s' = Some e'
      /\ events s' = <[e' := Some (curTick (cpu s))]> (withoutFetchEvent s)
      /\ (oneFetchEvent s -> oneFetchEvent s')
  else
    resume s
    = Abort (AssertFailed "system->getMemoryMode() == System::Timing") s.
Proof.
  intros Hlive.
  destruct (bool_decide (_status (cpu s) = SwitchedOut)
            || bool_decide (_status (cpu s) = Idle)) eqn:Hst.
  { apply orb_true_iff in Hst.
    unfold_life. run.
    destruct Hst as [Hst|Hst]; apply bool_decide_eq_true in Hst;
      rewrite Hst; simpl;
      (eexists; split; [reflexivity|]); simpl; auto. }
  apply orb_false_iff in Hst. destruct Hst as [Hso Hidle].
  destruct (bool_decide (system_memoryMode s = System.timing)) eqn:Hmode.
  2:{ unfold_life. run. rewrite Hso, Hidle. simpl.
      rewrite Hmode. reflexivity. }
  assert (Hone : forall (now : Z) (w : World Arch Peer),
            oneFetchEvent s ->
            oneFetchEvent
              (mkMachine w (Some (fresh (dom (withoutFetchEvent s))))
                 (<[fresh (dom (withoutFetchEvent s)) := Some now]>
                    (withoutFetchEvent s))
                 (notIdleFraction s) (system_memoryMode s) (threadStatus s)
                 (getPeer s))).
  { intros now w Hall e t. simpl.
    destruct (decide (e = fresh (dom (withoutFetchEvent s)))) as [->|Hne];
      [reflexivity|].
    rewrite lookup_insert_ne by congruence.
    unfold withoutFetchEvent.
    destruct (fetchEvent s) as [e0|] eqn:Hfe; intros Hlook.
    - destruct (decide (e = e0)) as [->|Hne0].
      + rewrite lookup_delete_eq in Hlook. discriminate.
      + rewrite lookup_delete_ne in Hlook by congruence.
        apply Hall in Hlook. congruence.
    - apply Hall in Hlook. congruence. }
  unfold_life. run. rewrite Hso, Hidle. simpl.
  rewrite Hmode. simpl.
  unfold withoutFetchEvent in *.
  destruct (fetchEvent s) as [e|] eqn:Hfe; simpl.
  - destruct (Hlive e Hfe) as [slot Hslot]. rewrite Hslot. simpl.
    destruct slot as [t|]; simpl.
    + rewrite delete_insert_eq.
      eexists; split; [reflexivity|]. simpl.
      rewrite insert_insert_eq.
      repeat split; auto. intros Hall. apply (Hone _ _ Hall).
    + eexists; split; [reflexivity|]. simpl.
      rewrite insert_insert_eq.
      repeat split; auto. intros Hall. apply (Hone _ _ Hall).
  - eexists; split; [reflexivity|]. simpl.
    rewrite insert_insert_eq.
    repeat split; auto. intros Hall. apply (Hone _ _ Hall).
Qed.

(** The loop over the thread contexts sets the status to [Running]
    when the CPU is not running and some context is active, and does
    nothing otherwise. *)
Lemma markRunning_run (tcs : list ThreadStatus) (s : Machine) :
  markRunning tcs s
  = Done tt
      (if negb (bool_decide (_status (cpu s) = Running))
          && existsb (fun tc => bool_decide (tc = Active)) tcs
       then set_cpu (set_status Running (cpu s)) s
       else s).
Proof.
  induction tcs as [|tc tcs IH]; cbn [markRunning existsb].
  - rewrite andb_false_r. reflexivity.
  - unfold status, liftCpu. run.
    destruct (bool_decide (tc = Active)); simpl;
      destruct (bool_decide (_status (cpu s) = Running)) eqn:Hrun; simpl;
      rewrite ?IH, ?Hrun; reflexivity.
Qed.

(** Connecting one port: the port gets the peer, the peer gets the
    port, every other port keeps its peer; nothing else changes. *)
Lemma takePort_run (name : PortName) (s : Machine) (p : PortRef) :
  peerToTake name s = Some p ->
  exists s',
    takePort name s = Done tt s'
    /\ cpu s' = cpu s
    /\ getPeer s' (OwnPort name) = Some p
    /\ getPeer s' p = Some (OwnPort name)
    /\ (forall q, q <> p -> q <> OwnPort name -> getPeer s' q = getPeer s q).
Proof.
  unfold peerToTake, takePort. run. intros Hp.
  destruct (getPeer s (OwnPort name)) as [own|] eqn:Hown; simpl.
  - injection Hp as ->.
    eexists; split; [reflexivity|]. simpl.
    split; [reflexivity|].
    rewrite (bool_decide_eq_true_2 (p = p)) by reflexivity.
    repeat split.
    + case_bool_decide; congruence.
    + intros q Hq _. rewrite bool_decide_eq_false_2 by exact Hq. reflexivity.
  - rewrite Hp. simpl.
    eexists; split; [reflexivity|]. simpl.
    split; [reflexivity|].
    rewrite (bool_decide_eq_true_2 (p = p)) by reflexivity.
    rewrite (bool_decide_eq_true_2 (OwnPort name = OwnPort name))
      by reflexivity.
    repeat split.
    + case_bool_decide; congruence.
    + intros q Hq Hq'. rewrite !bool_decide_eq_false_2 by assumption.
      reflexivity.
Qed.

(** X14. [takeOverFrom] leaves the CPU [Running] if it was running or one
    of its thread contexts is active, and [Idle] otherwise.  Each port
    keeps its peer if it has one and takes the peer of the old CPU's
    port if not; when the two peers are different ports, and neither is
    a port the other connection reads, each port and its peer point at
    each other afterwards.  A port that finds no peer at all makes the
    call stop on a null pointer. *)
Theorem takeOverFrom_connects_ports (s : Machine) :
  let s1 := BaseCPU_takeOverFrom s in
  (forall pi pd,
     peerToTake icachePort s1 = Some pi ->
     peerToTake dcachePort s1 = Some pd ->
     pi <> pd ->
     pi <> OwnPort dcachePort -> pi <> OldPort dcachePort ->
     pd <> OwnPort icachePort ->
     exists s',
       takeOverFrom s = Done tt s'
       /\ _status (cpu s')
          = (if bool_decide (_status (cpu s1) = Running)
                || existsb (fun tc => bool_decide (tc = Active))
                     (threadStatus s1)
             then Running else Idle)
       /\ getPeer s' (OwnPort icachePort) = Some pi
       /\ getPeer s' pi = Some (OwnPort icachePort)
       /\ getPeer s' (OwnPort dcachePort) = Some pd
       /\ getPeer s' pd = Some (OwnPort dcachePort))
  /\ (peerToTake icachePort s1 = None ->
      exists s', takeOverFrom s = Abort NullDeref s').
Proof.
  intros s1.
  set (s2 := if negb (bool_decide (_status (cpu s1) = Running))
                && existsb (fun tc => bool_decide (tc = Active))
                     (threadStatus s1)
             then set_cpu (set_status Running (cpu s1)) s1 else s1).
  set (s3 := if negb (bool_decide (_status (cpu s2) = Running))
             then set_cpu (set_status Idle (cpu s2)) s2 else s2).
  assert (Hpeers : getPeer s3 = getPeer s1).
  { subst s3 s2.
    destruct (negb (bool_decide (_status (cpu s1) = Running))
              && existsb (fun tc => bool_decide (tc = Active))
                   (threadStatus s1));
      match goal with
      | |- context [negb ?b] => destruct (negb b)
      end; reflexivity. }
  assert (Hst3 : _status (cpu s3)
                 = (if bool_decide (_status (cpu s1) = Running)
                       || existsb (fun tc => bool_decide (tc = Active))
                            (threadStatus s1)
                    then Running else Idle)).
  { subst s3 s2.
    destruct (bool_decide (_status (cpu s1) = Running)) eqn:Hrun; simpl.
    - rewrite Hrun. simpl. apply bool_decide_eq_true in Hrun. exact Hrun.
    - destruct (existsb _ _); simpl; [reflexivity|].
      rewrite Hrun. reflexivity. }
  assert (Hrun : takeOverFrom s
                 = match takePort icachePort s3 with
                   | Done _ s4 => takePort dcachePort s4
                   | Abort f s4 => Abort f s4
                   end).
  { unfold takeOverFrom. run. fold s1. rewrite markRunning_run. fold s2.
    unfold status, liftCpu. run. subst s3.
    destruct (negb (bool_decide (_status (cpu s2) = Running))); reflexivity. }
  rewrite Hrun. clear Hrun.
  assert (Htake : forall name, peerToTake name s3 = peerToTake name s1).
  { intros name. unfold peerToTake. rewrite Hpeers. reflexivity. }
  clearbody s3. clear s2 Hpeers. split.
  - intros pi pd Hpi Hpd Hne Hne1 Hne2 Hne3.
    rewrite <- Htake in Hpi, Hpd.
    destruct (takePort_run icachePort s3 pi Hpi)
      as (s4 & Hrun4 & Hcpu4 & Hown4 & Hpeer4 & Hframe4).
    rewrite Hrun4.
    assert (Hpd4 : peerToTake dcachePort s4 = Some pd).
    { unfold peerToTake in *.
      rewrite !Hframe4 by congruence. exact Hpd. }
    destruct (takePort_run dcachePort s4 pd Hpd4)
      as (s5 & Hrun5 & Hcpu5 & Hown5 & Hpeer5 & Hframe5).
    exists s5. split; [exact Hrun5|].
    rewrite Hcpu5, Hcpu4.
    split; [exact Hst3|].
    rewrite !Hframe5 by congruence.
    auto.
  - intros Hnone. rewrite <- Htake in Hnone.
    unfold takePort, peerToTake in *. run.
    destruct (getPeer s3 (OwnPort icachePort)) as [own|] eqn:Hown;
      [discriminate|]. simpl. rewrite Hnone. simpl. eauto.
Qed.

Lemma drain_idle (ev : EventPtr) (w : World Arch Peer) :
  _status w = Idle -> drain ev w = Done 0 (changeState SimObject.Drained w).
Proof. intros H. unfold drain. run. rewrite H. reflexivity. Qed.

(** X15. A CPU fresh from its constructor is idle and well formed, whatever
    the base classes left in the members that the constructor body
    sets: it holds no packet, so no retry state without its packet; it
    has no fetch event; a drain request is granted at once; its
    context can be activated, which makes it run with a new fetch
    event, but not suspended: [suspendContext] stops on its assertion
    and changes nothing; and [resume] touches no event. *)
Theorem new_cpu_starts_idle (id delay : Z) (base : Machine)
  (ev : EventPtr) :
  let s := TimingSimpleCPU_ctor id base in
  _status (cpu s) = Idle
  /\ retryHoldsPacket (cpu s)
  /\ fetchEventLive s
  /\ drain ev (cpu s) = Done 0 (changeState SimObject.Drained (cpu s))
  /\ (exists s',
        activateContext 0 delay s = Done tt s'
        /\ _status (cpu s') = Running
        /\ fetchEvent s' = Some (fresh (dom (events base)))
        /\ fetchEventLive s')
  /\ suspendContext 0 s = Abort (AssertFailed "_status == Running") s
  /\ (exists s',
        resume s = Done tt s'
        /\ fetchEvent s' = None /\ events s' = events base
        /\ previousTick (cpu s') = curTick (cpu base)).
Proof.
  intros s.
  repeat match goal with |- _ /\ _ => split end.
  - reflexivity.
  - split; discriminate.
  - intros e He. discriminate He.
  - apply drain_idle. reflexivity.
  - eexists. split; [reflexivity|]. split; [reflexivity|].
    split; [reflexivity|].
    intros e He. simpl in He. injection He as <-. simpl.
    rewrite lookup_insert_eq. eauto.
  - reflexivity.
  - eexists. split; [reflexivity|]. repeat split.
Qed.

End Lifecycle.

(** ** The theorems at work on the sample machine *)

Section OnSample.

Import Sample SampleMore.

#[local] Existing Instance sampleIface.
#[local] Existing Instance sampleCpuEnv.
#[local] Existing Instance sampleLink.
#[local] Existing Instance sampleLifeEnv.

Lemma sample_fetchEventLive (st : Status) : fetchEventLive (sampleMachine st).
Proof.
  intros e He. injection He as <-. exists (Some 10). reflexivity.
Qed.

Lemma sample_oneFetchEvent (st : Status) : oneFetchEvent (sampleMachine st).
Proof.
  intros e t He. simpl in *.
  apply lookup_singleton_Some in He. destruct He as [<- _]. reflexivity.
Qed.

(** The running sample CPU is switched out at tick 10: its fetch event
    0 is descheduled. *)
Lemma switchOut_stops_fetching_witness :
  exists s',
    switchOut (sampleMachine Running) = Done tt s'
    /\ _status (cpu s') = SwitchedOut
    /\ numCycles (cpu s') = 10
    /\ events s' = <[0%nat := None]> (events (sampleMachine Running)).
Proof.
  destruct (switchOut_stops_fetching (sampleMachine Running) 7%nat
              (sample_fetchEventLive Running))
    as (s' & E & Hs & Hn & _ & He & _).
  exists s'. split; [exact E|]. split; [exact Hs|].
  split; [exact Hn | exact (He 0%nat eq_refl)].
Defined.

(** The running sample CPU resumes: one fetch event is pending after
    as before. *)
Lemma resume_replaces_fetch_event_witness :
  exists s',
    resume (sampleMachine Running) = Done tt s'
    /\ getState (cpu s') = SimObject.Running
    /\ previousTick (cpu s') = 10
    /\ oneFetchEvent s'.
Proof.
  destruct (resume_replaces_fetch_event (sampleMachine Running)
              (sample_fetchEventLive Running))
    as (s' & E & Hg & Hp & _ & _ & _ & Hone).
  exists s'. split; [exact E|]. split; [exact Hg|].
  split; [exact Hp | exact (Hone (sample_oneFetchEvent Running))].
Defined.

(** The idle sample CPU takes over from the old CPU, whose thread
    context is active and whose ports are connected to the memory
    ports 0 and 1. *)
Lemma takeOverFrom_connects_ports_witness :
  exists s',
    takeOverFrom (sampleMachine Idle) = Done tt s'
    /\ _status (cpu s') = Running
    /\ getPeer s' (OwnPort icachePort) = Some (MemPort 0)
    /\ getPeer s' (MemPort 0) = Some (OwnPort icachePort)
    /\ getPeer s' (OwnPort dcachePort) = Some (MemPort 1)
    /\ getPeer s' (MemPort 1) = Some (OwnPort dcachePort).
Proof.
  destruct (proj1 (takeOverFrom_connects_ports (sampleMachine Idle))
              (MemPort 0) (MemPort 1))
    as (s' & E & Hs & H1 & H2 & H3 & H4);
    [ reflexivity | reflexivity | discriminate | discriminate | discriminate
    | discriminate |].
  exists s'. split; [exact E|]. split; [exact Hs|].
  split; [exact H1|]. split; [exact H2|]. split; [exact H3 | exact H4].
Defined.

End OnSample.

End LifecycleSpec.

(** * More properties of the cache stage *)

Module CacheStageSpec.

Import Packet CacheImpl CacheViews CacheImplMore.

Section Stage.

Context `{PI : PacketIface} {TagStore Buffering Coherence Prefetcher Bus : Type}.
Context `{ENV : !CacheEnv TagStore Buffering Coherence Prefetcher Bus}.
Context `{ENVM : !CacheEnvMore TagStore Buffering Coherence Prefetcher Bus}.

#[local] Abbreviation Cache :=
  (Cache TagStore Buffering Coherence Prefetcher Bus).

Lemma keeps_newPacket_cache (I : Cache -> Prop) (obj : PacketObj) :
  (forall c p o, I c -> I (putPacket p o c)) -> keeps I (newPacket obj).
Proof. intros H c Hc. apply H, Hc. Qed.

Lemma onlyEmits_same (ok : Event -> bool) (before : list Event)
  (c c' : Cache) :
  trace c' = trace c -> onlyEmits ok before c -> onlyEmits ok before c'.
Proof. intros Ht (ev & Hev & Hok). exists ev. rewrite Ht. auto. Qed.

Lemma onlyEmits_emit (ok : Event -> bool) (before : list Event)
  (c c' : Cache) (e : Event) :
  trace c' = trace c ++ [e] -> onlyEmits ok before c -> ok e = true ->
  onlyEmits ok before c'.
Proof.
  intros Ht (ev & Hev & Hok) He. exists (ev ++ [e]).
  rewrite Ht, Hev, <- app_assoc. split; [reflexivity|].
  rewrite forallb_app, Hok. simpl. rewrite He. reflexivity.
Qed.

Lemma onlyEmits_start (ok : Event -> bool) (c : Cache) :
  onlyEmits ok (trace c) c.
Proof. exists []. rewrite app_nil_r. auto. Qed.

Ltac unfold_cache :=
  unfold doTimingAccess, doFunctionalAccess, doAtomicAccess, snoopProbe,
    sendResult, sendResult_sent, sendResult_failed, getPacket, flagSetAt,
    probe, fixFromTarget, fixFromWrite, snoop, snoopResponse,
    handleResponse, access, accessFinish,
    markSatisfied, update, addTarget, markInService, doWriteback,
    handleMiss, missQueue_handleResponse, missQueueCall, handleAccess,
    handleFill, handleSnoop, handleBusRequest, prefetcher_handleMiss,
    propogateInvalidate, sendFunctional, sendAtomic, callFixPacket, warn,
    respond, respondToSnoop, deletePacket, findBlock, findMSHR, findWrites,
    load, loadMSHR, emit.

(** The side conditions of a frame: each part of the invariant is a
    field that the change leaves alone, or a journal that grows by one
    event that passes. *)
Ltac frame_part :=
  first
    [ assumption
    | eapply onlyEmits_same; [reflexivity | eassumption]
    | eapply onlyEmits_emit; [reflexivity | eassumption | reflexivity] ].

Ltac frame_side :=
  solve [ unfold sameCounters, sameSetup; simpl; intros;
          repeat match goal with
                 | H : _ /\ _ |- _ => destruct H
                 end;
          repeat match goal with
                 | |- _ /\ _ => split
                 end; simpl; frame_part ].

Ltac keeps_cache_by side known :=
  repeat first [ known
               | apply keeps_newPacket_cache; side
               | keeps_step side ].

Ltac keeps_cache known := keeps_cache_by frame_side known.

(** *** The three modes keep apart *)

(** X16. A functional probe is invisible to the timing model.  However it
    ends, it leaves the statistics, the miss queue, the coherence
    policy and the prefetcher as they were, and all it does is mark the
    packet satisfied, look the block up without updating, forward the
    packet functionally and patch it; when it returns, it returns 0. *)
Theorem functional_probe_is_invisible (c : Cache) (pkt : PacketPtr)
  (port : option CachePort) :
  let c' := final (probe pkt false port c) in
  sameCounters c c'
  /\ missQueue c' = missQueue c
  /\ coherence c' = coherence c
  /\ prefetcher c' = prefetcher c
  /\ onlyEmits functionalEvent (trace c) c'
  /\ match probe pkt false port c with
     | Done t _ => t = 0
     | Abort _ _ => True
     end.
Proof.
  intros c'.
  assert (Hframe :
    keeps (fun x : Cache =>
             sameCounters c x /\ missQueue x = missQueue c
             /\ coherence x = coherence c /\ prefetcher x = prefetcher c
             /\ onlyEmits functionalEvent (trace c) x)
      (probe pkt false port)).
  { unfold_cache. keeps_cache fail. }
  assert (Hzero : yields (W := Cache) (fun t => t = 0) (probe pkt false port)).
  { unfold probe. repeat yields_step by_refl. }
  pose proof (keeps_final _ _ c Hframe) as Hc. fold c' in Hc.
  destruct Hc as (H1 & H2 & H3 & H4 & H5).
  { unfold sameCounters. repeat split; auto. apply onlyEmits_start. }
  repeat match goal with |- _ /\ _ => split end; auto.
  apply (Hzero c).
Qed.

(** X17. An atomic probe goes around the miss queue.  However it ends, it
    leaves the miss queue, the coherence policy, the prefetcher and the
    count of fast writes as they were, and all it does is mark the
    packet satisfied, look the block up, send to the memory side
    atomically and fill the block from the bus packet: no target is
    added to a miss entry, no writeback and no miss is queued, no
    response is scheduled, nothing is sent functionally. *)
Theorem atomic_probe_bypasses_miss_queue (c : Cache) (pkt : PacketPtr)
  (port : option CachePort) :
  let c' := final (probe pkt true port c) in
  missQueue c' = missQueue c
  /\ coherence c' = coherence c
  /\ prefetcher c' = prefetcher c
  /\ fastWrites c' = fastWrites c
  /\ missCount c' = missCount c
  /\ onlyEmits atomicEvent (trace c) c'.
Proof.
  intros c'.
  assert (Hframe :
    keeps (fun x : Cache =>
             missQueue x = missQueue c
             /\ coherence x = coherence c /\ prefetcher x = prefetcher c
             /\ fastWrites x = fastWrites c /\ missCount x = missCount c
             /\ onlyEmits atomicEvent (trace c) x)
      (probe pkt true port)).
  { unfold_cache. keeps_cache fail. }
  apply (keeps_final _ _ c Hframe).
  repeat match goal with |- _ /\ _ => split end; auto.
  apply onlyEmits_start.
Qed.

Lemma snoopWritebacks_keeps (I : Cache -> Prop) (pkt : PacketPtr)
  (writebacks : list MSHRPtr) :
  (forall c p o, I c -> I (putPacket p o c)) ->
  (forall c e, timingEvent e = true ->
               I c -> I (set_trace (trace c ++ [e]) c)) ->
  (forall c q s, I c -> I (set_store s (set_missQueue q c))) ->
  forall mshr, keeps I (snoopWritebacks pkt writebacks mshr).
Proof.
  intros Hput Hemit Hmq.
  induction writebacks as [|m rest IH]; intros mshr; cbn [snoopWritebacks].
  - apply keeps_ret.
  - unfold_cache.
    keeps_with ltac:(solve [ intros; first [ apply Hput; assumption
                                            | apply Hemit;
                                              [reflexivity | assumption]
                                            | apply Hmq; assumption ] ]).
    apply IH.
Qed.

(** X18. The timing functions never use a port themselves.  However they
    end, [access], [handleResponse] and [snoop] leave the bus side as it
    was: they send nothing atomically or functionally and patch no
    packet; what they have for the memory side goes through the miss
    queue, and what they have for the requester is scheduled as a
    response. *)
Theorem timing_functions_never_send (c : Cache) (pkt : PacketPtr) :
  (let c' := final (access pkt c) in
   bus c' = bus c /\ onlyEmits timingEvent (trace c) c')
  /\ (let c' := final (handleResponse pkt c) in
      bus c' = bus c /\ onlyEmits timingEvent (trace c) c')
  /\ (let c' := final (snoop pkt c) in
      bus c' = bus c /\ onlyEmits timingEvent (trace c) c').
Proof.
  assert (Hstart : bus c = bus c /\ onlyEmits timingEvent (trace c) c)
    by (split; [reflexivity | apply onlyEmits_start]).
  assert (Hloop : forall l mshr,
            keeps (fun x : Cache =>
                     bus x = bus c /\ onlyEmits timingEvent (trace c) x)
              (snoopWritebacks pkt l mshr)).
  { intros l mshr. apply snoopWritebacks_keeps.
    - frame_side.
    - intros x e He [Hb Ht]. split; [exact Hb|].
      eapply onlyEmits_emit; [reflexivity | eassumption | exact He].
    - frame_side. }
  repeat match goal with |- _ /\ _ => split end; cbv zeta;
    match goal with
    | |- context [final (?m c)] =>
      apply (keeps_final
               (fun x : Cache =>
                  bus x = bus c /\ onlyEmits timingEvent (trace c) x)
               m c); [|exact Hstart]
    end;
    unfold_cache; keeps_cache ltac:(apply Hloop).
Qed.

(** *** The atomic probe *)

Ltac unfold_calls :=
  unfold markSatisfied, update, addTarget, markInService, doWriteback,
    handleMiss, missQueue_handleResponse, missQueueCall, handleAccess,
    handleFill, handleSnoop, handleBusRequest, prefetcher_handleMiss,
    propogateInvalidate, sendFunctional, sendAtomic, callFixPacket, warn,
    respond, respondToSnoop, deletePacket, findBlock, findMSHR, findWrites,
    load, loadMSHR, emit, putPacket, putMSHR in *.

Ltac go := repeat (progress (unfold_calls; run; use_eqs)).

(** Read a field of a cache that was built by the setters. *)
Ltac proj_simpl :=
  cbn [tags missQueue coherence prefetcher bus store blkSize hitLatency
       prefetchAccess invalidatePkt fastWrites hits misses missCount
       curTick trace set_tags set_missQueue set_coherence set_prefetcher
       set_bus set_store set_fastWrites set_hits set_misses set_missCount
       set_trace heap mshrs fst snd putPacket] in *.

(** Sending a list of writebacks to the memory side atomically always
    returns; it adds one event for each, in order, and leaves the
    statistics and the parameters alone. *)
Lemma sendAtomic_all_run (wbs : list PacketPtr) (c : Cache) :
  exists c',
    forEach wbs (fun wb => sendAtomic memSidePort wb;; mret tt) c = Done tt c'
    /\ trace c' = trace c ++ map (EvSendAtomic memSidePort) wbs
    /\ hits c' = hits c /\ misses c' = misses c
    /\ hitLatency c' = hitLatency c /\ tags c' = tags c
    /\ missQueue c' = missQueue c.
Proof.
  revert c. induction wbs as [|wb wbs IH]; intros c.
  - exists c. simpl. rewrite app_nil_r. auto 10.
  - pose (c1 := final ((sendAtomic memSidePort wb;; mret tt) c)).
    assert (Hstep : (sendAtomic memSidePort wb;; mret tt) c = Done tt c1)
      by reflexivity.
    assert (Hc1 : trace c1 = trace c ++ [EvSendAtomic memSidePort wb]
                  /\ hits c1 = hits c /\ misses c1 = misses c
                  /\ hitLatency c1 = hitLatency c /\ tags c1 = tags c
                  /\ missQueue c1 = missQueue c)
      by (repeat split; reflexivity).
    destruct Hc1 as (Ht1 & Hh1 & Hm1 & Hl1 & Htg1 & Hq1).
    destruct (IH c1) as (c' & Hrun & Ht & Hh & Hm & Hl & Htg & Hq).
    exists c'. cbn [forEach]. unfold mbind at 1, M_bind at 1.
    rewrite Hstep, Hrun, Ht, Hh, Hm, Hl, Htg, Hq, Ht1, <- app_assoc.
    auto 10.
Qed.

(** X19. An atomic access that hits returns the hit latency: the writebacks
    that the lookup produced are sent to the memory side, in order, and
    then one hit is counted for the command of the packet. *)
Theorem atomic_hit_costs_hit_latency (c : Cache) (pkt : PacketPtr)
  (port : option CachePort) (obj0 obj5 : PacketObj) (b : BlkPtr) :
  heap (store c) !! pkt = Some obj0 ->
  negb (isUncacheable (req obj0))
  && (isInvalidate obj0 && negb (isRead obj0) && negb (isWrite obj0)) = false ->
  let r := (tags_handleAccess pkt true (tags c, store c)).1 in
  let c1 := final (handleAccess pkt true c) in
  let c2 := final (forEach r.2 (fun wb => sendAtomic memSidePort wb;; mret tt)
                     c1) in
  r.1.1 = Some b ->
  is_Some (heap (store c1) !! pkt) ->
  heap (store c2) !! pkt = Some obj5 ->
  exists c',
    probe pkt true port c = Done (hitLatency c) c'
    /\ trace c'
       = trace c ++ EvHandleAccess pkt true
                    :: map (EvSendAtomic memSidePort) r.2
    /\ hits c' = bump (cmdToIndex obj5) (hits c)
    /\ misses c' = misses c
    /\ missQueue c' = missQueue c.
Proof.
  intros H0 Hkind r c1 c2 Hblk [obj1 H1] H5.
  destruct (sendAtomic_all_run r.2 c1)
    as (c2' & Hrun & Ht & Hh & Hm & Hl & Htg & Hq).
  assert (Hc2 : c2 = c2') by (subst c2; rewrite Hrun; reflexivity).
  rewrite Hc2 in H5. clear Hc2 c2.
  subst r c1. unfold probe.
  revert Hrun H1 Ht Hh Hm Hl Htg Hq. go.
  intros Hrun H1 Ht Hh Hm Hl Htg Hq. go.
  eexists; split; [reflexivity|]. simpl.
  rewrite ?Ht, ?Hh, ?Hm, ?Hq. simpl. rewrite <- ?app_assoc. auto.
Qed.

(** X20. An atomic access whose block is not there.  A packet that is
    already marked satisfied costs the hit latency and nothing is
    counted or sent.  Otherwise, with a miss entry or a pending
    writeback for the block the simulator panics; and with none, an
    uncacheable packet is itself sent to the memory side, the latency
    is the one the memory side answers, and no miss is counted. *)
Theorem atomic_miss_outcomes (c : Cache) (pkt : PacketPtr)
  (port : option CachePort) (obj0 obj1 : PacketObj) :
  heap (store c) !! pkt = Some obj0 ->
  negb (isUncacheable (req obj0))
  && (isInvalidate obj0 && negb (isRead obj0) && negb (isWrite obj0)) = false ->
  let c1 := final (handleAccess pkt true c) in
  (tags_handleAccess pkt true (tags c, store c)).1.1.1 = None ->
  heap (store c1) !! pkt = Some obj1 ->
  let blk_addr := blkAlign (blkSize c) (getAddr obj1) in
  let mshr := mq_findMSHR blk_addr (missQueue c) (store c1) in
  let writes := (mq_findWrites blk_addr (missQueue c) (store c1)).2 in
  (flagSet SATISFIED obj1 = true ->
   probe pkt true port c = Done (hitLatency c) c1)
  /\ (flagSet SATISFIED obj1 = false ->
      mshr <> None \/ writes <> [] ->
      probe pkt true port c
      = Abort (Panic "Atomic access ran into outstanding MSHR's or WB's!") c1)
  /\ (flagSet SATISFIED obj1 = false ->
      mshr = None -> writes = [] ->
      isUncacheable (req obj1) = true ->
      probe pkt true port c = sendAtomic memSidePort pkt c1
      /\ misses (final (probe pkt true port c)) = misses c
      /\ hits (final (probe pkt true port c)) = hits c).
Proof.
  intros H0 Hkind c1 Hblk H1 blk_addr mshr writes.
  subst c1 blk_addr mshr writes. unfold probe, flagSet.
  revert H1. go. intros H1. go.
  split; [|split].
  - intros Hsat. rewrite Hsat. reflexivity.
  - intros Hsat Hout. rewrite Hsat. simpl.
    destruct Hout as [Hm|Hw].
    + rewrite (bool_decide_eq_false_2 _ Hm). reflexivity.
    + rewrite (bool_decide_eq_false_2 _ Hw).
      destruct (bool_decide _); reflexivity.
  - intros Hsat Hm Hw Hunc. rewrite Hsat, Hm, Hw, Hunc. simpl.
    repeat split.
Qed.

(** X21. An atomic access that misses on a cacheable packet, with nothing
    outstanding for the block, fetches the whole block: a new bus
    packet for the aligned block address and the block size, with the
    command the coherence policy picks, is sent to the memory side
    before anything else.  When the access returns, its latency is the
    one the memory side answered for the bus packet, cut to the 32-bit
    signed [int] the answer is stored in ([toInt]), plus the hit
    latency; one miss is counted and no hit. *)
Theorem atomic_cacheable_miss_fetches_block (c : Cache) (pkt : PacketPtr)
  (port : option CachePort) (obj0 obj1 : PacketObj) :
  heap (store c) !! pkt = Some obj0 ->
  negb (isUncacheable (req obj0))
  && (isInvalidate obj0 && negb (isRead obj0) && negb (isWrite obj0)) = false ->
  let c1 := final (handleAccess pkt true c) in
  (tags_handleAccess pkt true (tags c, store c)).1.1.1 = None ->
  heap (store c1) !! pkt = Some obj1 ->
  flagSet SATISFIED obj1 = false ->
  mq_findMSHR (blkAlign (blkSize c) (getAddr obj1)) (missQueue c) (store c1)
  = None ->
  (mq_findWrites (blkAlign (blkSize c) (getAddr obj1)) (missQueue c)
     (store c1)).2 = [] ->
  isUncacheable (req obj1) = false ->
  let old_state :=
    match tags_findBlock pkt (tags c1) (store c1) with
    | Some b => blk_status b (tags c1)
    | None => 0
    end in
  let busPkt := newAddr (heap (store c1)) in
  let bobj :=
    mkPacket (coh_getBusCmd (cmd obj1) old_state (coherence c)) (req obj1)
      (ToPort (-1)) (blkAlign (blkSize c) (getVaddr (req obj1))) (blkSize c)
      0 Unknown (replicate (Z.to_nat (blkSize c)) 0) None (curTick c) in
  let lat :=
    (port_sendAtomic memSidePort busPkt
       (bus c, mkStore (<[busPkt := bobj]> (heap (store c1)))
                 (mshrs (store c1)))).1 in
  let sent := trace c ++ [EvHandleAccess pkt true;
                          EvSendAtomic memSidePort busPkt] in
  onlyEmits atomicEvent sent (final (probe pkt true port c))
  /\ (forall t c',
        probe pkt true port c = Done t c' ->
        t = toInt lat + hitLatency c
        /\ hits c' = hits c
        /\ exists obj4, misses c' = bump (cmdToIndex obj4) (misses c)).
Proof.
  intros H0 Hkind c1 Hblk H1 Hsat Hm Hw Hunc old_state busPkt bobj lat sent.
  assert (Hens :
    ensures (probe pkt true port) c
      (fun t c' =>
         onlyEmits atomicEvent sent c'
         /\ t = toInt lat + hitLatency c /\ hits c' = hits c
         /\ exists obj4, misses c' = bump (cmdToIndex obj4) (misses c))
      (onlyEmits atomicEvent sent)).
  2:{ split.
      - apply (ensures_final _ _ _ _ Hens). intros t c' [H _]. exact H.
      - intros t c' Hrun.
        destruct (ensures_done _ _ _ _ _ _ Hens Hrun) as (_ & Ht & Hh & Hmi).
        auto. }
  assert (Hc1 : trace c1 = trace c ++ [EvHandleAccess pkt true]
                /\ missQueue c1 = missQueue c /\ coherence c1 = coherence c
                /\ bus c1 = bus c /\ hits c1 = hits c /\ misses c1 = misses c
                /\ blkSize c1 = blkSize c /\ hitLatency c1 = hitLatency c
                /\ curTick c1 = curTick c)
    by (repeat split; reflexivity).
  destruct Hc1 as (Htr & Hq & Hco & Hbus & Hh & Hmi & Hbs & Hhl & Hnow).
  unfold probe.
  eapply ensures_bind_run; [go; reflexivity|]. cbv beta.
  rewrite Hkind. cbv iota. cbn [negb andb].
  eapply ensures_bind_run; [reflexivity|]. cbv beta iota.
  eapply ensures_bind_run
    with (a := (tags_handleAccess pkt true (tags c, store c)).1) (w' := c1);
    [reflexivity|].
  cbv beta zeta. rewrite Hblk.
  clearbody c1.
  eapply ensures_bind_run; [unfold load; run; rewrite H1; reflexivity|].
  cbv beta.
  eapply ensures_bind_run; [reflexivity|]. cbv beta.
  eapply ensures_bind_run; [reflexivity|]. cbv beta.
  eapply ensures_bind_run; [reflexivity|]. cbv beta.
  eapply ensures_bind_run; [reflexivity|]. cbv beta.
  rewrite Hbs, Hq, Hm, Hw, Hsat, Hunc.
  rewrite (bool_decide_eq_true_2 (None = None)) by reflexivity.
  rewrite (bool_decide_eq_true_2 ([] = [])) by reflexivity.
  cbn [negb andb orb].
  eapply ensures_bind_run; [reflexivity|]. cbv beta.
  eapply ensures_bind_run; [reflexivity|]. cbv beta.
  eapply ensures_bind_run; [reflexivity|]. cbv beta.
  eapply ensures_bind_run; [reflexivity|]. cbv beta.
  eapply ensures_bind_run; [reflexivity|]. cbv beta.
  eapply ensures_bind_run; [reflexivity|]. cbv beta.
  eapply ensures_bind_run; [reflexivity|]. cbv beta.
  proj_simpl. rewrite ?Hco, ?Hbus, ?Hnow, ?Hhl.
  fold old_state. fold busPkt. fold bobj. fold lat.
  match goal with
  | |- ensures _ ?x _ _ => set (c2 := x)
  end.
  assert (Hc2 : onlyEmits atomicEvent sent c2
                /\ hits c2 = hits c /\ misses c2 = misses c).
  { subst c2. proj_simpl. rewrite Htr, Hh, Hmi.
    split; [|split; reflexivity].
    exists []. subst sent. rewrite app_nil_r, <- app_assoc. auto. }
  clearbody c2.
  eapply ensures_bind_keeps
    with (I := fun x : Cache =>
                 onlyEmits atomicEvent sent x
                 /\ hits x = hits c /\ misses x = misses c);
    [unfold_cache; keeps_cache fail | exact Hc2 | tauto |].
  clear c2 Hc2. intros bobj0 c2 Hc2.
  eapply ensures_bind_keeps
    with (I := fun x : Cache =>
                 onlyEmits atomicEvent sent x
                 /\ hits x = hits c /\ misses x = misses c);
    [unfold_cache; keeps_cache fail | exact Hc2 | tauto |].
  clear c2 Hc2. intros _ c2 Hc2.
  eapply ensures_bind_keeps
    with (I := fun x : Cache =>
                 onlyEmits atomicEvent sent x
                 /\ hits x = hits c /\ misses x = misses c);
    [unfold_cache; keeps_cache fail | exact Hc2 | tauto |].
  clear c2 Hc2. intros obj4 c2 Hc2.
  eapply ensures_bind_run; [reflexivity|]. cbv beta.
  eapply ensures_weaken.
  - apply ensures_keeps_yields
      with (I := fun x : Cache =>
                   onlyEmits atomicEvent sent x
                   /\ hits x = hits c
                   /\ misses x = bump (cmdToIndex obj4) (misses c))
           (P := fun t => t = toInt lat + hitLatency c).
    + unfold_cache. keeps_cache fail.
    + repeat yields_step by_refl.
    + destruct Hc2 as (He & Hh2 & Hm2). proj_simpl. rewrite Hm2.
      split; [|split; [exact Hh2 | reflexivity]].
      eapply onlyEmits_same; [|exact He]. reflexivity.
  - intros t x [(He & Hh2 & Hm2) Ht]. eauto 10.
  - tauto.
Qed.

(** *** The atomic entry point *)

(** X22. The atomic snoop never NACKs and never queues.  Whatever miss
    entries there are, in service or not, it passes the invalidate up,
    asks the coherence policy and updates the tag store; it returns the
    hit latency when the policy has this cache supply the data and 0
    when not, and it leaves the miss queue and the statistics alone. *)
Theorem atomic_snoop_never_nacks (c : Cache) (pkt : PacketPtr)
  (obj : PacketObj) :
  let c1 := final (propogateInvalidate pkt false c) in
  heap (store c1) !! pkt = Some obj ->
  let blk := tags_findBlock pkt (tags c) (store c1) in
  let mshr := mq_findMSHR (blkAlign (blkSize c) (getAddr obj)) (missQueue c)
                (store c1) in
  let r := (coh_handleBusRequest pkt blk mshr
              (coherence c1, tags c, store c1)).1 in
  exists c',
    snoopProbe pkt c = Done (if r.1 then hitLatency c else 0) c'
    /\ trace c'
       = trace c ++ [EvPropogateInvalidate pkt false;
                     EvHandleBusRequest pkt blk mshr;
                     EvHandleSnoop blk r.2 (if r.1 then Some pkt else None)]
    /\ missQueue c' = missQueue c
    /\ hits c' = hits c /\ misses c' = misses c.
Proof.
  intros c1 H1 blk mshr r. subst c1 blk mshr r.
  unfold snoopProbe. revert H1. go. intros H1. go.
  match goal with
  | |- context [coh_handleBusRequest ?a ?b ?m ?x] =>
    destruct (coh_handleBusRequest a b m x) as [[sat st] [[co ts] s2]]
  end.
  simpl. destruct sat; simpl;
    (eexists; split; [reflexivity|]); simpl;
    rewrite <- !app_assoc; auto.
Qed.

Lemma probe_keeps_setup (c0 : Cache) (pkt : PacketPtr) (upd : bool)
  (port : option CachePort) :
  keeps (sameSetup c0) (probe pkt upd port).
Proof.
  destruct upd; unfold_cache; keeps_cache fail.
Qed.

Lemma handleResponse_keeps_setup (c0 : Cache) (pkt : PacketPtr) :
  keeps (sameSetup c0) (handleResponse pkt).
Proof. unfold_cache. keeps_cache fail. Qed.

Lemma sameSetup_refl (c : Cache) : sameSetup c c.
Proof. unfold sameSetup. auto. Qed.

(** X23. An atomic access from the CPU side reports the hit latency,
    whatever the probe cost: the latency that [probe] returns, the one
    of the memory side on a miss included, is dropped, and the packet
    is marked as a success.  From the memory side a response costs the
    hit latency and any other packet is an atomic snoop. *)
Theorem atomic_access_reports_hit_latency (c : Cache) (pkt : PacketPtr) :
  (forall t c',
     doAtomicAccess pkt true c = Done t c' ->
     t = hitLatency c
     /\ exists obj,
          heap (store c') !! pkt = Some obj /\ result obj = Success)
  /\ (forall obj t c',
        heap (store c) !! pkt = Some obj ->
        isResponse obj = true ->
        doAtomicAccess pkt false c = Done t c' ->
        t = hitLatency c)
  /\ (forall obj,
        heap (store c) !! pkt = Some obj ->
        isResponse obj = false ->
        doAtomicAccess pkt false c = snoopProbe pkt c).
Proof.
  split; [|split].
  - intros t c' Hrun.
    assert (Hens :
      ensures (doAtomicAccess pkt true) c
        (fun t c' =>
           t = hitLatency c
           /\ exists obj,
                heap (store c') !! pkt = Some obj /\ result obj = Success)
        (fun _ => True)).
    2:{ exact (ensures_done _ _ _ _ _ _ Hens Hrun). }
    unfold doAtomicAccess. cbv iota.
    eapply ensures_bind_keeps with (I := sameSetup c);
      [apply probe_keeps_setup | apply sameSetup_refl | auto |].
    intros _ c2 Hc2. unfold update, load.
    unfold ensures. run.
    destruct (heap (store c2) !! pkt) as [obj|] eqn:Hobj; simpl; [|exact Logic.I].
    split.
    + destruct Hc2 as (_ & Hhl & _). exact Hhl.
    + eexists. rewrite lookup_insert_eq. split; reflexivity.
  - intros obj t c' Hobj Hresp Hrun.
    assert (Hens :
      ensures (doAtomicAccess pkt false) c
        (fun t _ => t = hitLatency c) (fun _ => True)).
    2:{ exact (ensures_done _ _ _ _ _ _ Hens Hrun). }
    unfold doAtomicAccess. cbv iota.
    eapply ensures_bind_run; [unfold load; run; rewrite Hobj; reflexivity|].
    cbv beta. rewrite Hresp.
    eapply ensures_bind_keeps with (I := sameSetup c);
      [apply handleResponse_keeps_setup | apply sameSetup_refl | auto |].
    intros _ c2 (_ & Hhl & _). exact Hhl.
  - intros obj Hobj Hresp. unfold doAtomicAccess, load. run.
    rewrite Hobj. simpl. rewrite Hresp. reflexivity.
Qed.

(** *** Block addresses *)

(** X24. For a block size that is a power of two, [blkAlign] rounds an
    address down to a multiple of the block size, the mask
    [blkSize - 1] gives the offset in the block, the two add up to the
    address, and aligning twice is aligning once.  The offset is below
    the block size, so the first assertion of the copy in [snoop]
    cannot fail. *)
Theorem blkAlign_rounds_down (k addr : Z) :
  0 <= k ->
  let bs := 2 ^ k in
  let offset := Z.land addr (bs - 1) in
  blkAlign bs addr = bs * (addr / bs)
  /\ offset = addr mod bs
  /\ blkAlign bs addr + offset = addr
  /\ 0 <= offset < bs
  /\ blkAlign bs (blkAlign bs addr) = blkAlign bs addr.
Proof.
  intros Hk bs offset.
  assert (Hbs : 0 < bs) by (apply Z.pow_pos_nonneg; lia).
  assert (Hones : bs - 1 = Z.ones k).
  { rewrite Z.ones_equiv. subst bs. lia. }
  assert (Halign : forall a, blkAlign bs a = bs * (a / bs)).
  { intros a. unfold blkAlign. rewrite Hones.
    rewrite <- Z.ldiff_land.
    rewrite Z.ldiff_ones_r by exact Hk.
    rewrite Z.shiftl_mul_pow2, Z.shiftr_div_pow2 by exact Hk.
    subst bs. lia. }
  assert (Hoff : offset = addr mod bs).
  { subst offset. rewrite Hones. apply Z.land_ones, Hk. }
  split; [apply Halign|]. split; [exact Hoff|].
  split.
  { rewrite Halign, Hoff. symmetry. apply Z.div_mod. lia. }
  split.
  { rewrite Hoff. apply Z.mod_pos_bound, Hbs. }
  rewrite !Halign. f_equal.
  rewrite Z.mul_comm, Z.div_mul by lia. reflexivity.
Qed.

(** *** Accounting in [access] *)

Ltac ens_keep J :=
  eapply ensures_bind_keeps with (I := J);
  [ unfold_cache; keeps_cache fail | eassumption | | ].

Lemma accessFinish_counts (c0 : Cache) (pkt : PacketPtr)
  (blk : option BlkPtr) (lat size : Z) (wbs : list PacketPtr) (c : Cache) :
  hits c = hits c0 /\ misses c = misses c0 ->
  ensures (accessFinish pkt blk lat size wbs) c
    (fun b x => b = true /\ countedOnce c0 x) (countedOnce c0).
Proof.
  intros Hc.
  pose (J0 := fun x : Cache => hits x = hits c0 /\ misses x = misses c0).
  pose (J1 := fun (i : nat) (x : Cache) =>
                hits x = bump i (hits c0) /\ misses x = misses c0).
  pose (J2 := fun (i : nat) (x : Cache) =>
                hits x = hits c0 /\ misses x = bump i (misses c0)).
  assert (H0 : forall x, J0 x -> countedOnce c0 x)
    by (intros x Hx; left; exact Hx).
  assert (H1 : forall i x, J1 i x -> countedOnce c0 x)
    by (intros i x Hx; right; left; exists i; exact Hx).
  assert (H2 : forall i x, J2 i x -> countedOnce c0 x)
    by (intros i x Hx; right; right; exists i; exact Hx).
  change (J0 c) in Hc.
  unfold accessFinish.
  ens_keep J0; [exact H0|]. clear c Hc. intros _ c Hc.
  ens_keep J0; [exact H0|]. clear c Hc. intros obj c Hc.
  ens_keep J0; [exact H0|]. clear c Hc. intros now c Hc.
  ens_keep J0; [exact H0|]. clear c Hc. intros hl c Hc.
  destruct blk as [b|].
  - eapply ensures_bind_run; [reflexivity|]. cbv beta.
    eapply ensures_weaken.
    + apply ensures_keeps_yields
        with (I := J1 (cmdToIndex obj)) (P := fun b => b = true).
      * unfold J1. unfold_cache. keeps_cache fail.
      * repeat yields_step by_refl.
      * destruct Hc as [Hh Hm]. unfold J1. proj_simpl. rewrite Hh. auto.
    + intros bb x [Hx Hb]. split; [exact Hb | exact (H1 _ _ Hx)].
    + apply H1.
  - destruct (isUncacheable (req obj)); cbn [negb when].
    + eapply ensures_weaken.
      * apply ensures_keeps_yields
          with (I := J0) (P := fun b => b = true).
        -- unfold J0. unfold_cache. keeps_cache fail.
        -- repeat yields_step by_refl.
        -- exact Hc.
      * intros bb x [Hx Hb]. auto.
      * exact H0.
    + eapply ensures_bind with (R := fun _ x => J2 (cmdToIndex obj) x).
      * eapply ensures_bind_run; [reflexivity|]. cbv beta.
        eapply ensures_weaken with (Q := fun _ x => J2 (cmdToIndex obj) x)
                                   (E := J2 (cmdToIndex obj)).
        -- match goal with
           | |- ensures ?m ?x _ _ =>
             assert (Hk : keeps (J2 (cmdToIndex obj)) m)
               by (unfold J2; unfold_cache; keeps_cache fail);
             apply Hk
           end.
           destruct Hc as [Hh Hm]. unfold J2. proj_simpl.
           rewrite Hm. auto.
        -- auto.
        -- apply H2.
      * intros _ x Hx.
        eapply ensures_weaken.
        -- apply ensures_keeps_yields
             with (I := J2 (cmdToIndex obj)) (P := fun b => b = true).
           ++ unfold J2. unfold_cache. keeps_cache fail.
           ++ repeat yields_step by_refl.
           ++ exact Hx.
        -- intros bb y [Hy Hb]. split; [exact Hb | exact (H2 _ _ Hy)].
        -- apply H2.
Qed.

(** X25. Every access is counted at most once.  However [access] ends, the
    cache has counted one hit for it, or one miss, or nothing: never
    both and never twice; the writebacks that the lookup, or a fast
    write allocation, produced on the way are not counted.  When
    [access] returns, it returns [true]. *)
Theorem access_is_counted_once (c : Cache) (pkt : PacketPtr) :
  countedOnce c (final (access pkt c))
  /\ match access pkt c with
     | Done b _ => b = true
     | Abort _ _ => True
     end.
Proof.
  pose (J0 := fun x : Cache => hits x = hits c /\ misses x = misses c).
  assert (H0 : forall x, J0 x -> countedOnce c x)
    by (intros x Hx; left; exact Hx).
  assert (Hall : forall x, J0 x ->
    ensures (access pkt) x (fun b x => b = true /\ countedOnce c x)
      (countedOnce c)).
  { intros x Hx. unfold access.
    repeat first
      [ apply accessFinish_counts; exact Hx
      | match goal with
        | |- ensures (if ?b then _ else _) _ _ _ => destruct b
        | |- ensures (match ?p with _ => _ end) _ _ _ => destruct p
        end
      | ens_keep J0; [exact H0 | clear x Hx; intros ? x Hx] ]. }
  pose proof (Hall c (conj eq_refl eq_refl)) as Hens.
  split.
  - apply (ensures_final _ _ _ _ Hens). tauto.
  - unfold ensures in Hens. destruct (access pkt c); [tauto | exact Logic.I].
Qed.

(** *** The countdown of misses *)

Lemma exitCount_app (l1 l2 : list Event) :
  exitCount (l1 ++ l2) = (exitCount l1 + exitCount l2)%nat.
Proof.
  unfold exitCount. rewrite List.filter_app, length_app. reflexivity.
Qed.

Lemma notCountedDown_same (c0 x x' : Cache) :
  trace x' = trace x -> missCount x' = missCount x ->
  notCountedDown c0 x -> notCountedDown c0 x'.
Proof.
  intros Ht Hm (Hmc & ev & Hev & Hex). split; [congruence|].
  exists ev. rewrite Ht. auto.
Qed.

Lemma notCountedDown_emit (c0 x x' : Cache) (e : Event) :
  trace x' = trace x ++ [e] -> missCount x' = missCount x ->
  notCountedDown c0 x -> isExitEv e = false -> notCountedDown c0 x'.
Proof.
  intros Ht Hm (Hmc & ev & Hev & Hex) He. split; [congruence|].
  exists (ev ++ [e]). rewrite Ht, Hev, <- app_assoc. split; [reflexivity|].
  rewrite exitCount_app, Hex. unfold exitCount. simpl. rewrite He.
  reflexivity.
Qed.

Lemma countedDown_same (c0 x x' : Cache) :
  trace x' = trace x -> missCount x' = missCount x ->
  countedDown c0 x -> countedDown c0 x'.
Proof.
  intros Ht Hm (Hmc & ev & Hev & Hex). split; [rewrite Hm; exact Hmc|].
  exists ev. rewrite Ht, Hm. auto.
Qed.

Lemma countedDown_emit (c0 x x' : Cache) (e : Event) :
  trace x' = trace x ++ [e] -> missCount x' = missCount x ->
  countedDown c0 x -> isExitEv e = false -> countedDown c0 x'.
Proof.
  intros Ht Hm (Hmc & ev & Hev & Hex) He. split; [rewrite Hm; exact Hmc|].
  exists (ev ++ [e]). rewrite Ht, Hev, Hm, <- app_assoc.
  split; [reflexivity|].
  rewrite exitCount_app, Hex.
  assert (H1 : exitCount [e] = 0%nat) by (unfold exitCount; simpl; rewrite He; reflexivity).
  rewrite H1. lia.
Qed.

Lemma notCountedDown_countedDown (c0 x : Cache) :
  notCountedDown c0 x -> countedDown c0 x.
Proof.
  intros (Hmc & ev & Hev & Hex). split; [left; exact Hmc|].
  exists ev. split; [exact Hev|]. rewrite Hex, Hmc.
  destruct (missCount c0 =? 1) eqn:H1; [|reflexivity].
  apply Z.eqb_eq in H1. rewrite H1. reflexivity.
Qed.

Ltac down_side :=
  solve [ intros;
          first
            [ eapply notCountedDown_same; [reflexivity | reflexivity |];
              eassumption
            | eapply notCountedDown_emit;
              [reflexivity | reflexivity | eassumption | reflexivity]
            | eapply countedDown_same; [reflexivity | reflexivity |];
              eassumption
            | eapply countedDown_emit;
              [reflexivity | reflexivity | eassumption | reflexivity] ] ].

Ltac ens_keep_down J :=
  eapply ensures_bind_keeps with (I := J);
  [ unfold_cache; keeps_cache_by down_side fail | eassumption | | ].

(** The block of [access] that counts a miss down. *)
Lemma countdown_counts (c0 x : Cache) :
  notCountedDown c0 x ->
  ensures
    (mc ← gets missCount;
     when (negb (mc =? 0))
       (modify (set_missCount (mc - 1));;
        when (mc - 1 =? 0)
          (emit (EvExitSimLoop "A cache reached the maximum miss count"))))
    x (fun _ x' => countedDown c0 x') (countedDown c0).
Proof.
  intros (Hmc & ev & Hev & Hex). unfold ensures, emit. run.
  destruct (missCount x =? 0) eqn:H0; simpl.
  - apply notCountedDown_countedDown. split; eauto.
  - apply Z.eqb_neq in H0.
    destruct (missCount x - 1 =? 0) eqn:H1; simpl.
    + apply Z.eqb_eq in H1. split; simpl; [right; lia|].
      exists (ev ++ [EvExitSimLoop "A cache reached the maximum miss count"]).
      rewrite Hev, <- app_assoc. split; [reflexivity|].
      rewrite exitCount_app, Hex.
      replace (missCount c0 =? 1) with true by (symmetry; apply Z.eqb_eq; lia).
      replace (missCount x - 1 =? 0) with true
        by (symmetry; apply Z.eqb_eq; lia).
      reflexivity.
    + apply Z.eqb_neq in H1. split; simpl; [right; lia|].
      exists ev. split; [exact Hev|]. rewrite Hex.
      replace (missCount c0 =? 1) with false
        by (symmetry; apply Z.eqb_neq; lia).
      reflexivity.
Qed.

Lemma accessFinish_counts_down (c0 : Cache) (pkt : PacketPtr)
  (blk : option BlkPtr) (lat size : Z) (wbs : list PacketPtr) (c : Cache) :
  notCountedDown c0 c ->
  ensures (accessFinish pkt blk lat size wbs) c
    (fun _ x => countedDown c0 x) (countedDown c0).
Proof.
  intros Hc.
  pose proof (notCountedDown_countedDown c0) as H0.
  unfold accessFinish.
  ens_keep_down (notCountedDown c0); [exact H0|]. clear c Hc. intros _ c Hc.
  ens_keep_down (notCountedDown c0); [exact H0|]. clear c Hc. intros obj c Hc.
  ens_keep_down (notCountedDown c0); [exact H0|]. clear c Hc. intros now c Hc.
  ens_keep_down (notCountedDown c0); [exact H0|]. clear c Hc. intros hl c Hc.
  destruct blk as [b|].
  - match goal with
    | |- ensures ?m _ _ _ =>
      assert (Hk : keeps (notCountedDown c0) m)
        by (unfold_cache; keeps_cache_by down_side fail)
    end.
    eapply ensures_weaken; [apply Hk, Hc | auto | exact H0].
  - destruct (isUncacheable (req obj)); cbn [negb when].
    + match goal with
      | |- ensures ?m _ _ _ =>
        assert (Hk : keeps (notCountedDown c0) m)
          by (unfold_cache; keeps_cache_by down_side fail)
      end.
      eapply ensures_weaken; [apply Hk, Hc | auto | exact H0].
    + eapply ensures_bind with (R := fun _ x => countedDown c0 x).
      * eapply ensures_bind_run; [reflexivity|]. cbv beta.
        apply countdown_counts.
        eapply notCountedDown_same; [reflexivity | reflexivity | exact Hc].
      * intros _ x Hx.
        match goal with
        | |- ensures ?m _ _ _ =>
          assert (Hk : keeps (countedDown c0) m)
            by (unfold_cache; keeps_cache_by down_side fail)
        end.
        apply Hk, Hx.
Qed.

(** X26. The countdown of misses stops the simulation when it reaches zero,
    and only then.  However [access] ends, the counter is where it was
    or one lower; the cache has told the simulation to stop exactly once
    if the counter went from 1 to 0, and not at all otherwise: a counter
    that is 0 stays 0 and stops nothing. *)
Theorem miss_countdown_stops_at_zero (c : Cache) (pkt : PacketPtr) :
  countedDown c (final (access pkt c)).
Proof.
  pose proof (notCountedDown_countedDown c) as H0.
  assert (Hall : forall x, notCountedDown c x ->
    ensures (access pkt) x (fun _ x' => countedDown c x') (countedDown c)).
  { intros x Hx. unfold access.
    repeat first
      [ apply accessFinish_counts_down; exact Hx
      | match goal with
        | |- ensures (if ?b then _ else _) _ _ _ => destruct b
        | |- ensures (match ?p with _ => _ end) _ _ _ => destruct p
        end
      | ens_keep_down (notCountedDown c);
        [exact H0 | clear x Hx; intros ? x Hx] ]. }
  apply (ensures_final _ _ _ _ (Hall c ltac:(split; [reflexivity|];
                                              exists []; rewrite app_nil_r;
                                              auto))).
  auto.
Qed.

(** *** The bus side: [getPacket] and [sendResult] *)

Lemma clear_three_flags (f a b d : Z) :
  Z.land (Z.land (Z.land f (Z.lnot a)) (Z.lnot b)) (Z.lnot d)
  = Z.ldiff f (Z.lor (Z.lor a b) d).
Proof.
  apply Z.bits_inj'. intros i Hi.
  rewrite Z.ldiff_spec, !Z.land_spec, !Z.lor_spec, !Z.lnot_spec by exact Hi.
  destruct (Z.testbit f i), (Z.testbit a i), (Z.testbit b i),
    (Z.testbit d i); reflexivity.
Qed.

(** X27. A request that did not go out, or came back with [NACKED_LINE], is
    put back.  For a cacheable packet [p] the call returns; up to the
    call of [restoreOrigCmd], which gets the last word, nothing is
    journaled and the miss queue is not touched, so the entry is not
    marked in service; [p] has lost the flags [NACKED_LINE], [SATISFIED]
    and [SNOOP_COMMIT] and kept every other bit and field; the entry
    holds [p] with its service mark and targets as before, and the copy
    it held is deleted. *)
Theorem failed_send_is_put_back (c : Cache) (p : PacketPtr) (mshr : MSHRPtr)
  (success : bool) (obj : PacketObj) (ms : MSHR) :
  heap (store c) !! p = Some obj ->
  mshrs (store c) !! mshr = Some ms ->
  MSHR_pkt ms <> Some p ->
  isUncacheable (req obj) = false ->
  success = false \/ flagSet NACKED_LINE obj = true ->
  exists c1,
    sendResult (Some p) mshr success c
    = Done tt
        (let q := mq_restoreOrigCmd p (missQueue c1, store c1) in
         set_store q.2 (set_missQueue q.1 c1))
    /\ trace c1 = trace c
    /\ missQueue c1 = missQueue c
    /\ heap (store c1) !! p
       = Some (set_flags
                 (Z.ldiff (flags obj)
                    (Z.lor (Z.lor NACKED_LINE SATISFIED) SNOOP_COMMIT))
                 obj)
    /\ mshrs (store c1) !! mshr
       = Some (mkMSHR (inService ms) (Some p) (getTargetList ms))
    /\ (forall q, MSHR_pkt ms = Some q -> heap (store c1) !! q = None)
    /\ (forall m, m <> mshr -> mshrs (store c1) !! m = mshrs (store c) !! m).
Proof.
  intros Hp Hm Hne Hunc Hfail.
  assert (Hgo : sendResult (Some p) mshr success c
                = sendResult_failed (Some p) mshr c).
  { unfold sendResult. destruct success.
    - destruct Hfail as [Hf|Hn]; [discriminate|].
      unfold flagSetAt, load. run. rewrite Hp. simpl. rewrite Hn.
      reflexivity.
    - reflexivity. }
  rewrite Hgo. clear Hgo Hfail.
  set (obj' := set_flags
                 (Z.ldiff (flags obj)
                    (Z.lor (Z.lor NACKED_LINE SATISFIED) SNOOP_COMMIT)) obj).
  set (heap1 := <[p := obj']> (heap (store c))).
  set (heap2 := match MSHR_pkt ms with
                | Some q => delete q heap1
                | None => heap1
                end).
  exists (set_store
            (mkStore heap2
               (<[mshr := mkMSHR (inService ms) (Some p) (getTargetList ms)]>
                  (mshrs (store c)))) c).
  assert (Hflags :
    clearFlag SNOOP_COMMIT (clearFlag SATISFIED (clearFlag NACKED_LINE obj))
    = obj').
  { unfold clearFlag, obj', set_flags. destruct obj. simpl.
    rewrite clear_three_flags. reflexivity. }
  repeat match goal with |- _ /\ _ => split end.
  - unfold sendResult_failed, update, load, loadMSHR, deletePacket, putPacket,
      putMSHR.
    run. rewrite Hp. simpl. rewrite Hunc. simpl.
    repeat (rewrite ?Hp, ?lookup_insert_eq, ?Hm; simpl).
    rewrite !insert_insert_eq, Hflags. fold heap1.
    unfold heap2. destruct (MSHR_pkt ms); reflexivity.
  - reflexivity.
  - reflexivity.
  - simpl. unfold heap2. destruct (MSHR_pkt ms) as [q|] eqn:Hq.
    + rewrite lookup_delete_ne by congruence.
      apply lookup_insert_eq.
    + apply lookup_insert_eq.
  - simpl. apply lookup_insert_eq.
  - intros q Hq. simpl. unfold heap2. rewrite Hq. apply lookup_delete_eq.
  - intros m Hmne. simpl. apply lookup_insert_ne. congruence.
Qed.

(** X28. [getPacket] wants a pending request.  With none it stops at its
    first assertion and leaves the cache as it was; so when it returns,
    there was one.  A packet it returns is due: it is still allocated
    and its time is not after the current tick, which the call does not
    move. *)
Theorem getPacket_needs_pending (c : Cache) :
  match getPacket c with
  | Done r c' =>
    mq_havePending (missQueue c) (store c) = true
    /\ curTick c' = curTick c
    /\ match r with
       | Some p =>
         exists obj, heap (store c') !! p = Some obj /\ time obj <= curTick c'
       | None => True
       end
  | Abort f c' =>
    mq_havePending (missQueue c) (store c) = false ->
    f = AssertFailed "missQueue->havePending()" /\ c' = c
  end.
Proof.
  destruct (mq_havePending (missQueue c) (store c)) eqn:Hpend.
  - pose (I := fun x : Cache => curTick x = curTick c).
    assert (H : ensures getPacket c
                  (fun r c' =>
                     curTick c' = curTick c
                     /\ match r with
                        | Some p =>
                          exists obj, heap (store c') !! p = Some obj
                                      /\ time obj <= curTick c'
                        | None => True
                        end)
                  (fun _ => True)).
    { unfold getPacket.
      eapply ensures_bind_run; [reflexivity|]. cbv beta. rewrite Hpend.
      eapply ensures_bind_run; [reflexivity|].
      eapply ensures_bind_run; [reflexivity|]. cbv beta.
      set (pkt := (mq_getPacket (missQueue c, store c)).1).
      eapply ensures_bind_keeps with (I := I);
        [ apply keeps_modify; intros x Hx; exact Hx
        | reflexivity | auto | intros _ x Hx ].
      eapply ensures_bind_keeps with (I := I);
        [ unfold load, findBlock; destruct pkt;
          keeps_with ltac:(solve [intros ? Hi; exact Hi])
        | exact Hx | auto | clear x Hx; intros _ x Hx ].
      eapply ensures_bind_run; [reflexivity|].
      eapply ensures_bind_run; [reflexivity|]. cbv beta.
      eapply ensures_bind_keeps with (I := I);
        [ apply keeps_assert | exact Hx | auto | clear x Hx; intros _ x Hx ].
      destruct pkt as [p|].
      - unfold ensures, load. run.
        destruct (heap (store x) !! p) as [obj|] eqn:Hobj; [|exact Logic.I].
        destruct (time obj <=? curTick x) eqn:Hle; [|exact Logic.I].
        split; [exact Hx|]. exists obj. split; [exact Hobj|].
        apply Z.leb_le, Hle.
      - unfold ensures. run. split; [exact Hx | exact Logic.I]. }
    unfold ensures in H. destruct (getPacket c).
    + split; [reflexivity | exact H].
    + intros Hno. discriminate.
  - unfold getPacket. run. rewrite Hpend. auto.
Qed.

(** *** The timing and the functional entry points *)

(** X29. A timing access never returns [false].  From the CPU side it
    is [access]: on the packet as it came or, for a locked write (a
    store conditional), on the packet whose request has had its
    store-conditional result set to 1 first.  From the memory side a
    response goes to [handleResponse], any other packet with the
    [SNOOP_COMMIT] flag to [snoop], and a packet without the flag
    changes nothing. *)
Theorem timing_access_dispatch (c : Cache) (pkt : PacketPtr)
  (obj : PacketObj) :
  heap (store c) !! pkt = Some obj ->
  (forall side b c', doTimingAccess pkt side c = Done b c' -> b = true)
  /\ doTimingAccess pkt true c
     = (access pkt;; mret true)
         (if isWrite obj && isLocked (req obj)
          then putPacket pkt (set_req (setScResult 1 (req obj)) obj) c
          else c)
  /\ doTimingAccess pkt false c
     = (if isResponse obj then (handleResponse pkt;; mret true) c
        else if flagSet SNOOP_COMMIT obj then (snoop pkt;; mret true) c
        else Done true c).
Proof.
  intros Hobj.
  assert (Hcpu :
    doTimingAccess pkt true c
    = (access pkt;; mret true)
        (if isWrite obj && isLocked (req obj)
         then putPacket pkt (set_req (setScResult 1 (req obj)) obj) c
         else c)).
  { unfold doTimingAccess, update, load. run. rewrite Hobj. simpl.
    destruct (isWrite obj && isLocked (req obj)); simpl.
    - rewrite Hobj. simpl.
      destruct (access pkt _); reflexivity.
    - destruct (access pkt c); reflexivity. }
  assert (Hmem :
    doTimingAccess pkt false c
    = (if isResponse obj then (handleResponse pkt;; mret true) c
       else if flagSet SNOOP_COMMIT obj then (snoop pkt;; mret true) c
       else Done true c)).
  { unfold doTimingAccess, load. run. rewrite Hobj. simpl.
    destruct (isResponse obj).
    - destruct (handleResponse pkt c); reflexivity.
    - destruct (flagSet SNOOP_COMMIT obj); simpl; [|reflexivity].
      destruct (snoop pkt c); reflexivity. }
  split; [|split; [exact Hcpu | exact Hmem]].
  intros side b c' Hrun. destruct side.
  - rewrite Hcpu in Hrun. revert Hrun. run.
    destruct (access pkt _); intros Hrun; [|discriminate].
    injection Hrun as <- _. reflexivity.
  - rewrite Hmem in Hrun. revert Hrun.
    destruct (isResponse obj); [|destruct (flagSet SNOOP_COMMIT obj)]; run.
    + destruct (handleResponse pkt c); intros Hrun; [|discriminate].
      injection Hrun as <- _. reflexivity.
    + destruct (snoop pkt c); intros Hrun; [|discriminate].
      injection Hrun as <- _. reflexivity.
    + intros Hrun. injection Hrun as <- _. reflexivity.
Qed.

(** X30. A functional access from the CPU side first sets the thread
    context of the request to CPU 0, thread 0, then probes towards the
    memory side without updating, and last marks the packet a success,
    whatever the probe found: when it returns, the result of the packet
    is [Success].  From the memory side it is the probe towards the CPU
    side and nothing more. *)
Theorem functional_access_dispatch (c : Cache) (pkt : PacketPtr)
  (obj : PacketObj) :
  heap (store c) !! pkt = Some obj ->
  doFunctionalAccess pkt true c
  = (probe pkt false (Some memSidePort);;
     update pkt (set_result Success))
      (putPacket pkt (set_req (setThreadContext 0 0 (req obj)) obj) c)
  /\ (forall c',
        doFunctionalAccess pkt true c = Done tt c' ->
        exists obj',
          heap (store c') !! pkt = Some obj' /\ result obj' = Success)
  /\ doFunctionalAccess pkt false c
     = (probe pkt false (Some cpuSidePort);; mret tt) c.
Proof.
  intros Hobj.
  assert (Hcpu :
    doFunctionalAccess pkt true c
    = (probe pkt false (Some memSidePort);;
       update pkt (set_result Success))
        (putPacket pkt (set_req (setThreadContext 0 0 (req obj)) obj) c)).
  { unfold doFunctionalAccess. cbv iota.
    assert (Hup : forall f,
      update pkt f c = Done tt (putPacket pkt (f obj) c)).
    { intros f. unfold update, load. run. rewrite Hobj. reflexivity. }
    unfold mbind at 1. unfold M_bind at 1. rewrite Hup. reflexivity. }
  split; [exact Hcpu|]. split; [|reflexivity].
  intros c' Hrun. rewrite Hcpu in Hrun. revert Hrun.
  unfold update, load. run.
  destruct (probe pkt false (Some memSidePort) _) as [t c2|f c2];
    [|discriminate].
  destruct (heap (store c2) !! pkt) as [obj2|] eqn:H2; simpl;
    [|discriminate].
  intros Hrun. injection Hrun as <-.
  exists (set_result Success obj2). split; [|reflexivity].
  unfold putPacket. simpl. apply lookup_insert_eq.
Qed.

End Stage.

(** ** The theorems at work on the sample cache *)

Section OnSample.

Import Sample SampleCache SampleMore.

#[local] Existing Instance sampleIface.
#[local] Existing Instance sampleEnv.
#[local] Existing Instance sampleEnvMore.

(** The read 5 of line 64 hits when the line is present. *)
Lemma atomic_hit_costs_hit_latency_witness :
  exists c',
    probe 5%nat true None withLine64 = Done 1 c'
    /\ trace c' = [EvHandleAccess 5 true]
    /\ misses c' = ∅.
Proof.
  edestruct (atomic_hit_costs_hit_latency withLine64 5%nat None)
    as (c' & E & Ht & _ & Hm & _);
    [ reflexivity | reflexivity | reflexivity | eexists; reflexivity
    | reflexivity |].
  exists c'. split; [exact E|]. split; [exact Ht | exact Hm].
Defined.

(** With no line present: the read 12 is already satisfied; the read 5
    meets the miss entry 0. *)
Lemma atomic_miss_outcomes_witness :
  (exists c', probe 12%nat true None withProtocol = Done 1 c')
  /\ (exists c',
        probe 5%nat true None withProtocol
        = Abort (Panic "Atomic access ran into outstanding MSHR's or WB's!")
            c').
Proof.
  split.
  - edestruct (atomic_miss_outcomes withProtocol 12%nat None)
      as (Hsat & _ & _);
      [reflexivity | reflexivity | reflexivity | reflexivity |].
    eexists. apply Hsat. reflexivity.
  - edestruct (atomic_miss_outcomes withProtocol 5%nat None)
      as (_ & Hbusy & _);
      [reflexivity | reflexivity | reflexivity | reflexivity |].
    eexists. apply Hbusy; [reflexivity|]. left. discriminate.
Defined.

(** With no miss entries the read 5 fetches line 64.  A memory side
    that answers at once makes the access cost the hit latency; one that
    answers after 2^32 + 5 ticks makes it cost 6, the answer having gone
    through an [int]. *)
Lemma atomic_cacheable_miss_fetches_block_witness :
  (exists c',
     probe 5%nat true None quiet = Done 1 c'
     /\ hits c' = ∅
     /\ exists obj4, misses c' = bump (cmdToIndex obj4) ∅)
  /\ exists c',
       probe (ENV := sampleEnvAt (2 ^ 32 + 5)) 5%nat true None quiet
       = Done 6 c'.
Proof.
  split.
  - destruct (probe 5%nat true None quiet) as [t c'|f c'] eqn:E;
      [|vm_compute in E; discriminate].
    edestruct (atomic_cacheable_miss_fetches_block quiet 5%nat None)
      as (_ & Hret);
      [ reflexivity | reflexivity | reflexivity | reflexivity | reflexivity
      | reflexivity | reflexivity | reflexivity |].
    destruct (Hret t c' E) as (Ht & Hh & Hm).
    exists c'. split; [rewrite Ht; reflexivity|].
    split; [exact Hh | exact Hm].
  - destruct (probe (ENV := sampleEnvAt (2 ^ 32 + 5)) 5%nat true None quiet)
      as [t c'|f c'] eqn:E; [|vm_compute in E; discriminate].
    edestruct (atomic_cacheable_miss_fetches_block
                 (ENV := sampleEnvAt (2 ^ 32 + 5)) quiet 5%nat None)
      as (_ & Hret);
      [ reflexivity | reflexivity | reflexivity | reflexivity | reflexivity
      | reflexivity | reflexivity | reflexivity |].
    destruct (Hret t c' E) as (Ht & _).
    exists c'. rewrite Ht. reflexivity.
Defined.

Lemma atomic_snoop_never_nacks_witness :
  exists c',
    snoopProbe 5%nat withProtocol = Done 0 c'
    /\ missQueue c' = missQueue withProtocol.
Proof.
  edestruct (atomic_snoop_never_nacks withProtocol 5%nat)
    as (c' & E & _ & Hq & _); [reflexivity|].
  exists c'. split; [exact E | exact Hq].
Defined.

Lemma atomic_access_reports_hit_latency_witness :
  doAtomicAccess 5%nat false withProtocol = snoopProbe 5%nat withProtocol.
Proof.
  eapply (proj2 (proj2 (atomic_access_reports_hit_latency withProtocol
                          5%nat))); reflexivity.
Defined.

Lemma blkAlign_rounds_down_witness :
  blkAlign 64 200 = 64 * (200 / 64)
  /\ Z.land 200 63 = 200 mod 64
  /\ blkAlign 64 200 + Z.land 200 63 = 200.
Proof.
  destruct (blkAlign_rounds_down 6 200) as (H1 & H2 & H3 & _); [lia|].
  split; [exact H1|]. split; [exact H2 | exact H3].
Defined.

(** The packet 11 comes back nacked and satisfied for the miss entry 2:
    it loses both flags and takes the place of the copy 4. *)
Lemma failed_send_is_put_back_witness :
  exists c1,
    sendResult (Some 11%nat) 2%nat true withProtocol
    = Done tt (set_store (store c1) (set_missQueue (missQueue c1) c1))
    /\ trace c1 = []
    /\ heap (store c1) !! 11%nat
       = Some (samplePkt ReadReq 64 4 0 0 Unknown)
    /\ mshrs (store c1) !! 2%nat = Some (mkMSHR false (Some 11%nat) [])
    /\ heap (store c1) !! 4%nat = None.
Proof.
  edestruct (failed_send_is_put_back withProtocol 11%nat 2%nat true)
    as (c1 & E & Ht & _ & Hp & Hm & Hd & _);
    [ reflexivity | reflexivity | discriminate | reflexivity
    | right; reflexivity |].
  exists c1. split; [exact E|]. split; [exact Ht|].
  split; [exact Hp|]. split; [exact Hm | exact (Hd 4%nat eq_refl)].
Defined.

(** A cache with no miss entries has nothing to send. *)
Lemma getPacket_needs_pending_witness :
  getPacket quiet = Abort (AssertFailed "missQueue->havePending()") quiet.
Proof.
  pose proof (getPacket_needs_pending quiet) as H.
  destruct (getPacket quiet) as [r c'|f c'].
  - destruct H as [H _]. discriminate H.
  - destruct (H eq_refl) as [-> ->]. reflexivity.
Defined.

(** The locked full-line write 7 from the CPU side: its request gets the
    store-conditional result 1 and the access allocates the line.  The
    read 5 from the memory side, not a response and without the
    [SNOOP_COMMIT] flag, changes nothing. *)
Lemma timing_access_dispatch_witness :
  let c := putPacket 7%nat (samplePkt WriteInvalidateReq 64 64 2 0 Unknown)
             withProtocol in
  (exists c',
     doTimingAccess 7%nat true c = Done true c'
     /\ (req_flags <$> (req <$> heap (store c') !! 7%nat)) = Some 258
     /\ fastWrites c' = 1)
  /\ doTimingAccess 5%nat false withProtocol = Done true withProtocol.
Proof.
  intros c. split.
  - edestruct (timing_access_dispatch c 7%nat) as (_ & Hcpu & _);
      [reflexivity|].
    eexists. split; [rewrite Hcpu; vm_compute; reflexivity|].
    split; vm_compute; reflexivity.
  - edestruct (timing_access_dispatch withProtocol 5%nat) as (_ & _ & Hmem);
      [reflexivity|].
    rewrite Hmem. reflexivity.
Defined.

(** The read 8 of 128..131, here issued by thread 1 of CPU 3, as a
    functional access from the CPU side: it comes back for thread 0 of
    CPU 0, as a success, with the bytes of the pending write 3. *)
Lemma functional_access_dispatch_witness :
  let c := putPacket 8%nat
             (set_req (mkRequest 0 128 4 0 0 3 1 0)
                (samplePkt ReadReq 128 4 0 0 Unknown))
             withProtocol in
  exists c' obj',
    doFunctionalAccess 8%nat true c = Done tt c'
    /\ heap (store c') !! 8%nat = Some obj'
    /\ result obj' = Success
    /\ req_cpu (req obj') = 0 /\ req_thread (req obj') = 0
    /\ getPtr obj' = [11; 12; 13; 14].
Proof.
  intros c.
  destruct (doFunctionalAccess 8%nat true c) as [[] c'|f c'] eqn:E;
    [|vm_compute in E; discriminate].
  edestruct (functional_access_dispatch c 8%nat) as (_ & Hres & _);
    [reflexivity|].
  destruct (Hres c' E) as (obj' & Hobj & Hok).
  exists c', obj'. split; [reflexivity|]. split; [exact Hobj|].
  split; [exact Hok|].
  vm_compute in E. injection E as <-. vm_compute in Hobj.
  injection Hobj as <-. repeat split.
Defined.

End OnSample.

End CacheStageSpec.
